(** * Regex learning generator: the match-execution and annotation engine

    A shallow embedding of [RegexLearningGenerator.test_pattern]
    (src/generate.py, lines 31-123): the pattern is compiled once, every
    line of the stripped test text is scanned with [finditer] and rendered
    as an HTML block, the whole text is scanned with [findall], and any
    exception replaces the accumulated HTML by an error block.

    Python strings are modelled as [string]; a character is one of the 256
    code points of [ascii] (the Latin-1 range of Python's [str]).  The two
    library functions the source calls, [html.escape] and the [re] module,
    are not code of the repository: [html.escape] is written out from the
    Python library, and [re] is an interface ([Re.Engine]) whose single
    primitive is one search step of the scanner; [finditer] and [findall]
    are the library's loops over that step.  [MiniRe] implements the
    interface for a fragment of the pattern syntax, so that the generator
    can be run on concrete patterns and texts. *)

From Stdlib Require Import String Ascii List Arith Bool Lia NArith.
From Stdlib Require Import DecimalString Sorted Permutation.
Import ListNotations.
Open Scope list_scope.
Open Scope string_scope.
Open Scope nat_scope.

(** ** Python string operations used by the source *)

Module PyStr.

(** The double quote and the apostrophe, as one-character strings. *)
Definition dq : string := String "034" EmptyString.
Definition sq : string := String "039" EmptyString.

Definition newline : ascii := "010".

(** [str.isspace] on one character, for the code points 0..255:
    TAB, LF, VT, FF, CR, FS, GS, RS, US, space, NEL and NBSP. *)
Definition is_space (c : ascii) : bool :=
  let n := nat_of_ascii c in
  ((9 <=? n) && (n <=? 13)) || ((28 <=? n) && (n <=? 32))
  || (n =? 133) || (n =? 160).

Definition is_empty (s : string) : bool :=
  match s with EmptyString => true | String _ _ => false end.

(** [s.lstrip()], [s.rstrip()] and [s.strip()] with no argument. *)
Fixpoint lstrip (s : string) : string :=
  match s with
  | EmptyString => EmptyString
  | String c s' => if is_space c then lstrip s' else s
  end.

Fixpoint rstrip (s : string) : string :=
  match s with
  | EmptyString => EmptyString
  | String c s' =>
      let r := rstrip s' in
      if is_space c && is_empty r then EmptyString else String c r
  end.

Definition strip (s : string) : string := lstrip (rstrip s).

(** [s.split('\n')]: never the empty list. *)
Fixpoint split_newline (s : string) : list string :=
  match s with
  | EmptyString => [EmptyString]
  | String c s' =>
      if Ascii.eqb c newline then EmptyString :: split_newline s'
      else match split_newline s' with
           | l :: ls => String c l :: ls
           | [] => [String c EmptyString]
           end
  end.

(** [sep.join(items)]. *)
Fixpoint join (sep : string) (items : list string) : string :=
  match items with
  | [] => EmptyString
  | [x] => x
  | x :: rest => x ++ sep ++ join sep rest
  end.

(** Slices with non-negative bounds: [s[a:b]] and [s[a:]].  Both clip at
    the end of the string, and [s[a:b]] is empty when [b <= a]. *)
Definition slice (s : string) (a b : nat) : string := substring a (b - a) s.

Fixpoint slice_from (s : string) (a : nat) : string :=
  match a, s with
  | 0, _ => s
  | S _, EmptyString => EmptyString
  | S a', String _ s' => slice_from s' a'
  end.

(** [s.startswith(p)]. *)
Fixpoint starts_with (p s : string) {struct p} : bool :=
  match p with
  | EmptyString => true
  | String a p' =>
      match s with
      | EmptyString => false
      | String b s' => Ascii.eqb a b && starts_with p' s'
      end
  end.

(** [s[:n]]. *)
Definition take (n : nat) (s : string) : string := substring 0 n s.

(** [s.replace(c, r)] for a one-character [c]. *)
Fixpoint replace_char (c : ascii) (r : string) (s : string) : string :=
  match s with
  | EmptyString => EmptyString
  | String x s' =>
      if Ascii.eqb x c then r ++ replace_char c r s'
      else String x (replace_char c r s')
  end.

Fixpoint mem_char (c : ascii) (s : string) : bool :=
  match s with
  | EmptyString => false
  | String x s' => Ascii.eqb x c || mem_char c s'
  end.

(** [str(n)] for a non-negative integer. *)
Definition str_of_nat (n : nat) : string :=
  NilEmpty.string_of_uint (Nat.to_uint n).

(** [repr] of a [str].  The quote is the apostrophe unless the string holds
    an apostrophe and no double quote; the quote and the backslash are
    escaped, TAB, LF and CR get their letter escapes, and every other
    non-printable code point below 256 is written [\xhh]. *)
Definition hex_digit (n : nat) : ascii :=
  if n <? 10 then ascii_of_nat (48 + n) else ascii_of_nat (87 + n).

Definition is_printable (c : ascii) : bool :=
  let n := nat_of_ascii c in
  ((32 <=? n) && (n <? 127)) || ((161 <=? n) && negb (n =? 173)).

Definition repr_char (quote : ascii) (c : ascii) : string :=
  let n := nat_of_ascii c in
  if Ascii.eqb c quote || Ascii.eqb c "\" then String "\" (String c EmptyString)
  else if n =? 9 then "\t"
  else if n =? 10 then "\n"
  else if n =? 13 then "\r"
  else if is_printable c then String c EmptyString
  else String "\" (String "x"
         (String (hex_digit (n / 16)) (String (hex_digit (n mod 16)) EmptyString))).

Fixpoint repr_body (quote : ascii) (s : string) : string :=
  match s with
  | EmptyString => EmptyString
  | String c s' => repr_char quote c ++ repr_body quote s'
  end.

Definition repr_str (s : string) : string :=
  let quote : ascii :=
    if mem_char "039" s && negb (mem_char "034" s) then "034"%char else "039"%char in
  String quote (repr_body quote s ++ String quote EmptyString).

(** [repr] of a tuple of strings and of a list of items. *)
Definition repr_tuple (items : list string) : string :=
  match items with
  | [x] => "(" ++ repr_str x ++ ",)"
  | _ => "(" ++ join ", " (map repr_str items) ++ ")"
  end.

End PyStr.

(** ** [html.escape(s)] with the default [quote=True] *)

Module Html.
Import PyStr.

(** The library's five replacements, the ampersand first. *)
Definition escape (s : string) : string :=
  let s := replace_char "&" "&amp;" s in
  let s := replace_char "<" "&lt;" s in
  let s := replace_char ">" "&gt;" s in
  let s := replace_char "034" "&quot;" s in
  replace_char "039" "&#x27;" s.

(** The same function, one character at a time. *)
Definition escape_char (c : ascii) : string :=
  if Ascii.eqb c "&" then "&amp;"
  else if Ascii.eqb c "<" then "&lt;"
  else if Ascii.eqb c ">" then "&gt;"
  else if Ascii.eqb c "034" then "&quot;"
  else if Ascii.eqb c "039" then "&#x27;"
  else String c EmptyString.

Fixpoint escape_chars (s : string) : string :=
  match s with
  | EmptyString => EmptyString
  | String c s' => escape_char c ++ escape_chars s'
  end.

(** The characters [html.escape] rewrites. *)
Definition is_special (c : ascii) : bool :=
  Ascii.eqb c "&" || Ascii.eqb c "<" || Ascii.eqb c ">"
  || Ascii.eqb c "034" || Ascii.eqb c "039".

Fixpoint has_special (s : string) : bool :=
  match s with
  | EmptyString => false
  | String c s' => is_special c || has_special s'
  end.

End Html.

Import PyStr Html.

(** ** The [re] module, as the source uses it *)

Module Re.

(** The exceptions the [try] block tells apart: [re.error], and every other
    subclass of [Exception], each with its [str(e)]. *)
Inductive exn : Type :=
| ReError (msg : string)
| OtherException (msg : string).

Definition exn_msg (e : exn) : string :=
  match e with ReError m => m | OtherException m => m end.

(** The outcome of a call that may raise. *)
Definition result (A : Type) : Type := (exn + A)%type.

(** A match object: [m.span()], [m.groups()] and [m.groupdict()] (a dict, in
    the order the named groups are defined).  [None] is a group that did
    not participate in the match. *)
Record Match : Type := mkMatch {
  m_start : nat;
  m_end : nat;
  m_groups : list (option string);
  m_groupdict : list (string * option string)
}.

Definition span (m : Match) : nat * nat := (m_start m, m_end m).

(** [m.group(0)] of a match found in [s]: the text of its span. *)
Definition group0 (s : string) (m : Match) : string :=
  slice s (m_start m) (m_end m).

(** One item of a [findall] result: a string or a tuple of strings. *)
Inductive FindallItem : Type :=
| FStr (s : string)
| FTuple (items : list string).

(** The matching capability.  [re_compile src] is
    [re.compile(src, re.MULTILINE)]; [pattern_groups p] is [p.groups], the
    number of capturing groups; [re_search p s pos must_advance] is one step
    of the scanner behind [finditer] and [findall]: the leftmost match of
    [p] in [s] that starts at or after [pos], where an empty match at [pos]
    itself is refused when [must_advance] is set. *)
Class Engine : Type := {
  Pattern : Type;
  re_compile : string -> result Pattern;
  pattern_groups : Pattern -> nat;
  re_search : Pattern -> string -> nat -> bool -> result (option Match)
}.

(** What every scanner step of [re] guarantees. *)
Definition search_ok (E : Engine) : Prop :=
  forall (p : Pattern) (s : string) (pos : nat) (adv : bool) (m : Match),
    pos <= String.length s ->
    re_search p s pos adv = inr (Some m) ->
    pos <= m_start m /\ m_start m <= m_end m /\ m_end m <= String.length s
    /\ (adv = true -> m_start m = pos -> pos < m_end m).

Section Scanner.
Context {E : Engine}.

(** The scanner loop: search from the end of the previous match, and after
    an empty match refuse another empty match at the same place.  The loop
    stops at the first search that finds nothing; [fuel] bounds the number
    of searches. *)
Fixpoint scanner (fuel : nat) (p : Pattern) (s : string)
    (pos : nat) (must_advance : bool) : result (list Match) :=
  match fuel with
  | 0 => inr []
  | S fuel' =>
      match re_search p s pos must_advance with
      | inl e => inl e
      | inr None => inr []
      | inr (Some m) =>
          match scanner fuel' p s (m_end m) (m_end m =? m_start m) with
          | inl e => inl e
          | inr ms => inr (m :: ms)
          end
      end
  end.

(** Searches a scan from [pos] can need: two for each remaining position
    (an empty and a non-empty match), and the last one that finds nothing. *)
Definition scan_budget (s : string) (pos : nat) (must_advance : bool) : nat :=
  2 * (String.length s - pos) + (if must_advance then 1 else 2).

(** [list(p.finditer(s))]. *)
Definition finditer (p : Pattern) (s : string) : result (list Match) :=
  scanner (scan_budget s 0 false) p s 0 false.

(** The item [findall] makes of one match: the whole match when the pattern
    has no group, the group when it has one, the tuple of all groups
    otherwise; a group that did not participate gives the empty string. *)
Definition group_or_empty (g : option string) : string :=
  match g with Some v => v | None => EmptyString end.

Definition findall_item (ngroups : nat) (s : string) (m : Match) : FindallItem :=
  match ngroups with
  | 0 => FStr (group0 s m)
  | 1 => FStr (group_or_empty (nth 0 (m_groups m) None))
  | _ => FTuple (map group_or_empty (m_groups m))
  end.

(** [p.findall(s)]. *)
Definition findall (p : Pattern) (s : string) : result (list FindallItem) :=
  match finditer p s with
  | inl e => inl e
  | inr ms => inr (map (findall_item (pattern_groups p) s) ms)
  end.

End Scanner.

(** [str(x)] of a [findall] result. *)
Definition repr_item (x : FindallItem) : string :=
  match x with
  | FStr s => repr_str s
  | FTuple items => repr_tuple items
  end.

Definition str_of_list (xs : list FindallItem) : string :=
  "[" ++ join ", " (map repr_item xs) ++ "]".

End Re.

Import Re.

(** ** [RegexLearningGenerator.test_pattern] *)

Module Generate.

(** The [try] block updates [results_html] in place and may raise part-way:
    a computation takes the current value of [results_html] and gives an
    outcome together with the new value. *)
Definition M (A : Type) : Type := string -> result A * string.

Definition ret {A : Type} (a : A) : M A := fun h => (inr a, h).

Definition bind {A B : Type} (m : M A) (f : A -> M B) : M B :=
  fun h =>
    match m h with
    | (inr a, h') => f a h'
    | (inl e, h') => (inl e, h')
    end.

(** [results_html += s]. *)
Definition emit (s : string) : M unit := fun h => (inr tt, h ++ s).

(** A library call that returns or raises, leaving [results_html] alone. *)
Definition call {A : Type} (r : result A) : M A := fun h => (r, h).

Declare Scope gen_scope.
Delimit Scope gen_scope with gen.
Notation "x <- c1 ;; c2" := (bind c1 (fun x => c2))
  (at level 61, c1 at next level, right associativity) : gen_scope.
Notation "c1 ;; c2" := (bind c1 (fun _ => c2))
  (at level 61, right associativity) : gen_scope.

(** The highlight marker of line 67. *)
Definition mark_open : string :=
  "<span style=" ++ dq
  ++ "background-color: #a5d6a7; font-weight: bold; border-radius: 3px; padding: 0 2px;"
  ++ dq ++ ">".
Definition mark_close : string := "</span>".

(** Lines 59-68: the loop over the matches of one line, on the pair
    [(highlighted_line, last_idx)]. *)
Fixpoint highlight_loop (line : string) (matches : list Match)
    (highlighted_line : string) (last_idx : nat) : string * nat :=
  match matches with
  | [] => (highlighted_line, last_idx)
  | m :: rest =>
      let '(s, e) := span m in
      let highlighted_line := highlighted_line ++ escape (slice line last_idx s) in
      let highlighted_line :=
        highlighted_line ++ (mark_open ++ escape (slice line s e) ++ mark_close) in
      highlight_loop line rest highlighted_line e
  end.

(** Lines 59-71. *)
Definition highlight (line : string) (matches : list Match) : string :=
  let '(highlighted_line, last_idx) := highlight_loop line matches EmptyString 0 in
  highlighted_line ++ escape (slice_from line last_idx).

(** Lines 86-88: one entry of the group list, [j] counted from 1. *)
Definition group_item (j : nat) (group : option string) : string :=
  let val := match group with Some g => g | None => "None" end in
  str_of_nat j ++ ": " ++ dq ++ escape val ++ dq.

Fixpoint group_items (j : nat) (groups : list (option string)) : list string :=
  match groups with
  | [] => []
  | g :: rest => group_item j g :: group_items (S j) rest
  end.

(** Lines 95-97: one entry of the named-group list. *)
Definition named_item (entry : string * option string) : string :=
  let '(name, value) := entry in
  let val := match value with Some v => v | None => "None" end in
  name ++ ": " ++ dq ++ escape val ++ dq.

(** Lines 83-89 and 92-98. *)
Definition groups_html (groups : list (option string)) : string :=
  match groups with
  | [] => EmptyString
  | _ => "<br><strong>Groups:</strong> " ++ join ", " (group_items 1 groups)
  end.

Definition named_html (groupdict : list (string * option string)) : string :=
  match groupdict with
  | [] => EmptyString
  | _ => "<br><strong>Named:</strong> " ++ join ", " (map named_item groupdict)
  end.

(** Lines 79-100: the detail block of match number [k]. *)
Definition match_html (line : string) (k : nat) (m : Match) : string :=
  "<div style=" ++ dq
  ++ "margin-top: 4px; margin-left: 10px; font-size: 0.9em; border-left: 2px solid #888; padding-left: 8px;"
  ++ dq ++ ">"
  ++ "<strong>Match " ++ str_of_nat k ++ ":</strong> " ++ dq ++ escape (group0 line m) ++ dq
  ++ groups_html (m_groups m)
  ++ named_html (m_groupdict m)
  ++ "</div>".

Fixpoint matches_html (line : string) (k : nat) (matches : list Match) : string :=
  match matches with
  | [] => EmptyString
  | m :: rest => match_html line k m ++ matches_html line (S k) rest
  end.

(** Lines 57-106: everything line [i] adds to [results_html]. *)
Definition line_html (i : nat) (line : string) (matches : list Match) : string :=
  match matches with
  | _ :: _ =>
      "<div class=" ++ dq ++ "match-result" ++ dq ++ ">"
      ++ "<strong>Line " ++ str_of_nat i ++ ":</strong> " ++ dq
      ++ highlight line matches ++ dq ++ "<br>"
      ++ matches_html line 1 matches
      ++ "</div>"
  | [] =>
      "<div class=" ++ dq ++ "no-match" ++ dq ++ ">"
      ++ "<strong>Line " ++ str_of_nat i ++ ":</strong> " ++ dq
      ++ escape line ++ dq ++ " - No match"
      ++ "</div>"
  end.

(** Lines 110-116: the find-all block, nothing for an empty result. *)
Definition findall_html (all_matches : list FindallItem) : string :=
  match all_matches with
  | [] => EmptyString
  | _ =>
      "<div class=" ++ dq ++ "group-info" ++ dq ++ ">"
      ++ "<strong>All matches found:</strong> "
      ++ str_of_nat (List.length all_matches) ++ "<br>"
      ++ "Matches: " ++ escape (take 200 (str_of_list all_matches))
      ++ (if 200 <? String.length (str_of_list all_matches) then "..." else EmptyString)
      ++ "</div>"
  end.

(** Lines 119 and 121: the two error blocks. *)
Definition regex_error_html (msg : string) : string :=
  "<div class=" ++ dq ++ "no-match" ++ dq ++ "><strong>Regex Error:</strong> "
  ++ escape msg ++ "</div>".

Definition error_html (msg : string) : string :=
  "<div class=" ++ dq ++ "no-match" ++ dq ++ "><strong>Error:</strong> "
  ++ escape msg ++ "</div>".

Definition handler (e : exn) : string :=
  match e with
  | ReError msg => regex_error_html msg
  | OtherException msg => error_html msg
  end.

(** Line 51. *)
Definition test_lines (test_input : string) : list string :=
  split_newline (strip test_input).

Section WithEngine.
Context {E : Engine}.
Local Open Scope gen_scope.

(** Lines 53-106: the loop over the lines, [i] counted from 1. *)
Fixpoint scan_lines (compiled_pattern : Pattern) (i : nat)
    (lines : list string) : M unit :=
  match lines with
  | [] => ret tt
  | line :: rest =>
      matches <- call (finditer compiled_pattern line) ;;
      emit (line_html i line matches) ;;
      scan_lines compiled_pattern (S i) rest
  end.

(** Lines 46-116: the body of the [try]. *)
Definition try_body (pattern test_input : string) : M unit :=
  compiled_pattern <- call (re_compile pattern) ;;
  scan_lines compiled_pattern 1 (test_lines test_input) ;;
  all_matches <- call (findall compiled_pattern test_input) ;;
  emit (findall_html all_matches).

(** Lines 43-121: [results_html] after the [try] statement.  An exception
    handler assigns the error block, whatever had been accumulated. *)
Definition results_html (pattern test_input : string) : string :=
  match try_body pattern test_input EmptyString with
  | (inr _, html) => html
  | (inl e, _) => handler e
  end.

(** The whole function, from the contents of the pattern file and of
    [test_input.txt]. *)
Definition test_pattern (pattern_text test_input : string)
    : string * string * string :=
  let pattern := strip pattern_text in
  (pattern, test_input, results_html pattern test_input).

End WithEngine.

End Generate.

Import Generate.

(** ** A small engine, to run the generator on concrete inputs

    [MiniRe] implements [Re.Engine] for a fragment of Python's pattern
    syntax: literal characters, capturing groups [(...)] and
    [(?P<name>...)], alternation [|], the greedy [?] and the exact
    repetition [{n}].  On this fragment it follows [re]: a backtracking
    matcher that tries alternatives in order, the search loop over start
    positions, and the errors of the parser ([re.error] for parentheses that
    do not balance or nothing to repeat, [OverflowError] for a repetition
    count of [MAXREPEAT] or more).  Any other syntax is outside the fragment
    and is reported as [unsupported]. *)

Module MiniRe.

Inductive regex : Type :=
| Eps
| Chr (c : ascii)
| Seq (r1 r2 : regex)
| Alt (r1 r2 : regex)
| Opt (r : regex)
| Grp (i : nat) (r : regex).

(** A compiled pattern: its expression, [groups] and [groupindex]. *)
Record pattern : Type := mkPattern {
  p_regex : regex;
  p_groups : nat;
  p_names : list (string * nat)
}.

(** *** Matching *)

(** Group [i] (counted from 1) is the [i-1]-th capture. *)
Definition captures : Type := list (option (nat * nat)).

Fixpoint set_capture (i : nat) (v : nat * nat) (c : captures) : captures :=
  match i, c with
  | _, [] => []
  | 0, _ => c
  | 1, _ :: rest => Some v :: rest
  | S i', x :: rest => x :: set_capture i' v rest
  end.

(** Match [r] in [s] at offset [i], then continue with [k]; alternatives
    are tried in order and a failure of [k] backtracks into [r]. *)
Fixpoint match_here (r : regex) (s : string) (i : nat) (c : captures)
    (k : nat -> captures -> option (nat * captures)) : option (nat * captures) :=
  match r with
  | Eps => k i c
  | Chr x =>
      match String.get i s with
      | Some y => if Ascii.eqb x y then k (S i) c else None
      | None => None
      end
  | Seq r1 r2 => match_here r1 s i c (fun j c' => match_here r2 s j c' k)
  | Alt r1 r2 =>
      match match_here r1 s i c k with
      | Some x => Some x
      | None => match_here r2 s i c k
      end
  | Opt r1 =>
      match match_here r1 s i c k with
      | Some x => Some x
      | None => k i c
      end
  | Grp n r1 => match_here r1 s i c (fun j c' => k j (set_capture n (i, j) c'))
  end.

(** The end of a match that starts at [start]: an empty match is refused at
    the first start position of a search that must advance. *)
Definition accept (start pos : nat) (must_advance : bool)
    (j : nat) (c : captures) : option (nat * captures) :=
  if must_advance && (start =? pos) && (j =? start) then None else Some (j, c).

(** Try the start positions [start], [start + 1], ... in turn. *)
Fixpoint search_loop (tries : nat) (p : pattern) (s : string)
    (start pos : nat) (must_advance : bool) : option (nat * nat * captures) :=
  match tries with
  | 0 => None
  | S tries' =>
      match match_here (p_regex p) s start (repeat None (p_groups p))
              (accept start pos must_advance) with
      | Some (j, c) => Some (start, j, c)
      | None => search_loop tries' p s (S start) pos must_advance
      end
  end.

Definition group_text (s : string) (c : option (nat * nat)) : option string :=
  match c with
  | Some (a, b) => Some (slice s a b)
  | None => None
  end.

Definition make_match (p : pattern) (s : string)
    (found : nat * nat * captures) : Match :=
  let '(start, stop, c) := found in
  let groups := map (group_text s) c in
  mkMatch start stop groups
    (map (fun '(name, i) => (name, nth (i - 1) groups None)) (p_names p)).

Definition search (p : pattern) (s : string) (pos : nat) (must_advance : bool)
    : result (option Match) :=
  inr (option_map (make_match p s)
         (search_loop (S (String.length s) - pos) p s pos pos must_advance)).

(** *** Parsing *)

Record pstate : Type := mkPstate {
  ps_rest : string;
  ps_pos : nat;
  ps_groups : nat;
  ps_names : list (string * nat)
}.

Definition advance (n : nat) (st : pstate) : pstate :=
  mkPstate (slice_from (ps_rest st) n) (ps_pos st + n) (ps_groups st) (ps_names st).

Definition unsupported {A : Type} : result A :=
  inl (OtherException "pattern syntax outside the modelled fragment").

Definition MAXREPEAT : N := 4294967295.

Definition is_digit (c : ascii) : bool :=
  let n := nat_of_ascii c in (48 <=? n) && (n <=? 57).

Definition is_name_char (c : ascii) : bool :=
  let n := nat_of_ascii c in
  is_digit c || ((65 <=? n) && (n <=? 90)) || ((97 <=? n) && (n <=? 122)) || (n =? 95).

(** The characters with a meaning of their own in a pattern. *)
Definition is_meta (c : ascii) : bool := mem_char c ".\[{()*+?^$|".

(** Leading decimal digits: their value, how many, and what follows. *)
Fixpoint read_digits (s : string) (acc : N) (n : nat) : N * nat * string :=
  match s with
  | String c s' =>
      if is_digit c
      then read_digits s' (10 * acc + N.of_nat (nat_of_ascii c - 48))%N (S n)
      else (acc, n, s)
  | EmptyString => (acc, n, s)
  end.

Fixpoint read_name (s : string) : string * string :=
  match s with
  | String c s' =>
      if is_name_char c
      then let '(name, rest) := read_name s' in (String c name, rest)
      else (EmptyString, s)
  | EmptyString => (EmptyString, s)
  end.

Fixpoint rep (n : nat) (r : regex) : regex :=
  match n with
  | 0 => Eps
  | S n' => Seq r (rep n' r)
  end.

(** A repetition [{n}] at the head of [st]: the count and the state after
    the closing brace. *)
Definition read_repeat (st : pstate) : result (N * pstate) :=
  match ps_rest st with
  | String "{" s1 =>
      match read_digits s1 0%N 0 with
      | (n, S d, String "}" _) =>
          if (MAXREPEAT <=? n)%N
          then inl (OtherException "the repetition number is too large")
          else inr (n, advance (S (S (S d))) st)
      | _ => unsupported
      end
  | _ => unsupported
  end.

(** The quantifier, if any, that follows the item [r]. *)
Definition quantified (r : regex) (st : pstate) : result (regex * pstate) :=
  let no_second (x : regex * pstate) : result (regex * pstate) :=
    match ps_rest (snd x) with
    | String c _ => if mem_char c "*+?{" then unsupported else inr x
    | EmptyString => inr x
    end in
  match ps_rest st with
  | String "?" _ => no_second (Opt r, advance 1 st)
  | String "{" _ =>
      match read_repeat st with
      | inl e => inl e
      | inr (n, st') => no_second (rep (N.to_nat n) r, st')
      end
  | String "*" _ => unsupported
  | String "+" _ => unsupported
  | _ => inr (r, st)
  end.

Definition nothing_to_repeat (st : pstate) : exn :=
  ReError ("nothing to repeat at position " ++ str_of_nat (ps_pos st)).

(** The header of a group that opens at the head of [st]: the group's
    number and the state after the header. *)
Definition open_group (st : pstate) : result (nat * pstate) :=
  match ps_rest st with
  | String "(" (String "?" (String "P" (String "<" s1))) =>
      match read_name s1 with
      | (String c name, String ">" _) =>
          if is_digit c then unsupported
          else if existsb (fun e => String.eqb (fst e) (String c name)) (ps_names st)
          then unsupported
          else
            let g := S (ps_groups st) in
            inr (g, mkPstate (slice_from (ps_rest st) (6 + String.length name))
                       (ps_pos st + 6 + String.length name) g
                       (ps_names st ++ [(String c name, g)])%list)
      | _ => unsupported
      end
  | String "(" (String "?" _) => unsupported
  | String "(" _ =>
      let g := S (ps_groups st) in
      inr (g, mkPstate (slice_from (ps_rest st) 1) (ps_pos st + 1) g (ps_names st))
  | _ => unsupported
  end.

(** [parse_alt] reads alternatives up to a closing parenthesis or the end
    of the pattern; [parse_seq] reads the items of one alternative. *)
Fixpoint parse_alt (fuel : nat) (st : pstate) : result (regex * pstate) :=
  match fuel with
  | 0 => unsupported
  | S fuel' =>
      match parse_seq fuel' st with
      | inl e => inl e
      | inr (r1, st1) =>
          match ps_rest st1 with
          | String "|" _ =>
              match parse_alt fuel' (advance 1 st1) with
              | inl e => inl e
              | inr (r2, st2) => inr (Alt r1 r2, st2)
              end
          | _ => inr (r1, st1)
          end
      end
  end
with parse_seq (fuel : nat) (st : pstate) : result (regex * pstate) :=
  match fuel with
  | 0 => unsupported
  | S fuel' =>
      let continue (x : result (regex * pstate)) : result (regex * pstate) :=
        match x with
        | inl e => inl e
        | inr (item, st1) =>
            match quantified item st1 with
            | inl e => inl e
            | inr (item', st2) =>
                match parse_seq fuel' st2 with
                | inl e => inl e
                | inr (r, st3) => inr (Seq item' r, st3)
                end
            end
        end in
      match ps_rest st with
      | EmptyString => inr (Eps, st)
      | String "|" _ => inr (Eps, st)
      | String ")" _ => inr (Eps, st)
      | String "?" _ => inl (nothing_to_repeat st)
      | String "{" _ =>
          match read_repeat st with
          | inl e => inl e
          | inr _ => inl (nothing_to_repeat st)
          end
      | String "(" _ =>
          match open_group st with
          | inl e => inl e
          | inr (g, st1) =>
              match parse_alt fuel' st1 with
              | inl e => inl e
              | inr (r, st2) =>
                  match ps_rest st2 with
                  | String ")" _ => continue (inr (Grp g r, advance 1 st2))
                  | _ =>
                      inl (ReError ("missing ), unterminated subpattern at position "
                                    ++ str_of_nat (ps_pos st)))
                  end
              end
          end
      | String c _ =>
          if is_meta c then unsupported
          else continue (inr (Chr c, advance 1 st))
      end
  end.

Definition compile (src : string) : result pattern :=
  match parse_alt (2 * String.length src + 4) (mkPstate src 0 0 []) with
  | inl e => inl e
  | inr (r, st) =>
      match ps_rest st with
      | EmptyString => inr (mkPattern r (ps_groups st) (ps_names st))
      | _ => inl (ReError ("unbalanced parenthesis at position "
                           ++ str_of_nat (ps_pos st)))
      end
  end.

#[export] Instance engine : Engine := {
  Pattern := pattern;
  re_compile := compile;
  pattern_groups := p_groups;
  re_search := search
}.

End MiniRe.

(** ** An engine that can fail while it scans

    [re] can raise while it scans a string, for want of memory for
    instance.  [LimitedRe] is [MiniRe] with a bound on the length of the
    string it accepts to scan; it serves to run the handler of line 120 on
    an exception raised after some lines have been reported. *)

Module LimitedRe.

Definition search (limit : nat) (p : MiniRe.pattern) (s : string)
    (pos : nat) (must_advance : bool) : result (option Match) :=
  if limit <? String.length s
  then inl (OtherException "out of memory")
  else MiniRe.search p s pos must_advance.

Definition engine (limit : nat) : Engine := {|
  Pattern := MiniRe.pattern;
  re_compile := MiniRe.compile;
  pattern_groups := MiniRe.p_groups;
  re_search := search limit
|}.

End LimitedRe.

(** ** Notions used to state the properties *)

Module Props.

(** Spans in left-to-right, non-overlapping order: every span has its start
    at or before its end, and of two spans the earlier one ends at or
    before the start of the later one. *)
Definition span_ok (sp : nat * nat) : Prop := fst sp <= snd sp.
Definition precedes (a b : nat * nat) : Prop := snd a <= fst b.
Definition ordered_spans (spans : list (nat * nat)) : Prop :=
  Forall span_ok spans /\ ForallOrdPairs precedes spans.

(** Deleting every highlight marker from a text, left to right; [skip]
    counts the characters of a marker still to drop. *)
Fixpoint remove_markers_from (skip : nat) (s : string) : string :=
  match s with
  | EmptyString => EmptyString
  | String c s' =>
      match skip with
      | S k => remove_markers_from k s'
      | 0 =>
          if starts_with mark_open s
          then remove_markers_from (String.length mark_open - 1) s'
          else if starts_with mark_close s
          then remove_markers_from (String.length mark_close - 1) s'
          else String c (remove_markers_from 0 s')
      end
  end.

Definition remove_markers (s : string) : string := remove_markers_from 0 s.

(** The highlighted line from offset [last_idx] on, written as one
    concatenation from left to right. *)
Fixpoint highlight_from (line : string) (matches : list Match) (last_idx : nat) : string :=
  match matches with
  | [] => escape (slice_from line last_idx)
  | m :: rest =>
      escape (slice line last_idx (m_start m))
      ++ mark_open ++ escape (slice line (m_start m) (m_end m)) ++ mark_close
      ++ highlight_from line rest (m_end m)
  end.

(** [needle in hay]. *)
Fixpoint contains (needle hay : string) : bool :=
  starts_with needle hay ||
  match hay with
  | EmptyString => false
  | String _ hay' => contains needle hay'
  end.

(** The text every line block carries, and the opening of the find-all
    block. *)
Definition line_marker : string := "<strong>Line ".
Definition findall_marker : string := "<div class=" ++ dq ++ "group-info" ++ dq ++ ">".

(** Undoing [html.escape] once: the five entities it writes. *)
Fixpoint unescape_from (skip : nat) (s : string) : string :=
  match s with
  | EmptyString => EmptyString
  | String c s' =>
      match skip with
      | S k => unescape_from k s'
      | 0 =>
          if starts_with "&amp;" s then String "&" (unescape_from 4 s')
          else if starts_with "&lt;" s then String "<" (unescape_from 3 s')
          else if starts_with "&gt;" s then String ">" (unescape_from 3 s')
          else if starts_with "&quot;" s then String "034" (unescape_from 5 s')
          else if starts_with "&#x27;" s then String "039" (unescape_from 5 s')
          else String c (unescape_from 0 s')
      end
  end.

Definition unescape (s : string) : string := unescape_from 0 s.

(** The blocks of the lines numbered [i], [i + 1], ... *)
Fixpoint lines_html (i : nat) (lines : list string) (mss : list (list Match)) : string :=
  match lines, mss with
  | line :: lines', ms :: mss' => line_html i line ms ++ lines_html (S i) lines' mss'
  | _, _ => EmptyString
  end.

Section WithEngine.
Context {E : Engine}.

(** The matches of each line in turn, up to the first call that raises. *)
Fixpoint scan_all (p : Pattern) (lines : list string) : result (list (list Match)) :=
  match lines with
  | [] => inr []
  | line :: rest =>
      match finditer p line with
      | inl e => inl e
      | inr ms =>
          match scan_all p rest with
          | inl e => inl e
          | inr mss => inr (ms :: mss)
          end
      end
  end.

(** The first exception the calls of the [try] block raise, in the order
    the source makes them: compilation, the scan of each line, the find-all
    pass over the test text. *)
Definition first_exception (pattern test_input : string) : option exn :=
  match re_compile pattern with
  | inl e => Some e
  | inr p =>
      match scan_all p (test_lines test_input) with
      | inl e => Some e
      | inr _ =>
          match findall p test_input with
          | inl e => Some e
          | inr _ => None
          end
      end
  end.

End WithEngine.

(** The line sequence of the specification: only trailing whitespace is
    trimmed before the split. *)
Definition lines_trailing_trim_only (test_input : string) : list string :=
  split_newline (rstrip test_input).

Definition all_space (s : string) : Prop :=
  forall c, mem_char c s = true -> is_space c = true.

Definition first_char (s : string) : option ascii :=
  match s with
  | EmptyString => None
  | String c _ => Some c
  end.

Fixpoint last_char (s : string) : option ascii :=
  match s with
  | EmptyString => None
  | String c EmptyString => Some c
  | String _ s' => last_char s'
  end.

(** The value the group lists show for a group (lines 87 and 96). *)
Definition displayed (g : option string) : string :=
  match g with Some v => v | None => "None" end.

Definition is_str (x : FindallItem) : bool :=
  match x with FStr _ => true | FTuple _ => false end.

Definition is_tuple (x : FindallItem) : bool :=
  match x with FStr _ => false | FTuple _ => true end.

Fixpoint repeat_string (s : string) (n : nat) : string :=
  match n with
  | 0 => EmptyString
  | S n' => s ++ repeat_string s n'
  end.

End Props.

Import Props.

(** ** The site generator: [discover_topics], [generate_html] and
    [_generate_index]

    The directory tree the generator reads is a value of type [node]; a
    file holds the text [f.read()] returns.  The files written are
    collected in order.  The progress messages the functions print are
    not part of the model.  [str.title] and [json.load] are Python's and
    are taken as parameters ([Host]), and so is the literal of lines
    258-294, which holds characters outside the modelled range. *)

Module Site.

(** [s.replace(old, new)]: the occurrences of [old] are replaced from left
    to right, without overlap; for an empty [old], [new] is put before
    every character and at the end. *)
Fixpoint replace_from (skip : nat) (old new s : string) : string :=
  match s with
  | EmptyString => EmptyString
  | String c s' =>
      match skip with
      | S k => replace_from k old new s'
      | 0 =>
          if starts_with old s
          then new ++ replace_from (String.length old - 1) old new s'
          else String c (replace_from 0 old new s')
      end
  end.

Fixpoint replace_empty (new s : string) : string :=
  match s with
  | EmptyString => new
  | String c s' => new ++ String c (replace_empty new s')
  end.

Definition replace (old new s : string) : string :=
  match old with
  | EmptyString => replace_empty new s
  | String _ _ => replace_from 0 old new s
  end.

(** [sorted(xs)] on the key [key], as a stable insertion sort. *)
Fixpoint insert_by {A : Type} (key : A -> string) (x : A) (l : list A) : list A :=
  match l with
  | [] => [x]
  | y :: l' =>
      if String.leb (key x) (key y) then x :: y :: l'
      else y :: insert_by key x l'
  end.

Fixpoint sorted_by {A : Type} (key : A -> string) (l : list A) : list A :=
  match l with
  | [] => []
  | x :: l' => insert_by key x (sorted_by key l')
  end.

(** A directory tree. *)
#[warnings="-register-all"] Inductive node : Type :=
| File (text : string)
| Dir (entries : list (string * node)).

(** The entry called [name] of a directory listing. *)
Fixpoint entry (name : string) (entries : list (string * node)) : option node :=
  match entries with
  | [] => None
  | (n, x) :: rest => if String.eqb n name then Some x else entry name rest
  end.

(** The exceptions of this layer; none of them is caught. *)
Inductive py_exn : Type :=
| FileNotFoundError (path : list string)
| IsADirectoryError (path : list string)
| NotADirectoryError (path : list string)
| KeyError (key : string)
| TypeError (msg : string)
| JSONDecodeError (msg : string).

Definition outcome (A : Type) : Type := (py_exn + A)%type.

(** [open(path).read()], given what [path] names. *)
Definition read_text (path : list string) (n : option node) : outcome string :=
  match n with
  | Some (File text) => inr text
  | Some (Dir _) => inl (IsADirectoryError path)
  | None => inl (FileNotFoundError path)
  end.

(** [path.iterdir()]. *)
Definition iterdir (path : list string) (n : option node)
    : outcome (list (string * node)) :=
  match n with
  | Some (Dir entries) => inr entries
  | Some (File _) => inl (NotADirectoryError path)
  | None => inl (FileNotFoundError path)
  end.

(** A value of the metadata: a string, or anything else, kept as the text
    an f-string shows for it. *)
Inductive value : Type :=
| VStr (s : string)
| VOther (shown : string).

(** What [json.load] gives: a dict, or any other JSON value. *)
Inductive metadata : Type :=
| MDict (fields : list (string * value))
| MOther.

Fixpoint dict_get (key : string) (fields : list (string * value)) : option value :=
  match fields with
  | [] => None
  | (k, v) :: rest => if String.eqb k key then Some v else dict_get key rest
  end.

(** [metadata[key]].  A value that is not a dict raises [TypeError] for a
    string key; the text of its message depends on the type of the value
    and is not modelled, the string here stands for it. *)
Definition subscript (m : metadata) (key : string) : outcome value :=
  match m with
  | MDict fields =>
      match dict_get key fields with
      | Some v => inr v
      | None => inl (KeyError key)
      end
  | MOther => inl (TypeError "indices must be integers")
  end.

(** The value as an f-string shows it. *)
Definition format_value (v : value) : string :=
  match v with VStr s => s | VOther shown => shown end.

(** [s.replace(old, v)]: the replacement has to be a string.  Python's
    message goes on with the type of [v], which is not modelled. *)
Definition replace_value (old : string) (v : value) (s : string) : outcome string :=
  match v with
  | VStr new => inr (replace old new s)
  | VOther _ => inl (TypeError "replace() argument 2 must be str")
  end.

Class Host : Type := {
  str_title : string -> string;
  json_load : string -> outcome metadata;
  index_welcome : string
}.

(** Lines 15-22 and 178-183. *)
Record Example : Type := mkExample {
  ex_name : string;
  ex_pattern : string;
  ex_test_input : string;
  ex_results : string;
  ex_description : string;
  ex_topic : string
}.

Record Topic : Type := mkTopic {
  t_name : string;
  t_title : value;
  t_description : value;
  t_examples : list Example
}.

Section WithHost.
Context {E : Engine} {Hs : Host}.

(** Lines 33-40 and 123: [test_pattern] on the files of an example
    directory. *)
Definition test_pattern_file (path : list string) (files : list (string * node))
    : outcome (string * string * string) :=
  match read_text (path ++ ["pattern.txt"])%list (entry "pattern.txt" files) with
  | inl e => inl e
  | inr pattern_text =>
      match read_text (path ++ ["test_input.txt"])%list (entry "test_input.txt" files) with
      | inl e => inl e
      | inr test_input => inr (test_pattern pattern_text test_input)
      end
  end.

(** Lines 155-162. *)
Definition read_description (path : list string) (files : list (string * node))
    : outcome string :=
  match entry "description.html" files with
  | Some n => read_text (path ++ ["description.html"])%list (Some n)
  | None => inr "<p>No description provided.</p>"
  end.

(** Lines 146-175: the loop over the sorted entries of a topic directory. *)
Fixpoint load_examples (topic_name : string) (entries : list (string * node))
    : outcome (list Example) :=
  match entries with
  | [] => inr []
  | (name, File _) :: rest => load_examples topic_name rest
  | (name, Dir files) :: rest =>
      match entry "pattern.txt" files with
      | None => load_examples topic_name rest
      | Some _ =>
          match read_description ["examples"; topic_name; name] files with
          | inl e => inl e
          | inr description =>
              match test_pattern_file ["examples"; topic_name; name] files with
              | inl e => inl e
              | inr (pattern, test_input, results) =>
                  match load_examples topic_name rest with
                  | inl e => inl e
                  | inr examples =>
                      inr (mkExample (str_title (replace "_" " " name))
                             pattern test_input results description topic_name
                           :: examples)
                  end
              end
          end
      end
  end.

(** Lines 134-142. *)
Definition load_metadata (topic_name : string) (files : list (string * node))
    : outcome metadata :=
  match entry "topic.json" files with
  | Some n =>
      match read_text ["examples"; topic_name; "topic.json"] (Some n) with
      | inl e => inl e
      | inr text => json_load text
      end
  | None =>
      inr (MDict [("title", VStr (str_title (replace "_" " " topic_name)));
                  ("description", VStr ("Examples for " ++ topic_name))])
  end.

(** Lines 177-183: the dict of a topic that has examples. *)
Definition make_topic (topic_name : string) (m : metadata) (examples : list Example)
    : outcome Topic :=
  match subscript m "title" with
  | inl e => inl e
  | inr title =>
      match subscript m "description" with
      | inl e => inl e
      | inr description => inr (mkTopic topic_name title description examples)
      end
  end.

(** Lines 129-183: the loop over the sorted entries of [examples]. *)
Fixpoint load_topics (entries : list (string * node)) : outcome (list Topic) :=
  match entries with
  | [] => inr []
  | (name, File _) :: rest => load_topics rest
  | (name, Dir files) :: rest =>
      match load_metadata name files with
      | inl e => inl e
      | inr m =>
          match load_examples name (sorted_by fst files) with
          | inl e => inl e
          | inr [] => load_topics rest
          | inr (ex :: exs) =>
              match make_topic name m (ex :: exs) with
              | inl e => inl e
              | inr topic =>
                  match load_topics rest with
                  | inl e => inl e
                  | inr topics => inr (topic :: topics)
                  end
              end
          end
      end
  end.

(** Lines 125-185, on the entries of the directory of the script. *)
Definition discover_topics (base : list (string * node)) : outcome (list Topic) :=
  match iterdir ["examples"] (entry "examples" base) with
  | inl e => inl e
  | inr entries => load_topics (sorted_by fst entries)
  end.

(** Lines 212-216. *)
Definition nav_link (topic : Topic) : string :=
  "<a href=" ++ dq ++ t_name topic ++ ".html" ++ dq ++ ">"
  ++ format_value (t_title topic) ++ "</a>".

Definition nav_links (topics : list Topic) : string :=
  join " | "
    (("<a href=" ++ dq ++ "index.html" ++ dq ++ "><strong>Home</strong></a>")
     :: map nav_link topics).

(** Lines 232-236: the five replacements, in the order of the source. *)
Definition example_html (example_template : string) (ex : Example) : string :=
  let example_html := replace "{EXAMPLE_NAME}" (ex_name ex) example_template in
  let example_html := replace "{DESCRIPTION}" (ex_description ex) example_html in
  let example_html := replace "{PATTERN}" (escape (ex_pattern ex)) example_html in
  let example_html := replace "{TEST_INPUT}" (escape (ex_test_input ex)) example_html in
  replace "{RESULTS}" (ex_results ex) example_html.

Fixpoint examples_html (example_template : string) (examples : list Example) : string :=
  match examples with
  | [] => EmptyString
  | ex :: rest => example_html example_template ex ++ examples_html example_template rest
  end.

(** Lines 225-239: the content of the page of a topic. *)
Definition topic_page (header_template footer_template example_template nav : string)
    (topic : Topic) : outcome string :=
  match replace_value "{TITLE}" (t_title topic) header_template with
  | inl e => inl e
  | inr titled =>
      inr (replace "{NAV_LINKS}" nav titled
           ++ ("<div class=" ++ dq ++ "example" ++ dq ++ "><h2>Overview</h2><div class="
               ++ dq ++ "description" ++ dq ++ "><p>"
               ++ format_value (t_description topic)
               ++ "</p></div></div>" ++ String newline EmptyString)
           ++ examples_html example_template (t_examples topic)
           ++ footer_template)
  end.

(** Lines 297-303: the block of a topic on the index page. *)
Definition index_block (topic : Topic) : string :=
  String newline
    ("        <div style=" ++ dq
     ++ "margin: 20px 0; padding: 15px; background: #ecf0f1; border-radius: 5px;"
     ++ dq ++ ">" ++ String newline
    ("            <h4><a href=" ++ dq ++ t_name topic ++ ".html" ++ dq ++ ">"
     ++ format_value (t_title topic) ++ "</a></h4>" ++ String newline
    ("            <p>" ++ format_value (t_description topic) ++ "</p>" ++ String newline
    ("            <p><em>" ++ str_of_nat (List.length (t_examples topic))
     ++ " examples</em></p>" ++ String newline
    ("        </div>" ++ String newline EmptyString))))).

Fixpoint index_blocks (topics : list Topic) : string :=
  match topics with
  | [] => EmptyString
  | topic :: rest => index_block topic ++ index_blocks rest
  end.

(** Lines 256-306: the content of the index page. *)
Definition index_page (topics : list Topic) (nav header_template footer_template : string)
    : string :=
  replace "{NAV_LINKS}" nav (replace "{TITLE}" "Regular Expression Learning" header_template)
  ++ index_welcome
  ++ index_blocks topics
  ++ ("    </div>" ++ String newline EmptyString)
  ++ footer_template.

(** The files written so far, the last one first in time order at the end
    of the list. *)
Definition writes : Type := list (string * string).

(** [open(html_output_dir / name, "w")] followed by [f.write(content)]. *)
Definition write_file (base : list (string * node)) (name content : string)
    (w : writes) : outcome unit * writes :=
  match entry "html_output" base with
  | None => (inl (FileNotFoundError ["html_output"; name]), w)
  | Some (File _) => (inl (NotADirectoryError ["html_output"; name]), w)
  | Some (Dir files) =>
      match entry name files with
      | Some (Dir _) => (inl (IsADirectoryError ["html_output"; name]), w)
      | _ => (inr tt, (w ++ [(name, content)])%list)
      end
  end.

(** Lines 221-244: the loop that writes the topic pages. *)
Fixpoint write_topic_pages (base : list (string * node))
    (header_template footer_template example_template nav : string)
    (topics : list Topic) (w : writes) : outcome unit * writes :=
  match topics with
  | [] => (inr tt, w)
  | topic :: rest =>
      match topic_page header_template footer_template example_template nav topic with
      | inl e => (inl e, w)
      | inr content =>
          match write_file base (t_name topic ++ ".html") content w with
          | (inl e, w') => (inl e, w')
          | (inr _, w') =>
              write_topic_pages base header_template footer_template example_template
                nav rest w'
          end
      end
  end.

(** Lines 199-204. *)
Definition read_template (base : list (string * node)) (name : string) : outcome string :=
  match iterdir ["templates"] (entry "templates" base) with
  | inl (NotADirectoryError _) => inl (NotADirectoryError ["templates"; name])
  | inl _ => inl (FileNotFoundError ["templates"; name])
  | inr files => read_text ["templates"; name] (entry name files)
  end.

(** Lines 187-252 and 254-309: the outcome of [generate_html] and the
    files it has written, in order. *)
Definition generate_html (base : list (string * node)) : outcome unit * writes :=
  match discover_topics base with
  | inl e => (inl e, [])
  | inr [] => (inr tt, [])
  | inr (t :: ts) =>
      let topics := t :: ts in
      match read_template base "header.html" with
      | inl e => (inl e, [])
      | inr header_template =>
          match read_template base "footer.html" with
          | inl e => (inl e, [])
          | inr footer_template =>
              match read_template base "example.html" with
              | inl e => (inl e, [])
              | inr example_template =>
                  let nav := nav_links topics in
                  match write_topic_pages base header_template footer_template
                          example_template nav topics [] with
                  | (inl e, w) => (inl e, w)
                  | (inr _, w) =>
                      write_file base "index.html"
                        (index_page topics nav header_template footer_template) w
                  end
              end
          end
      end
  end.

End WithHost.

(** The content a file has after the writes [w]: that of the last write to
    it. *)
Fixpoint file_content (name : string) (w : writes) : option string :=
  match w with
  | [] => None
  | (n, content) :: rest =>
      match file_content name rest with
      | Some later => Some later
      | None => if String.eqb n name then Some content else None
      end
  end.

End Site.

(** ** A small host, to run the site generator on concrete trees

    [MiniHost] implements [Site.Host]: [title] is [str.title] on ASCII
    text, and [load] is [json.load] on objects whose keys are strings
    without escapes and whose values are such strings or non-negative
    integers.  Any other text is outside the fragment and is reported as a
    decoding error.  The welcome text is a stand-in for the literal of the
    source. *)

Module MiniHost.
Import Site.

Definition is_upper (c : ascii) : bool :=
  let n := nat_of_ascii c in (65 <=? n) && (n <=? 90).

Definition is_lower (c : ascii) : bool :=
  let n := nat_of_ascii c in (97 <=? n) && (n <=? 122).

Definition to_upper (c : ascii) : ascii :=
  if is_lower c then ascii_of_nat (nat_of_ascii c - 32) else c.

Definition to_lower (c : ascii) : ascii :=
  if is_upper c then ascii_of_nat (nat_of_ascii c + 32) else c.

(** A letter that follows a letter is lowered, any other letter is
    raised. *)
Fixpoint title_from (previous_is_cased : bool) (s : string) : string :=
  match s with
  | EmptyString => EmptyString
  | String c s' =>
      if is_upper c || is_lower c
      then String (if previous_is_cased then to_lower c else to_upper c)
             (title_from true s')
      else String c (title_from false s')
  end.

Definition title (s : string) : string := title_from false s.

Definition unsupported {A : Type} : outcome A :=
  inl (JSONDecodeError "invalid JSON, or JSON outside the modelled fragment").

Definition is_json_space (c : ascii) : bool :=
  let n := nat_of_ascii c in (n =? 32) || (n =? 9) || (n =? 10) || (n =? 13).

Fixpoint skip_spaces (s : string) : string :=
  match s with
  | String c s' => if is_json_space c then skip_spaces s' else s
  | EmptyString => s
  end.

(** The characters up to the closing quote, and what follows it. *)
Fixpoint read_string (s : string) : option (string * string) :=
  match s with
  | EmptyString => None
  | String c s' =>
      if Ascii.eqb c "034" then Some (EmptyString, s')
      else if Ascii.eqb c "\" || (nat_of_ascii c <? 32) then None
      else match read_string s' with
           | Some (text, rest) => Some (String c text, rest)
           | None => None
           end
  end.

Fixpoint read_number (s : string) : string * string :=
  match s with
  | String c s' =>
      if MiniRe.is_digit c
      then let '(digits, rest) := read_number s' in (String c digits, rest)
      else (EmptyString, s)
  | EmptyString => (EmptyString, s)
  end.

Definition read_value (s : string) : option (value * string) :=
  match s with
  | String c s' =>
      if Ascii.eqb c "034"
      then match read_string s' with
           | Some (text, rest) => Some (VStr text, rest)
           | None => None
           end
      else match read_number s with
           | (String "0" (String _ _), _) => None
           | (String d digits, rest) =>
               match rest with
               | String "." _ => None
               | String "e" _ => None
               | String "E" _ => None
               | _ => Some (VOther (String d digits), rest)
               end
           | _ => None
           end
  | EmptyString => None
  end.

(** [fields[key] = v]: a key that is already there keeps its place. *)
Fixpoint dict_set (key : string) (v : value) (fields : list (string * value))
    : list (string * value) :=
  match fields with
  | [] => [(key, v)]
  | (k, x) :: rest =>
      if String.eqb k key then (k, v) :: rest else (k, x) :: dict_set key v rest
  end.

(** The members of an object, from the first key on. *)
Fixpoint read_members (fuel : nat) (s : string) (fields : list (string * value))
    : option (list (string * value) * string) :=
  match fuel with
  | 0 => None
  | S fuel' =>
      match skip_spaces s with
      | String "034" s1 =>
          match read_string s1 with
          | Some (key, s2) =>
              match skip_spaces s2 with
              | String ":" s3 =>
                  match read_value (skip_spaces s3) with
                  | Some (v, s4) =>
                      match skip_spaces s4 with
                      | String "," s5 => read_members fuel' s5 (dict_set key v fields)
                      | String "}" s5 => Some (dict_set key v fields, s5)
                      | _ => None
                      end
                  | None => None
                  end
              | _ => None
              end
          | None => None
          end
      | _ => None
      end
  end.

Definition load (text : string) : outcome metadata :=
  match skip_spaces text with
  | String "{" s1 =>
      match skip_spaces s1 with
      | String "}" s2 =>
          match skip_spaces s2 with
          | EmptyString => inr (MDict [])
          | _ => unsupported
          end
      | _ =>
          match read_members (String.length text) s1 [] with
          | Some (fields, s2) =>
              match skip_spaces s2 with
              | EmptyString => inr (MDict fields)
              | _ => unsupported
              end
          | None => unsupported
          end
      end
  | _ => unsupported
  end.

#[export] Instance host : Host := {
  str_title := title;
  json_load := load;
  index_welcome := "<h2>Welcome</h2>"
}.

End MiniHost.

(** ** Notions used to state the properties of the site generator *)

Module SiteProps.
Import Site.

(** An entry of a topic directory that is a directory with a
    [pattern.txt]. *)
Definition has_pattern (e : string * node) : bool :=
  match snd e with
  | Dir files =>
      match entry "pattern.txt" files with Some _ => true | None => false end
  | File _ => false
  end.

Definition name_le (a b : string) : Prop := String.leb a b = true.

Definition head_not_upper (s : string) : bool :=
  match s with
  | EmptyString => false
  | String y _ => negb (MiniHost.is_upper y)
  end.

(** Every opening brace of [s] is followed, in [s], by a character that is
    not a capital letter: [s] holds no beginning of a placeholder. *)
Fixpoint brace_safe (s : string) : bool :=
  match s with
  | EmptyString => true
  | String c s' =>
      (if Ascii.eqb c "{" then head_not_upper s' else true) && brace_safe s'
  end.

Fixpoint count_char (c : ascii) (s : string) : nat :=
  match s with
  | EmptyString => 0
  | String x s' => (if Ascii.eqb x c then 1 else 0) + count_char c s'
  end.

(** As many [<] as [>]. *)
Definition balanced (s : string) : Prop := count_char "<" s = count_char ">" s.

(** No name of a named group holds an angle bracket. *)
Definition plain_names (m : Match) : Prop :=
  Forall (fun e => mem_char "<" (fst e) = false /\ mem_char ">" (fst e) = false)
    (m_groupdict m).

Section WithHost.
Context {E : Engine} {Hs : Host}.

(** The example made of the entry [e] of the directory of the topic
    [topic_name]. *)
Definition example_of (topic_name : string) (e : string * node) (ex : Example) : Prop :=
  exists files pattern_text test_input,
    e = (fst e, Dir files)
    /\ entry "pattern.txt" files = Some (File pattern_text)
    /\ entry "test_input.txt" files = Some (File test_input)
    /\ (ex_pattern ex, ex_test_input ex, ex_results ex)
       = test_pattern pattern_text test_input
    /\ ex_name ex = str_title (replace "_" " " (fst e))
    /\ ex_description ex
       = match entry "description.html" files with
         | Some (File text) => text
         | _ => "<p>No description provided.</p>"
         end
    /\ ex_topic ex = topic_name.

(** An entry of [examples] that is a directory whose examples load and are
    not none. *)
Definition yields_examples (e : string * node) : bool :=
  match snd e with
  | Dir files =>
      match load_examples (fst e) (sorted_by fst files) with
      | inr (_ :: _) => true
      | _ => false
      end
  | File _ => false
  end.

(** The topic made of the entry [e] of [examples]. *)
Definition topic_of (e : string * node) (t : Topic) : Prop :=
  exists files m,
    e = (t_name t, Dir files)
    /\ load_metadata (t_name t) files = inr m
    /\ load_examples (t_name t) (sorted_by fst files) = inr (t_examples t)
    /\ subscript m "title" = inr (t_title t)
    /\ subscript m "description" = inr (t_description t).

(** The page of a topic, as [generate_html] writes it. *)
Definition page_of (header_template footer_template example_template nav : string)
    (t : Topic) (f : string * string) : Prop :=
  fst f = t_name t ++ ".html"
  /\ topic_page header_template footer_template example_template nav t = inr (snd f).

End WithHost.

Definition is_str_value (v : value) : bool :=
  match v with VStr _ => true | VOther _ => false end.

(** A directory that holds no directory. *)
Definition only_files (files : list (string * node)) : Prop :=
  forall name files', entry name files <> Some (Dir files').

End SiteProps.

(** ** A sample tree *)

Module Sample.
Import Site.

(** Two topics with one example each, a topic directory without example, a
    plain file among the topics, and the three templates. *)
Definition site : list (string * node) :=
  [("examples",
    Dir [("b_topic",
          Dir [("ex_one", Dir [("pattern.txt", File ("(b)" ++ String newline EmptyString));
                               ("test_input.txt", File ("abc" ++ String newline EmptyString))]);
               ("notes.txt", File "x");
               ("empty", Dir [])]);
         ("a_topic",
          Dir [("topic.json",
                File ("{" ++ dq ++ "title" ++ dq ++ ": " ++ dq ++ "A & T" ++ dq ++ ", "
                      ++ dq ++ "description" ++ dq ++ ": " ++ dq ++ "D" ++ dq ++ "}"));
               ("z", Dir [("pattern.txt", File "a{2}");
                          ("test_input.txt", File "xaay");
                          ("description.html", File "<p>d</p>")])]);
         ("c_empty", Dir [("topic.json", File "{}")]);
         ("readme", File "r")]);
   ("templates",
    Dir [("header.html", File "<h1>{TITLE}</h1>{NAV_LINKS}");
         ("footer.html", File "<end>");
         ("example.html",
          File "[{EXAMPLE_NAME}|{DESCRIPTION}|{PATTERN}|{TEST_INPUT}|{RESULTS}]")]);
   ("html_output", Dir [])].

Definition topics : list Topic :=
  match discover_topics (E := MiniRe.engine) (Hs := MiniHost.host) site with
  | inr topics => topics
  | inl _ => []
  end.

(** A site whose second topic has a number as title. *)
Definition numbered : list (string * node) :=
  [("examples",
    Dir [("a", Dir [("e", Dir [("pattern.txt", File "a"); ("test_input.txt", File "a")])]);
         ("b",
          Dir [("topic.json",
                File ("{" ++ dq ++ "title" ++ dq ++ ": 5, "
                      ++ dq ++ "description" ++ dq ++ ": " ++ dq ++ "D" ++ dq ++ "}"));
               ("e", Dir [("pattern.txt", File "b"); ("test_input.txt", File "b")])]);
         ("c", Dir [("e", Dir [("pattern.txt", File "c"); ("test_input.txt", File "c")])])]);
   ("templates",
    Dir [("header.html", File "<h1>{TITLE}</h1>");
         ("footer.html", File "<end>");
         ("example.html", File "[{EXAMPLE_NAME}]")]);
   ("html_output", Dir [])].

Definition numbered_topics : list Topic :=
  match discover_topics (E := MiniRe.engine) (Hs := MiniHost.host) numbered with
  | inr topics => topics
  | inl _ => []
  end.

(** A site without any example and without templates. *)
Definition bare : list (string * node) :=
  [("examples", Dir [("c_empty", Dir [("topic.json", File "{}")]); ("readme", File "r")])].

End Sample.

(** * Properties *)

Example repr_str_plain : repr_str "a" = "'a'".
Proof. reflexivity. Qed.

Example repr_str_apostrophe : repr_str "it's" = dq ++ "it's" ++ dq.
Proof. reflexivity. Qed.

Example escape_all_five :
  escape ("<&>" ++ dq ++ sq) = "&lt;&amp;&gt;&quot;&#x27;".
Proof. reflexivity. Qed.

Example strip_split_example :
  split_newline (strip (" a " ++ String newline (" b " ++ String newline (String newline EmptyString))))
  = ["a "; " b"].
Proof. reflexivity. Qed.

(** The pattern [x] on the text [abc]: one line without a match, and no
    find-all block. *)
Example no_match_report :
  test_pattern (E := MiniRe.engine) "x" "abc"
  = ("x", "abc",
     "<div class=" ++ dq ++ "no-match" ++ dq ++ "><strong>Line 1:</strong> "
     ++ dq ++ "abc" ++ dq ++ " - No match</div>").
Proof. vm_compute. reflexivity. Qed.

(** The pattern [(b)] on the text [abc]: the highlighted line, the detail
    of the match with its group, and the find-all block. *)
Example one_group_report :
  snd (test_pattern (E := MiniRe.engine) "(b)" "abc")
  = "<div class=" ++ dq ++ "match-result" ++ dq ++ "><strong>Line 1:</strong> "
    ++ dq ++ "a" ++ mark_open ++ "b" ++ mark_close ++ "c" ++ dq ++ "<br>"
    ++ "<div style=" ++ dq
    ++ "margin-top: 4px; margin-left: 10px; font-size: 0.9em; border-left: 2px solid #888; padding-left: 8px;"
    ++ dq ++ "><strong>Match 1:</strong> " ++ dq ++ "b" ++ dq
    ++ "<br><strong>Groups:</strong> 1: " ++ dq ++ "b" ++ dq ++ "</div></div>"
    ++ "<div class=" ++ dq ++ "group-info" ++ dq
    ++ "><strong>All matches found:</strong> 1<br>Matches: [&#x27;b&#x27;]</div>".
Proof. vm_compute. reflexivity. Qed.

(** The matches of [re] on a few patterns of the fragment. *)
Example finditer_alternation_with_empty :
  match re_compile (Engine := MiniRe.engine) "|b" with
  | inr p => finditer p "b"
  | inl e => inl e
  end
  = inr [mkMatch 0 0 [] []; mkMatch 0 1 [] []; mkMatch 1 1 [] []].
Proof. vm_compute. reflexivity. Qed.

Example finditer_named_groups :
  match re_compile (Engine := MiniRe.engine) "(?P<x>a(?P<y>b)?)-}" with
  | inr p => finditer p "ab-} a-}"
  | inl e => inl e
  end
  = inr [mkMatch 0 4 [Some "ab"; Some "b"] [("x", Some "ab"); ("y", Some "b")];
         mkMatch 5 8 [Some "a"; None] [("x", Some "a"); ("y", None)]].
Proof. vm_compute. reflexivity. Qed.

Example compile_errors :
  re_compile (Engine := MiniRe.engine) "a)b"
  = inl (ReError "unbalanced parenthesis at position 1")
  /\ re_compile (Engine := MiniRe.engine) "a|?"
     = inl (ReError "nothing to repeat at position 2")
  /\ re_compile (Engine := MiniRe.engine) "((a)"
     = inl (ReError "missing ), unterminated subpattern at position 0").
Proof. repeat split; vm_compute; reflexivity. Qed.

(** ** Strings *)

Lemma append_nil_r (s : string) : s ++ EmptyString = s.
Proof. induction s; simpl; congruence. Qed.

Lemma append_assoc (a b c : string) : (a ++ b) ++ c = a ++ (b ++ c).
Proof. induction a; simpl; congruence. Qed.

Lemma length_append (a b : string) :
  String.length (a ++ b) = String.length a + String.length b.
Proof. induction a; simpl; congruence. Qed.

Lemma append_inv_head (a x y : string) : a ++ x = a ++ y -> x = y.
Proof. induction a; simpl; intros H; [assumption | injection H; auto]. Qed.

Lemma starts_with_append (p r : string) : starts_with p (p ++ r) = true.
Proof.
  induction p as [|c p IH]; simpl; [reflexivity|].
  now rewrite Ascii.eqb_refl.
Qed.

Lemma starts_with_head_neq (c d : ascii) (p s : string) :
  c <> d -> starts_with (String c p) (String d s) = false.
Proof.
  intros H. simpl. destruct (Ascii.eqb_spec c d); [contradiction | reflexivity].
Qed.

Lemma replace_char_append (c : ascii) (r a b : string) :
  replace_char c r (a ++ b) = replace_char c r a ++ replace_char c r b.
Proof.
  induction a as [|x a IH]; simpl; [reflexivity|].
  destruct (Ascii.eqb x c); simpl; rewrite IH; [|reflexivity].
  now rewrite append_assoc.
Qed.

(** ** [html.escape] *)

Lemma escape_cons (c : ascii) (s : string) :
  escape (String c s) = escape_char c ++ escape s.
Proof.
  unfold escape, escape_char.
  cbn [replace_char].
  destruct (Ascii.eqb_spec c "&") as [->|H1].
  { rewrite !replace_char_append. reflexivity. }
  cbn [replace_char].
  destruct (Ascii.eqb_spec c "<") as [->|H2].
  { rewrite !replace_char_append. reflexivity. }
  cbn [replace_char].
  destruct (Ascii.eqb_spec c ">") as [->|H3].
  { rewrite !replace_char_append. reflexivity. }
  cbn [replace_char].
  destruct (Ascii.eqb_spec c "034") as [->|H4].
  { rewrite !replace_char_append. reflexivity. }
  cbn [replace_char].
  destruct (Ascii.eqb_spec c "039") as [->|H5]; reflexivity.
Qed.

Lemma escape_is_charwise (s : string) : escape s = escape_chars s.
Proof.
  induction s as [|c s IH]; [reflexivity|].
  rewrite escape_cons. simpl. now rewrite IH.
Qed.

Lemma escape_append (a b : string) : escape (a ++ b) = escape a ++ escape b.
Proof.
  induction a as [|c a IH]; [reflexivity|].
  simpl. rewrite !escape_cons, IH. now rewrite append_assoc.
Qed.

Lemma escape_char_cases (c : ascii) :
  (is_special c = true /\ exists t, escape_char c = String "&" t /\ has_special t = false
                                    /\ mem_char "&" t = false)
  \/ (is_special c = false /\ escape_char c = String c EmptyString).
Proof.
  unfold is_special, escape_char.
  destruct (Ascii.eqb c "&"); [left; split; [reflexivity | eexists; repeat split] |].
  destruct (Ascii.eqb c "<"); [left; split; [reflexivity | eexists; repeat split] |].
  destruct (Ascii.eqb c ">"); [left; split; [reflexivity | eexists; repeat split] |].
  destruct (Ascii.eqb c "034"); [left; split; [reflexivity | eexists; repeat split] |].
  destruct (Ascii.eqb c "039"); [left; split; [reflexivity | eexists; repeat split] |].
  right. split; reflexivity.
Qed.


(** ** Slices *)


Lemma slice_from_0 (s : string) : slice_from s 0 = s.
Proof. destruct s; reflexivity. Qed.

Lemma take_slice_from (s : string) (n : nat) : take n s ++ slice_from s n = s.
Proof.
  unfold take. revert n.
  induction s as [|c s IH]; intros [|n]; simpl; try reflexivity.
  now rewrite IH.
Qed.

Lemma slice_slice_from (s : string) (a b : nat) :
  a <= b -> slice s a b ++ slice_from s b = slice_from s a.
Proof.
  unfold slice. revert s b.
  induction a as [|a IH]; intros s b Hab.
  - rewrite Nat.sub_0_r, slice_from_0. apply (take_slice_from s b).
  - destruct b as [|b]; [lia|].
    destruct s as [|c s]; [reflexivity|].
    simpl. apply IH. lia.
Qed.


Lemma length_take (s : string) (n : nat) :
  String.length (take n s) = Nat.min n (String.length s).
Proof.
  unfold take. revert n.
  induction s as [|c s IH]; intros [|n]; simpl; auto.
Qed.

(** ** The highlighted line *)

Lemma highlight_loop_from (line : string) (matches : list Match) :
  forall (acc : string) (last_idx : nat),
    (let '(h, l) := highlight_loop line matches acc last_idx in
     h ++ escape (slice_from line l))
    = acc ++ highlight_from line matches last_idx.
Proof.
  induction matches as [|m rest IH]; intros acc last_idx.
  - reflexivity.
  - cbn [highlight_loop highlight_from span].
    rewrite IH. rewrite !append_assoc. reflexivity.
Qed.

Lemma highlight_eq (line : string) (matches : list Match) :
  highlight line matches = highlight_from line matches 0.
Proof.
  unfold highlight.
  pose proof (highlight_loop_from line matches EmptyString 0) as H.
  destruct (highlight_loop line matches EmptyString 0) as [h l].
  exact H.
Qed.

Lemma mark_open_head : exists t, mark_open = String "<" t.
Proof. eexists. reflexivity. Qed.

Lemma mark_close_head : exists t, mark_close = String "<" t.
Proof. eexists. reflexivity. Qed.


Lemma remove_markers_char (c : ascii) (r : string) :
  c <> "<"%char ->
  remove_markers (String c r) = String c (remove_markers r).
Proof.
  intros Hc. unfold remove_markers. cbn [remove_markers_from].
  destruct mark_open_head as [t1 ->]. destruct mark_close_head as [t2 ->].
  rewrite !starts_with_head_neq by congruence. reflexivity.
Qed.

Lemma remove_markers_open (r : string) :
  remove_markers (mark_open ++ r) = remove_markers r.
Proof. vm_compute. reflexivity. Qed.

Lemma remove_markers_close (r : string) :
  remove_markers (mark_close ++ r) = remove_markers r.
Proof. vm_compute. reflexivity. Qed.

Lemma remove_markers_plain (t r : string) :
  mem_char "<" t = false ->
  remove_markers (t ++ r) = t ++ remove_markers r.
Proof.
  induction t as [|c t IH]; intros H; [reflexivity|].
  simpl in H. apply orb_false_iff in H as [Hc Ht].
  change (String c t ++ r) with (String c (t ++ r)).
  rewrite remove_markers_char.
  - simpl. now rewrite IH.
  - intros ->. discriminate Hc.
Qed.

Lemma mem_char_append (c : ascii) (a b : string) :
  mem_char c (a ++ b) = mem_char c a || mem_char c b.
Proof. induction a as [|x a IH]; simpl; [reflexivity|]. now rewrite IH, orb_assoc. Qed.

Lemma has_special_append (a b : string) :
  has_special (a ++ b) = has_special a || has_special b.
Proof. induction a as [|x a IH]; simpl; [reflexivity|]. now rewrite IH, orb_assoc. Qed.

Lemma has_special_mem (c : ascii) (s : string) :
  is_special c = true -> has_special s = false -> mem_char c s = false.
Proof.
  intros Hc. induction s as [|x s IH]; simpl; [reflexivity|].
  intros H. apply orb_false_iff in H as [Hx Hs].
  rewrite IH by assumption.
  destruct (Ascii.eqb_spec x c) as [->|]; [congruence | reflexivity].
Qed.

(** Escaped text holds none of the characters [<], [>], the double quote
    and the apostrophe. *)
Lemma escape_no_markup (c : ascii) (s : string) :
  is_special c = true -> c <> "&"%char -> mem_char c (escape s) = false.
Proof.
  intros Hc Hamp.
  induction s as [|x s IH]; [reflexivity|].
  rewrite escape_cons, mem_char_append, IH, orb_false_r.
  destruct (escape_char_cases x) as [(_ & t & -> & Ht & _)|(Hx & ->)].
  - cbn [mem_char]. rewrite (has_special_mem c t Hc Ht), orb_false_r.
    destruct (Ascii.eqb_spec "&"%char c); [congruence | reflexivity].
  - cbn [mem_char]. rewrite orb_false_r.
    destruct (Ascii.eqb_spec x c) as [->|]; [congruence | reflexivity].
Qed.

Lemma remove_markers_escape (x r : string) :
  remove_markers (escape x ++ r) = escape x ++ remove_markers r.
Proof. apply remove_markers_plain, escape_no_markup; [reflexivity | discriminate]. Qed.


Lemma remove_markers_highlight_from (line : string) (matches : list Match) :
  forall last_idx : nat,
    Forall span_ok (map span matches) ->
    ForallOrdPairs precedes (map span matches) ->
    Forall (fun m => last_idx <= m_start m) matches ->
    remove_markers (highlight_from line matches last_idx)
    = escape (slice_from line last_idx).
Proof.
  induction matches as [|m rest IH]; intros last_idx Hok Hord Hlast.
  - cbn [highlight_from].
    rewrite <- (append_nil_r (escape _)) at 1.
    rewrite remove_markers_escape. now rewrite append_nil_r.
  - cbn [highlight_from map] in *.
    inversion Hok as [|? ? Hm Hok']; subst.
    inversion Hord as [|? ? Hfirst Hord']; subst.
    inversion Hlast as [|? ? Hl _]; subst.
    unfold span_ok in Hm; simpl in Hm.
    rewrite remove_markers_escape, remove_markers_open,
      remove_markers_escape, remove_markers_close.
    rewrite IH; try assumption.
    + rewrite <- !escape_append.
      rewrite slice_slice_from by assumption.
      now rewrite slice_slice_from by assumption.
    + rewrite Forall_map in Hfirst.
      eapply Forall_impl; [|exact Hfirst].
      intros m' H'. exact H'.
Qed.


(** ** The scanner loop *)

Section ScannerFacts.
Context {E : Engine}.
Hypothesis Hok : search_ok E.

Lemma scanner_spans (p : Pattern) (s : string) :
  forall (fuel pos : nat) (adv : bool) (ms : list Match),
    pos <= String.length s ->
    scanner fuel p s pos adv = inr ms ->
    ordered_spans (map span ms)
    /\ Forall (fun m => pos <= m_start m /\ m_end m <= String.length s) ms.
Proof.
  induction fuel as [|fuel IH]; intros pos adv ms Hpos Hscan.
  - injection Hscan as <-. repeat constructor.
  - cbn [scanner] in Hscan.
    destruct (re_search p s pos adv) as [e|[m|]] eqn:Hs; try discriminate.
    2:{ injection Hscan as <-. repeat constructor. }
    destruct (scanner fuel p s (m_end m) (m_end m =? m_start m)) as [e|ms'] eqn:Hrest;
      try discriminate.
    injection Hscan as <-.
    destruct (Hok p s pos adv m Hpos Hs) as (H1 & H2 & H3 & _).
    destruct (IH _ _ _ H3 Hrest) as [[Hspan Hord] Hall].
    split; [split|].
    + cbn [map]. constructor; [exact H2 | exact Hspan].
    + cbn [map]. constructor; [|exact Hord].
      rewrite Forall_map. eapply Forall_impl; [|exact Hall].
      intros m' [Hm' _]. exact Hm'.
    + constructor; [split; assumption|].
      eapply Forall_impl; [|exact Hall].
      intros m' [Ha Hb]. split; [lia | assumption].
Qed.

(** The loop never stops for want of fuel: every bound from [scan_budget]
    on gives the same list. *)
Lemma scanner_fuel (p : Pattern) (s : string) :
  forall (f1 f2 pos : nat) (adv : bool),
    pos <= String.length s ->
    scan_budget s pos adv <= f1 ->
    scan_budget s pos adv <= f2 ->
    scanner f1 p s pos adv = scanner f2 p s pos adv.
Proof.
  induction f1 as [|f1 IH]; intros f2 pos adv Hpos H1 H2.
  - unfold scan_budget in H1. destruct adv; lia.
  - destruct f2 as [|f2]; [unfold scan_budget in H2; destruct adv; lia|].
    cbn [scanner].
    destruct (re_search p s pos adv) as [e|[m|]] eqn:Hs; try reflexivity.
    destruct (Hok p s pos adv m Hpos Hs) as (Ha & Hb & Hc & Hd).
    assert (Hlt : scan_budget s (m_end m) (m_end m =? m_start m)
                  < scan_budget s pos adv).
    { unfold scan_budget in *.
      destruct (Nat.eqb_spec (m_end m) (m_start m)) as [Heq|Hne].
      - destruct adv.
        + destruct (Nat.eq_dec (m_start m) pos) as [Hp|Hp].
          * specialize (Hd eq_refl Hp). lia.
          * lia.
        + lia.
      - destruct adv; lia. }
    rewrite (IH f2 (m_end m) (m_end m =? m_start m)); [reflexivity | lia..].
Qed.

End ScannerFacts.

Lemma ordered_spans_sorted_starts (ms : list Match) :
  ordered_spans (map span ms) -> StronglySorted le (map m_start ms).
Proof.
  intros [Hspan Hord].
  induction ms as [|m ms IH]; [constructor|].
  cbn [map] in *.
  inversion Hspan as [|? ? Hm Hspan']; subst.
  inversion Hord as [|? ? Hfirst Hord']; subst.
  constructor; [auto|].
  rewrite Forall_map in *.
  eapply Forall_impl; [|exact Hfirst].
  intros m' H'. unfold span_ok, precedes in *. simpl in *. lia.
Qed.

Lemma ordered_spans_pairwise (ms : list Match) :
  ordered_spans (map span ms) ->
  forall i j mi mj,
    i < j -> nth_error ms i = Some mi -> nth_error ms j = Some mj ->
    m_end mi <= m_start mj.
Proof.
  intros [_ Hord].
  induction ms as [|m ms IH]; intros i j mi mj Hij Hi Hj.
  - destruct i; discriminate.
  - cbn [map] in Hord. inversion Hord as [|? ? Hfirst Hord']; subst.
    destruct j as [|j]; [lia|]. cbn in Hj.
    destruct i as [|i]; cbn in Hi.
    + injection Hi as <-.
      rewrite Forall_map, Forall_forall in Hfirst.
      apply (Hfirst mj). eapply nth_error_In; eassumption.
    + apply (IH Hord' i j); [lia | assumption | assumption].
Qed.

(** ** The [try] block, call by call *)

Section TryFacts.
Context {E : Engine}.

Lemma scan_lines_ok (p : Pattern) :
  forall (lines : list string) (mss : list (list Match)) (i : nat) (h : string),
    scan_all p lines = inr mss ->
    scan_lines p i lines h = (inr tt, h ++ lines_html i lines mss).
Proof.
  induction lines as [|line rest IH]; intros mss i h Hall.
  - injection Hall as <-. cbn. now rewrite append_nil_r.
  - cbn [scan_all] in Hall.
    destruct (finditer p line) as [e|ms] eqn:Hfi; [discriminate|].
    destruct (scan_all p rest) as [e|mss'] eqn:Hrest; [discriminate|].
    injection Hall as <-.
    cbn [scan_lines lines_html]. unfold bind, call, emit. rewrite Hfi.
    rewrite (IH mss' (S i) _ eq_refl). now rewrite append_assoc.
Qed.

Lemma scan_lines_raises (p : Pattern) :
  forall (lines : list string) (e : exn) (i : nat) (h : string),
    scan_all p lines = inl e ->
    fst (scan_lines p i lines h) = inl e.
Proof.
  induction lines as [|line rest IH]; intros e i h Hall.
  - discriminate.
  - cbn [scan_all] in Hall. cbn [scan_lines]. unfold bind, call, emit.
    destruct (finditer p line) as [e'|ms] eqn:Hfi.
    + injection Hall as <-. reflexivity.
    + destruct (scan_all p rest) as [e'|mss'] eqn:Hrest; [|discriminate].
      injection Hall as <-.
      specialize (IH e' (S i) (h ++ line_html i line ms) eq_refl).
      destruct (scan_lines p (S i) rest (h ++ line_html i line ms)) as [[x|y] h'];
        simpl in IH |- *; congruence.
Qed.

(** [results_html] in terms of the calls to the engine. *)
Lemma results_html_eq (pattern test_input : string) :
  results_html pattern test_input =
  match re_compile pattern with
  | inl e => handler e
  | inr p =>
      match scan_all p (test_lines test_input) with
      | inl e => handler e
      | inr mss =>
          match findall p test_input with
          | inl e => handler e
          | inr all_matches =>
              lines_html 1 (test_lines test_input) mss ++ findall_html all_matches
          end
      end
  end.
Proof.
  unfold results_html, try_body, bind, call.
  destruct (re_compile pattern) as [e|p]; [reflexivity|].
  destruct (scan_all p (test_lines test_input)) as [e|mss] eqn:Hall.
  - pose proof (scan_lines_raises p _ e 1 EmptyString Hall) as H.
    destruct (scan_lines p 1 (test_lines test_input) EmptyString) as [[x|y] h'];
      simpl in H; [congruence | discriminate].
  - rewrite (scan_lines_ok p _ mss 1 EmptyString Hall).
    destruct (findall p test_input) as [e|all_matches]; reflexivity.
Qed.

Lemma results_html_first_exception (pattern test_input : string) (e : exn) :
  first_exception pattern test_input = Some e ->
  results_html pattern test_input = handler e.
Proof.
  unfold first_exception. rewrite results_html_eq.
  destruct (re_compile pattern) as [e'|p]; [congruence|].
  destruct (scan_all p (test_lines test_input)) as [e'|mss]; [congruence|].
  destruct (findall p test_input) as [e'|all_matches]; congruence.
Qed.

End TryFacts.

(** [scan_all] returns exactly when [finditer] returns on every line, with
    the matches of each line in order. *)
Lemma scan_all_forall2 {E : Engine} (p : Pattern) (lines : list string)
    (mss : list (list Match)) :
  scan_all p lines = inr mss
  <-> Forall2 (fun l ms => finditer p l = inr ms) lines mss.
Proof.
  revert mss. induction lines as [|line rest IH]; intros mss; cbn [scan_all].
  - split; [intros H; injection H as <-; constructor|].
    intros H. inversion H. reflexivity.
  - split.
    + intros H. destruct (finditer p line) as [|ms] eqn:Hl; [discriminate|].
      destruct (scan_all p rest) as [|mss'] eqn:Hr; [discriminate|].
      injection H as <-. constructor; [exact Hl | now apply IH].
    + intros H. inversion H as [|? ms ? mss' Hl Hrest]; subst.
      rewrite Hl. apply IH in Hrest. now rewrite Hrest.
Qed.

(** ** The small engine keeps the scanner's contract *)

Lemma get_some_lt (s : string) :
  forall (i : nat) (y : ascii), String.get i s = Some y -> i < String.length s.
Proof.
  induction s as [|c s IH]; intros i y H; [discriminate|].
  destruct i as [|i]; simpl in *; [lia|].
  apply IH in H. lia.
Qed.

Lemma match_here_bounds (s : string) (r : MiniRe.regex) :
  forall (i : nat) (c : MiniRe.captures)
         (k : nat -> MiniRe.captures -> option (nat * MiniRe.captures))
         (res : nat * MiniRe.captures),
    i <= String.length s ->
    MiniRe.match_here r s i c k = Some res ->
    exists (j : nat) (c' : MiniRe.captures),
      i <= j /\ j <= String.length s /\ k j c' = Some res.
Proof.
  induction r as [|x|r1 IH1 r2 IH2|r1 IH1 r2 IH2|r1 IH1|n r1 IH1];
    intros i c k res Hi H; cbn [MiniRe.match_here] in H.
  - exists i, c. auto.
  - destruct (String.get i s) as [y|] eqn:Hget; [|discriminate].
    destruct (Ascii.eqb x y); [|discriminate].
    apply get_some_lt in Hget.
    exists (S i), c. repeat split; [lia | lia | assumption].
  - apply IH1 in H as (j1 & c1 & Ha & Hb & H); [|assumption].
    apply IH2 in H as (j2 & c2 & Hc & Hd & H); [|assumption].
    exists j2, c2. repeat split; [lia | assumption | assumption].
  - destruct (MiniRe.match_here r1 s i c k) as [x|] eqn:H1.
    + injection H as <-. now apply IH1 in H1.
    + now apply IH2 in H.
  - destruct (MiniRe.match_here r1 s i c k) as [x|] eqn:H1.
    + injection H as <-. now apply IH1 in H1.
    + exists i, c. auto.
  - apply IH1 in H as (j1 & c1 & Ha & Hb & H); [|assumption].
    exists j1, (MiniRe.set_capture n (i, j1) c1). auto.
Qed.

Lemma search_loop_bounds (p : MiniRe.pattern) (s : string) (pos : nat) (adv : bool) :
  forall (tries start st j : nat) (c : MiniRe.captures),
    start + tries = S (String.length s) ->
    pos <= start ->
    MiniRe.search_loop tries p s start pos adv = Some (st, j, c) ->
    pos <= st /\ st <= j /\ j <= String.length s
    /\ (adv = true -> st = pos -> pos < j).
Proof.
  induction tries as [|tries IH]; intros start st j c Hsum Hpos H; [discriminate|].
  cbn [MiniRe.search_loop] in H.
  destruct (MiniRe.match_here _ s start _ _) as [[j0 c0]|] eqn:Hm.
  - injection H as <- <- <-.
    apply match_here_bounds in Hm as (j1 & c1 & Ha & Hb & Hacc); [|lia].
    unfold MiniRe.accept in Hacc.
    destruct (adv && (start =? pos) && (j1 =? start)) eqn:Hcond; [discriminate|].
    injection Hacc as <- <-.
    repeat split; try assumption.
    intros -> ->. rewrite Nat.eqb_refl in Hcond. simpl in Hcond.
    apply Nat.eqb_neq in Hcond. lia.
  - apply IH in H as (Ha & Hb & Hc & Hd); [|lia|lia].
    repeat split; assumption.
Qed.

Lemma MiniRe_search_ok : search_ok MiniRe.engine.
Proof.
  intros p s pos adv m Hpos H.
  cbn in H. unfold MiniRe.search in H.
  destruct (MiniRe.search_loop _ p s pos pos adv) as [[[st j] c]|] eqn:Hl;
    [|discriminate].
  injection H as <-. cbn.
  eapply search_loop_bounds; [| |exact Hl]; lia.
Qed.

(** ** Searching a text for a marker *)

Lemma contains_app_intro (needle a b : string) :
  contains needle (a ++ needle ++ b) = true.
Proof.
  induction a as [|c a IH].
  - destruct needle as [|x n].
    + destruct b; reflexivity.
    + change (contains (String x n) (String x (n ++ b)) = true).
      cbn [contains].
      change (String x (n ++ b)) with (String x n ++ b).
      now rewrite starts_with_append.
  - change (contains needle (String c (a ++ needle ++ b)) = true).
    cbn [contains]. rewrite IH. apply orb_true_r.
Qed.

Lemma contains_skip_char (c x : ascii) (n r : string) :
  x <> c -> contains (String x n) (String c r) = contains (String x n) r.
Proof.
  intros H. cbn [contains]. now rewrite starts_with_head_neq.
Qed.

Lemma contains_skip_plain (x : ascii) (n t r : string) :
  mem_char x t = false ->
  contains (String x n) (t ++ r) = contains (String x n) r.
Proof.
  induction t as [|c t IH]; intros H; [reflexivity|].
  cbn [mem_char] in H. apply orb_false_iff in H as [Hc Ht].
  change (String c t ++ r) with (String c (t ++ r)).
  rewrite contains_skip_char; [now apply IH|].
  intros <-. now rewrite Ascii.eqb_refl in Hc.
Qed.

(** Neither error block holds the marker of a line block or of the
    find-all block. *)
Lemma handler_no_blocks (e : exn) :
  contains line_marker (handler e) = false
  /\ contains findall_marker (handler e) = false.
Proof.
  assert (Hesc : forall n msg tail,
             contains (String "<" n) (escape msg ++ tail) = contains (String "<" n) tail).
  { intros. apply contains_skip_plain, escape_no_markup; [reflexivity | discriminate]. }
  destruct e as [msg|msg]; split.
  - transitivity (contains line_marker (escape msg ++ "</div>")).
    + vm_compute. reflexivity.
    + unfold line_marker. rewrite Hesc. reflexivity.
  - transitivity (contains findall_marker (escape msg ++ "</div>")).
    + vm_compute. reflexivity.
    + change findall_marker with (String "<" ("div class=" ++ dq ++ "group-info" ++ dq ++ ">")).
      rewrite Hesc. reflexivity.
  - transitivity (contains line_marker (escape msg ++ "</div>")).
    + vm_compute. reflexivity.
    + unfold line_marker. rewrite Hesc. reflexivity.
  - transitivity (contains findall_marker (escape msg ++ "</div>")).
    + vm_compute. reflexivity.
    + change findall_marker with (String "<" ("div class=" ++ dq ++ "group-info" ++ dq ++ ">")).
      rewrite Hesc. reflexivity.
Qed.

Lemma contains_head (needle b : string) : contains needle (needle ++ b) = true.
Proof. apply (contains_app_intro needle EmptyString b). Qed.

Lemma contains_later (needle a r : string) :
  contains needle r = true -> contains needle (a ++ r) = true.
Proof.
  intros H. induction a as [|c a IH]; [assumption|].
  change (contains needle (String c (a ++ r)) = true).
  cbn [contains]. rewrite IH. apply orb_true_r.
Qed.

Lemma line_html_marker (i : nat) (line : string) (ms : list Match) :
  contains line_marker (line_html i line ms) = true.
Proof.
  destruct ms as [|m ms]; unfold line_html;
    do 5 apply contains_later; apply contains_head.
Qed.

Lemma findall_html_marker (x : FindallItem) (xs : list FindallItem) :
  contains findall_marker (findall_html (x :: xs)) = true.
Proof.
  unfold findall_html.
  match goal with
  | |- contains _ (_ ++ _ ++ _ ++ _ ++ _ ++ ?r) = true =>
      change (contains findall_marker (findall_marker ++ r) = true)
  end.
  apply contains_head.
Qed.

(** ** Stripping and splitting the test text *)

Lemma all_space_nil : all_space EmptyString.
Proof. intros c H. discriminate H. Qed.

Lemma all_space_cons (c : ascii) (s : string) :
  is_space c = true -> all_space s -> all_space (String c s).
Proof.
  intros Hc Hs x Hx. cbn [mem_char] in Hx.
  apply orb_true_iff in Hx as [Hx|Hx]; [|now apply Hs].
  apply Ascii.eqb_eq in Hx. now subst.
Qed.


Lemma lstrip_split (s : string) :
  exists pre, s = pre ++ lstrip s /\ all_space pre.
Proof.
  induction s as [|c s (pre & Heq & Hpre)].
  - exists EmptyString. split; [reflexivity | apply all_space_nil].
  - cbn [lstrip]. destruct (is_space c) eqn:Hc.
    + exists (String c pre). split; [simpl; congruence | now apply all_space_cons].
    + exists EmptyString. split; [reflexivity | apply all_space_nil].
Qed.

Lemma rstrip_split (s : string) :
  exists post, s = rstrip s ++ post /\ all_space post.
Proof.
  induction s as [|c s (post & Heq & Hpost)].
  - exists EmptyString. split; [reflexivity | apply all_space_nil].
  - cbn [rstrip]. destruct (is_space c && is_empty (rstrip s)) eqn:Hc.
    + apply andb_true_iff in Hc as [Hc He].
      destruct (rstrip s); [|discriminate He].
      exists (String c post). split; [simpl in *; congruence | now apply all_space_cons].
    + exists post. split; [simpl; congruence | assumption].
Qed.

Lemma strip_split (s : string) :
  exists pre post, s = pre ++ strip s ++ post /\ all_space pre /\ all_space post.
Proof.
  destruct (rstrip_split s) as (post & H1 & Hpost).
  destruct (lstrip_split (rstrip s)) as (pre & H2 & Hpre).
  exists pre, post. unfold strip. repeat split; try assumption.
  rewrite <- append_assoc, <- H2. exact H1.
Qed.

Lemma lstrip_first (s : string) (c : ascii) :
  first_char (lstrip s) = Some c -> is_space c = false.
Proof.
  induction s as [|x s IH]; [discriminate|].
  cbn [lstrip]. destruct (is_space x) eqn:Hx; [exact IH|].
  intros H. injection H as <-. exact Hx.
Qed.

Lemma rstrip_last (s : string) (c : ascii) :
  last_char (rstrip s) = Some c -> is_space c = false.
Proof.
  induction s as [|x s IH]; [discriminate|].
  cbn [rstrip]. destruct (is_space x && is_empty (rstrip s)) eqn:Hx; [discriminate|].
  destruct (rstrip s) as [|y r] eqn:Hr.
  - cbn. intros H. injection H as <-.
    rewrite andb_true_r in Hx. exact Hx.
  - exact IH.
Qed.

Lemma lstrip_last (s : string) (c : ascii) :
  last_char (lstrip s) = Some c -> last_char s = Some c.
Proof.
  induction s as [|x s IH]; [discriminate|].
  cbn [lstrip]. destruct (is_space x); [|auto].
  intros H. specialize (IH H). cbn [last_char].
  destruct s; [discriminate IH | exact IH].
Qed.

Lemma split_newline_nonempty (s : string) : split_newline s <> [].
Proof.
  induction s as [|c s IH]; [discriminate|].
  cbn [split_newline]. destruct (Ascii.eqb c newline); [discriminate|].
  destruct (split_newline s); discriminate.
Qed.

Lemma join_cons (sep x : string) (rest : list string) :
  rest <> [] -> join sep (x :: rest) = x ++ sep ++ join sep rest.
Proof. destruct rest; [contradiction | reflexivity]. Qed.

Lemma join_split_newline (s : string) :
  join (String newline EmptyString) (split_newline s) = s.
Proof.
  induction s as [|c s IH]; [reflexivity|].
  cbn [split_newline].
  destruct (Ascii.eqb_spec c newline) as [->|Hc].
  - rewrite join_cons by apply split_newline_nonempty.
    now rewrite IH.
  - destruct (split_newline s) as [|l ls] eqn:Hs;
      [now apply split_newline_nonempty in Hs|].
    destruct ls as [|l' ls].
    + cbn in IH |- *. congruence.
    + rewrite join_cons in IH |- * by discriminate.
      rewrite <- IH. reflexivity.
Qed.

Lemma split_newline_lines (s : string) :
  Forall (fun l => mem_char newline l = false) (split_newline s).
Proof.
  induction s as [|c s IH]; [repeat constructor|].
  cbn [split_newline].
  destruct (Ascii.eqb_spec c newline) as [->|Hc].
  - constructor; [reflexivity | exact IH].
  - destruct (split_newline s) as [|l ls]; [repeat constructor|].
    + cbn [mem_char]. destruct (Ascii.eqb_spec c newline); [contradiction | reflexivity].
    + inversion IH as [|? ? Hl Hls]; subst.
      constructor; [|exact Hls].
      cbn [mem_char]. destruct (Ascii.eqb_spec c newline); [contradiction | exact Hl].
Qed.

Lemma lines_html_nth (lines : list string) :
  forall (mss : list (list Match)) (i k : nat) (l : string) (ms : list Match),
    nth_error lines k = Some l ->
    nth_error mss k = Some ms ->
    exists before after,
      lines_html i lines mss = before ++ line_html (i + k) l ms ++ after.
Proof.
  induction lines as [|line rest IH]; intros mss i k l ms Hl Hms.
  - destruct k; discriminate.
  - destruct mss as [|ms0 mss]; [destruct k; discriminate|].
    destruct k as [|k]; cbn in Hl, Hms.
    + injection Hl as <-. injection Hms as <-.
      exists EmptyString, (lines_html (S i) rest mss).
      rewrite Nat.add_0_r. reflexivity.
    + destruct (IH mss (S i) k l ms Hl Hms) as (b & a & Heq).
      exists (line_html i line ms0 ++ b), a.
      cbn [lines_html]. rewrite Heq, append_assoc.
      replace (S i + k) with (i + S k) by lia. reflexivity.
Qed.

(** ** Escaping once *)

Lemma escape_clean (s : string) : has_special s = false -> escape s = s.
Proof.
  induction s as [|c s IH]; [reflexivity|].
  cbn [has_special]. intros H. apply orb_false_iff in H as [Hc Hs].
  rewrite escape_cons, IH by assumption.
  destruct (escape_char_cases c) as [(Hc' & _)|(_ & ->)]; [congruence | reflexivity].
Qed.

Lemma length_escape_char (c : ascii) :
  (is_special c = true -> 4 <= String.length (escape_char c))
  /\ (is_special c = false -> String.length (escape_char c) = 1).
Proof.
  unfold is_special, escape_char.
  destruct (Ascii.eqb c "&"); [split; [simpl; lia | discriminate] |].
  destruct (Ascii.eqb c "<"); [split; [simpl; lia | discriminate] |].
  destruct (Ascii.eqb c ">"); [split; [simpl; lia | discriminate] |].
  destruct (Ascii.eqb c "034"); [split; [simpl; lia | discriminate] |].
  destruct (Ascii.eqb c "039"); [split; [simpl; lia | discriminate] |].
  split; [discriminate | reflexivity].
Qed.

Lemma length_escape (s : string) :
  String.length s <= String.length (escape s)
  /\ (has_special s = true -> String.length s < String.length (escape s)).
Proof.
  induction s as [|c s [IH1 IH2]]; [split; [auto | discriminate]|].
  rewrite escape_cons, length_append. cbn [String.length has_special].
  destruct (length_escape_char c) as [Hs Hn].
  destruct (is_special c) eqn:Hc.
  - specialize (Hs eq_refl). split; [lia | intros _; lia].
  - specialize (Hn eq_refl). split; [lia|].
    cbn [orb]. intros H. specialize (IH2 H). lia.
Qed.

Lemma escape_fixed_iff (s : string) : escape s = s <-> has_special s = false.
Proof.
  split; [|apply escape_clean].
  intros H. destruct (has_special s) eqn:Hs; [|reflexivity].
  destruct (length_escape s) as [_ Hlt]. specialize (Hlt Hs).
  rewrite H in Hlt. lia.
Qed.

Lemma has_special_escape (s : string) : has_special (escape s) = has_special s.
Proof.
  induction s as [|c s IH]; [reflexivity|].
  rewrite escape_cons, has_special_append, IH. cbn [has_special].
  f_equal.
  destruct (escape_char_cases c) as [(Hc & t & -> & _)|(Hc & ->)].
  - now rewrite Hc.
  - cbn [has_special]. now rewrite orb_false_r.
Qed.

Lemma escape_twice_iff (s : string) :
  escape (escape s) = escape s <-> has_special s = false.
Proof. now rewrite escape_fixed_iff, has_special_escape. Qed.

Lemma unescape_plain_char (c : ascii) (r : string) :
  c <> "&"%char -> unescape (String c r) = String c (unescape r).
Proof.
  intros H. unfold unescape. cbn [unescape_from].
  rewrite !starts_with_head_neq by congruence. reflexivity.
Qed.

Lemma unescape_escape_char (c : ascii) (r : string) :
  unescape (escape_char c ++ r) = String c (unescape r).
Proof.
  unfold escape_char.
  destruct (Ascii.eqb_spec c "&") as [->|H1]; [vm_compute; reflexivity|].
  destruct (Ascii.eqb_spec c "<") as [->|H2]; [vm_compute; reflexivity|].
  destruct (Ascii.eqb_spec c ">") as [->|H3]; [vm_compute; reflexivity|].
  destruct (Ascii.eqb_spec c "034") as [->|H4]; [vm_compute; reflexivity|].
  destruct (Ascii.eqb_spec c "039") as [->|H5]; [vm_compute; reflexivity|].
  now apply unescape_plain_char.
Qed.

Lemma unescape_escape (s : string) : unescape (escape s) = s.
Proof.
  induction s as [|c s IH]; [reflexivity|].
  rewrite escape_cons, unescape_escape_char. now rewrite IH.
Qed.

Lemma escape_injective (a b : string) : escape a = escape b -> a = b.
Proof.
  intros H. rewrite <- (unescape_escape a), <- (unescape_escape b). now rewrite H.
Qed.

(** ** The group lists *)


(** The text between the quotes of an item ends at the first double quote,
    since escaped text holds none. *)
Lemma split_at_quote (a b r1 r2 : string) :
  mem_char "034" a = false ->
  mem_char "034" b = false ->
  a ++ dq ++ r1 = b ++ dq ++ r2 ->
  a = b /\ r1 = r2.
Proof.
  revert b. induction a as [|x a IH]; intros [|y b] Ha Hb H.
  - injection H as ->. auto.
  - injection H as <- _. discriminate Hb.
  - injection H as -> _. discriminate Ha.
  - cbn [mem_char] in Ha, Hb.
    apply orb_false_iff in Ha as [_ Ha]. apply orb_false_iff in Hb as [_ Hb].
    injection H as -> H.
    destruct (IH b Ha Hb H) as [-> ->]. auto.
Qed.

Lemma escape_no_quote (s : string) : mem_char "034" (escape s) = false.
Proof. apply escape_no_markup; [reflexivity | discriminate]. Qed.

Lemma group_item_displayed (j : nat) (g : option string) :
  group_item j g = str_of_nat j ++ ": " ++ dq ++ escape (displayed g) ++ dq.
Proof. destruct g; reflexivity. Qed.

Lemma named_item_displayed (name : string) (g : option string) :
  named_item (name, g) = name ++ ": " ++ dq ++ escape (displayed g) ++ dq.
Proof. destruct g; reflexivity. Qed.

(** Two group lists of one length render alike only if they show the same
    values, whatever text follows the lists. *)
Lemma group_items_join_inj (gs1 : list (option string)) :
  forall (gs2 : list (option string)) (j : nat) (t1 t2 : string),
    List.length gs1 = List.length gs2 ->
    join ", " (group_items j gs1) ++ t1 = join ", " (group_items j gs2) ++ t2 ->
    map displayed gs1 = map displayed gs2 /\ t1 = t2.
Proof.
  induction gs1 as [|g1 gs1 IH]; intros [|g2 gs2] j t1 t2 Hlen H;
    try discriminate Hlen.
  - auto.
  - injection Hlen as Hlen.
    cbn [group_items] in H. rewrite !group_item_displayed in H.
    destruct gs1 as [|g1' gs1]; destruct gs2 as [|g2' gs2]; try discriminate Hlen.
    + cbn [group_items join] in H. rewrite !append_assoc in H.
      do 3 apply append_inv_head in H.
      apply split_at_quote in H as [He ->]; try apply escape_no_quote.
      apply escape_injective in He. cbn [map]. now rewrite He.
    + rewrite !join_cons in H by discriminate.
      rewrite !append_assoc in H.
      do 3 apply append_inv_head in H.
      apply split_at_quote in H as [He H]; try apply escape_no_quote.
      apply escape_injective in He.
      apply append_inv_head in H.
      apply (IH (g2' :: gs2) (S j) t1 t2 Hlen) in H as [Hm ->].
      cbn [map] in *. now rewrite He, Hm.
Qed.

Lemma groups_html_inj (gs1 gs2 : list (option string)) (t1 t2 : string) :
  List.length gs1 = List.length gs2 ->
  groups_html gs1 ++ t1 = groups_html gs2 ++ t2 ->
  map displayed gs1 = map displayed gs2 /\ t1 = t2.
Proof.
  intros Hlen H.
  destruct gs1 as [|g1 gs1]; destruct gs2 as [|g2 gs2]; try discriminate Hlen.
  - auto.
  - unfold groups_html in H. rewrite !append_assoc in H.
    apply append_inv_head in H.
    now apply group_items_join_inj in H.
Qed.

Lemma named_items_join_inj (d1 : list (string * option string)) :
  forall (d2 : list (string * option string)) (t1 t2 : string),
    map fst d1 = map fst d2 ->
    join ", " (map named_item d1) ++ t1 = join ", " (map named_item d2) ++ t2 ->
    map (fun e => displayed (snd e)) d1 = map (fun e => displayed (snd e)) d2
    /\ t1 = t2.
Proof.
  induction d1 as [|[n1 g1] d1 IH]; intros [|[n2 g2] d2] t1 t2 Hn H;
    try discriminate Hn.
  - auto.
  - cbn [map fst] in Hn. injection Hn as -> Hn.
    cbn [map] in H. rewrite !named_item_displayed in H.
    destruct d1 as [|e1 d1]; destruct d2 as [|e2 d2]; try discriminate Hn.
    + cbn [map join] in H. rewrite !append_assoc in H.
      do 3 apply append_inv_head in H.
      apply split_at_quote in H as [He ->]; try apply escape_no_quote.
      apply escape_injective in He. cbn [map snd]. now rewrite He.
    + rewrite (join_cons ", " _ (map named_item (e1 :: d1))),
        (join_cons ", " _ (map named_item (e2 :: d2))) in H by discriminate.
      rewrite !append_assoc in H.
      do 3 apply append_inv_head in H.
      apply split_at_quote in H as [He H]; try apply escape_no_quote.
      apply escape_injective in He.
      apply append_inv_head in H.
      apply (IH (e2 :: d2) t1 t2 Hn) in H as [Hm ->].
      cbn [map snd] in *. now rewrite He, Hm.
Qed.

Lemma named_html_inj (d1 d2 : list (string * option string)) (t1 t2 : string) :
  map fst d1 = map fst d2 ->
  named_html d1 ++ t1 = named_html d2 ++ t2 ->
  map (fun e => displayed (snd e)) d1 = map (fun e => displayed (snd e)) d2
  /\ t1 = t2.
Proof.
  intros Hn H.
  destruct d1 as [|e1 d1]; destruct d2 as [|e2 d2]; try discriminate Hn.
  - auto.
  - unfold named_html in H. rewrite !append_assoc in H.
    apply append_inv_head in H.
    now apply named_items_join_inj in H.
Qed.



Lemma map_nth_error_eq {A B : Type} (f : A -> B) (l1 l2 : list A) (i : nat) (x y : A) :
  map f l1 = map f l2 ->
  nth_error l1 i = Some x -> nth_error l2 i = Some y -> f x = f y.
Proof.
  intros Hm H1 H2.
  apply (map_nth_error f) in H1. apply (map_nth_error f) in H2.
  rewrite Hm in H1. congruence.
Qed.

(** ** The find-all block *)

Lemma findall_shape (E : Engine) (p : Pattern) (text : string)
    (items : list FindallItem) :
  findall p text = inr items ->
  exists ms, finditer p text = inr ms
             /\ items = map (findall_item (pattern_groups p) text) ms.
Proof.
  unfold findall. destruct (finditer p text) as [e|ms]; [discriminate|].
  intros H. injection H as <-. now exists ms.
Qed.

Lemma take_all (s : string) (n : nat) : String.length s <= n -> take n s = s.
Proof.
  unfold take. revert n.
  induction s as [|c s IH]; intros [|n] H; simpl in *; try reflexivity; try lia.
  rewrite IH by lia. reflexivity.
Qed.

(** ** The report always opens with markup *)

Section ReportFacts.
Context {E : Engine}.

Lemma scan_all_length (p : Pattern) :
  forall (lines : list string) (mss : list (list Match)),
    scan_all p lines = inr mss -> List.length mss = List.length lines.
Proof.
  induction lines as [|line rest IH]; intros mss H; cbn [scan_all] in H.
  - now injection H as <-.
  - destruct (finditer p line); [discriminate|].
    destruct (scan_all p rest) as [|mss'] eqn:Hr; [discriminate|].
    injection H as <-. cbn. f_equal. now apply IH.
Qed.

Lemma results_html_head (pattern test_input : string) :
  exists t, results_html pattern test_input = String "<" t.
Proof.
  rewrite results_html_eq.
  destruct (re_compile pattern) as [e|p]; [destruct e; eexists; reflexivity|].
  destruct (scan_all p (test_lines test_input)) as [e|mss] eqn:Hall;
    [destruct e; eexists; reflexivity|].
  destruct (findall p test_input) as [e|all_matches];
    [destruct e; eexists; reflexivity|].
  apply scan_all_length in Hall.
  unfold test_lines in *.
  destruct (split_newline (strip test_input)) as [|l ls] eqn:Hs;
    [now apply split_newline_nonempty in Hs|].
  destruct mss as [|ms mss]; [discriminate Hall|].
  cbn [lines_html]. destruct ms; eexists; reflexivity.
Qed.

(** What the [try] block had accumulated when the scan of a line raised. *)
Lemma scan_lines_partial (p : Pattern) (line : string) (rest : list string) (e : exn) :
  forall (pre : list string) (mss : list (list Match)) (i : nat) (h : string),
    scan_all p pre = inr mss ->
    finditer p line = inl e ->
    scan_lines p i (pre ++ line :: rest) h = (inl e, h ++ lines_html i pre mss).
Proof.
  induction pre as [|l pre IH]; intros mss i h Hpre Hline.
  - injection Hpre as <-. cbn [List.app scan_lines lines_html].
    unfold bind, call. rewrite Hline. now rewrite append_nil_r.
  - cbn [scan_all] in Hpre.
    destruct (finditer p l) as [|ms] eqn:Hl; [discriminate|].
    destruct (scan_all p pre) as [|mss'] eqn:Hr; [discriminate|].
    injection Hpre as <-.
    cbn [List.app scan_lines lines_html]. unfold bind, call, emit. rewrite Hl.
    change (scan_lines p (S i) (pre ++ line :: rest) (h ++ line_html i l ms)
            = (inl e, h ++ line_html i l ms ++ lines_html (S i) pre mss')).
    rewrite (IH mss' (S i) _ eq_refl Hline). now rewrite append_assoc.
Qed.

End ReportFacts.

(** * The claims *)

(** ** C1 *)

(** C1, counterexample.  The pattern [a{99999999999}] fails to compile
    with [OverflowError], not [re.error]; the handler for [Exception]
    catches it, and the report is the [Error:] block (an execution error),
    not the [Regex Error:] block (a pattern syntax error). *)
Lemma compile_overflow_reported_as_execution_error :
  re_compile (Engine := MiniRe.engine) (strip "a{99999999999}")
  = inl (OtherException "the repetition number is too large")
  /\ test_pattern (E := MiniRe.engine) "a{99999999999}" "aaa"
     = ("a{99999999999}", "aaa", error_html "the repetition number is too large")
  /\ snd (test_pattern (E := MiniRe.engine) "a{99999999999}" "aaa")
     <> regex_error_html "the repetition number is too large".
Proof.
  split; [vm_compute; reflexivity|].
  split; [vm_compute; reflexivity|].
  intros H. vm_compute in H. discriminate H.
Qed.

(** C1, amended.  [test_pattern] returns a value for every pattern and
    text.  When a call of the [try] block raises, the report is exactly one
    error block, chosen by the class of the exception: [re.error] gives the
    [Regex Error:] block and any other exception gives the [Error:] block,
    a failed compilation included.  The error block holds no line block and
    no find-all block: what the lines scanned before the failure had added
    to [results_html] is discarded.  When no call raises, the report is the
    line blocks followed by the find-all block. *)
Theorem error_block_by_exception_class (E : Engine)
    (pattern_text test_input : string) :
  (forall msg,
      first_exception (strip pattern_text) test_input = Some (ReError msg) ->
      snd (test_pattern pattern_text test_input) = regex_error_html msg)
  /\ (forall msg,
      first_exception (strip pattern_text) test_input = Some (OtherException msg) ->
      snd (test_pattern pattern_text test_input) = error_html msg)
  /\ (forall e,
      re_compile (strip pattern_text) = inl e ->
      first_exception (strip pattern_text) test_input = Some e)
  /\ (forall e,
      first_exception (strip pattern_text) test_input = Some e ->
      contains line_marker (snd (test_pattern pattern_text test_input)) = false
      /\ contains findall_marker (snd (test_pattern pattern_text test_input)) = false)
  /\ (forall i line matches, contains line_marker (line_html i line matches) = true)
  /\ (forall x xs, contains findall_marker (findall_html (x :: xs)) = true)
  /\ (forall p pre line rest mss e,
      re_compile (strip pattern_text) = inr p ->
      test_lines test_input = (pre ++ line :: rest)%list ->
      scan_all p pre = inr mss ->
      finditer p line = inl e ->
      try_body (strip pattern_text) test_input EmptyString
      = (inl e, lines_html 1 pre mss)
      /\ snd (test_pattern pattern_text test_input) = handler e)
  /\ (first_exception (strip pattern_text) test_input = None ->
      exists p mss all_matches,
        re_compile (strip pattern_text) = inr p
        /\ scan_all p (test_lines test_input) = inr mss
        /\ findall p test_input = inr all_matches
        /\ snd (test_pattern pattern_text test_input)
           = lines_html 1 (test_lines test_input) mss ++ findall_html all_matches).
Proof.
  cbn [test_pattern snd].
  repeat match goal with |- _ /\ _ => split end.
  - intros msg H. now rewrite (results_html_first_exception _ _ _ H).
  - intros msg H. now rewrite (results_html_first_exception _ _ _ H).
  - intros e H. unfold first_exception. now rewrite H.
  - intros e H. rewrite (results_html_first_exception _ _ _ H).
    apply handler_no_blocks.
  - exact line_html_marker.
  - exact findall_html_marker.
  - intros p pre line rest mss e Hc Hlines Hpre Hline.
    assert (Hbody : try_body (strip pattern_text) test_input EmptyString
                    = (inl e, lines_html 1 pre mss)).
    { unfold try_body, bind, call. rewrite Hc, Hlines.
      now rewrite (scan_lines_partial p line rest e pre mss 1 EmptyString Hpre Hline). }
    split; [exact Hbody|].
    unfold results_html. now rewrite Hbody.
  - intros H. unfold first_exception in H. rewrite results_html_eq.
    destruct (re_compile (strip pattern_text)) as [e|p]; [discriminate|].
    destruct (scan_all p (test_lines test_input)) as [e|mss] eqn:Hs; [discriminate|].
    destruct (findall p test_input) as [e|all_matches] eqn:Hf; [discriminate|].
    now exists p, mss, all_matches.
Qed.

Lemma error_block_by_exception_class_witness :
  (first_exception (E := MiniRe.engine) (strip "(") "abc"
   = Some (ReError "missing ), unterminated subpattern at position 0")
   /\ snd (test_pattern (E := MiniRe.engine) "(" "abc")
      = regex_error_html "missing ), unterminated subpattern at position 0")
  /\ (try_body (E := LimitedRe.engine 3) (strip "b")
        ("ab" ++ String newline "abcd") EmptyString
      = (inl (OtherException "out of memory"),
         lines_html 1 ["ab"] [[mkMatch 1 2 [] []]])
      /\ snd (test_pattern (E := LimitedRe.engine 3) "b" ("ab" ++ String newline "abcd"))
         = handler (OtherException "out of memory")).
Proof.
  split.
  - split; [vm_compute; reflexivity|].
    apply (proj1 (error_block_by_exception_class MiniRe.engine "(" "abc")).
    vm_compute; reflexivity.
  - apply (proj1 (proj2 (proj2 (proj2 (proj2 (proj2 (proj2
             (error_block_by_exception_class (LimitedRe.engine 3) "b"
                ("ab" ++ String newline "abcd"))))))))
             (MiniRe.mkPattern (MiniRe.Seq (MiniRe.Chr "b") MiniRe.Eps) 0 [])
             ["ab"] "abcd" [] [[mkMatch 1 2 [] []]] (OtherException "out of memory"));
      vm_compute; reflexivity.
Defined.

(** ** C2 *)

(** C2.  For every line and every sequence of match spans in left-to-right,
    non-overlapping order (each span ends at or before the start of every
    later one), the highlighted line with its highlight markers removed is
    the HTML-escaped line. *)
Theorem highlight_covers_line (line : string) (matches : list Match) :
  ordered_spans (map span matches) ->
  remove_markers (highlight line matches) = escape line.
Proof.
  intros [Hspans Hord].
  rewrite highlight_eq.
  rewrite remove_markers_highlight_from.
  - now rewrite slice_from_0.
  - exact Hspans.
  - exact Hord.
  - apply Forall_forall. intros m _. apply Nat.le_0_l.
Qed.

Lemma highlight_covers_line_witness :
  ordered_spans (map span [mkMatch 1 3 [] []; mkMatch 3 3 [] []; mkMatch 4 6 [] []])
  /\ remove_markers
       (highlight "a<b>&c d" [mkMatch 1 3 [] []; mkMatch 3 3 [] []; mkMatch 4 6 [] []])
     = "a&lt;b&gt;&amp;c d".
Proof.
  assert (H : ordered_spans
                (map span [mkMatch 1 3 [] []; mkMatch 3 3 [] []; mkMatch 4 6 [] []])).
  { split; repeat constructor; cbn; lia. }
  split; [exact H|].
  exact (highlight_covers_line "a<b>&c d" _ H).
Defined.

(** ** C3 *)

(** C3.  For every compiled pattern and every line, the matches [finditer]
    yields are in left-to-right, non-overlapping order: each match starts
    at or after the end of every earlier one, the starts are sorted, and
    every span lies inside the line.  The list is the whole result of the
    scan: more fuel gives the same list.  The scanner step of the engine
    is assumed to keep its contract [search_ok]. *)
Theorem finditer_spans_in_order (E : Engine) (p : Pattern) (line : string)
    (matches : list Match) :
  search_ok E ->
  finditer p line = inr matches ->
  ordered_spans (map span matches)
  /\ (forall i j mi mj,
        i < j -> nth_error matches i = Some mi -> nth_error matches j = Some mj ->
        m_end mi <= m_start mj)
  /\ StronglySorted le (map m_start matches)
  /\ Forall (fun m => m_end m <= String.length line) matches
  /\ (forall fuel, scan_budget line 0 false <= fuel ->
                   scanner fuel p line 0 false = inr matches).
Proof.
  intros Hok Hfi.
  destruct (scanner_spans Hok p line _ 0 false _ (Nat.le_0_l _) Hfi) as [Hord Hall].
  split; [exact Hord|].
  split; [now apply ordered_spans_pairwise|].
  split; [now apply ordered_spans_sorted_starts|].
  split.
  - eapply Forall_impl; [|exact Hall]. intros m [_ H]. exact H.
  - intros fuel Hfuel. rewrite <- Hfi. unfold finditer.
    apply (scanner_fuel Hok); [lia | exact Hfuel | lia].
Qed.

Lemma finditer_spans_in_order_witness :
  ordered_spans [(0, 0); (0, 1); (1, 1)]
  /\ (forall i j mi mj,
        i < j ->
        nth_error [mkMatch 0 0 [] []; mkMatch 0 1 [] []; mkMatch 1 1 [] []] i = Some mi ->
        nth_error [mkMatch 0 0 [] []; mkMatch 0 1 [] []; mkMatch 1 1 [] []] j = Some mj ->
        m_end mi <= m_start mj)
  /\ StronglySorted le [0; 0; 1]
  /\ Forall (fun m => m_end m <= 1)
       [mkMatch 0 0 [] []; mkMatch 0 1 [] []; mkMatch 1 1 [] []]
  /\ (forall fuel, 4 <= fuel ->
        scanner (E := MiniRe.engine) fuel
          (MiniRe.mkPattern (MiniRe.Alt MiniRe.Eps (MiniRe.Chr "b")) 0 []) "b" 0 false
        = inr [mkMatch 0 0 [] []; mkMatch 0 1 [] []; mkMatch 1 1 [] []]).
Proof.
  apply (finditer_spans_in_order MiniRe.engine
           (MiniRe.mkPattern (MiniRe.Alt MiniRe.Eps (MiniRe.Chr "b")) 0 []) "b"
           [mkMatch 0 0 [] []; mkMatch 0 1 [] []; mkMatch 1 1 [] []]).
  - exact MiniRe_search_ok.
  - vm_compute; reflexivity.
Defined.

(** ** C4 *)

(** C4, counterexample.  On the text [" a"] the source scans the line
    ["a"]: [strip] removed the leading space, which a trim of trailing
    whitespace alone keeps. *)
Lemma leading_whitespace_is_trimmed :
  test_lines " a" = ["a"]
  /\ lines_trailing_trim_only " a" = [" a"]
  /\ test_lines " a" <> lines_trailing_trim_only " a".
Proof. repeat split. discriminate. Qed.

(** C4, amended.  The lines scanned are obtained by trimming both leading
    and trailing whitespace from the whole text and then splitting on
    newline characters: the text is whitespace, then the stripped text,
    then whitespace; the stripped text neither starts nor ends with
    whitespace; joining the lines with newlines gives back the stripped
    text and no line holds a newline, so internal blank lines are kept.
    These are the lines [test_pattern] scans: whenever the pattern compiles
    and no call raises, the report it returns is made of one block per
    line of the stripped and split text, in order, each for the matches
    [finditer] finds in that very line, followed by the find-all block; and
    the block of the line at position [k], counted from 0, carries the
    number [k + 1]. *)
Theorem test_lines_strip_both_ends (E : Engine) (pattern_text test_input : string) :
  test_lines test_input = split_newline (lstrip (rstrip test_input))
  /\ (exists pre post,
        test_input = pre ++ strip test_input ++ post
        /\ all_space pre /\ all_space post)
  /\ (forall c, first_char (strip test_input) = Some c -> is_space c = false)
  /\ (forall c, last_char (strip test_input) = Some c -> is_space c = false)
  /\ join (String newline EmptyString) (test_lines test_input) = strip test_input
  /\ Forall (fun l => mem_char newline l = false) (test_lines test_input)
  /\ (forall mss k l ms,
        nth_error (test_lines test_input) k = Some l ->
        nth_error mss k = Some ms ->
        exists before after,
          lines_html 1 (test_lines test_input) mss
          = before ++ line_html (S k) l ms ++ after)
  /\ (forall p mss all_matches,
        re_compile (strip pattern_text) = inr p ->
        Forall2 (fun l ms => finditer p l = inr ms)
          (split_newline (strip test_input)) mss ->
        findall p test_input = inr all_matches ->
        try_body (strip pattern_text) test_input EmptyString
        = (inr tt,
           lines_html 1 (split_newline (strip test_input)) mss
           ++ findall_html all_matches)
        /\ snd (test_pattern pattern_text test_input)
           = lines_html 1 (split_newline (strip test_input)) mss
             ++ findall_html all_matches
        /\ forall k l,
             nth_error (split_newline (strip test_input)) k = Some l ->
             exists ms before after,
               finditer p l = inr ms
               /\ nth_error mss k = Some ms
               /\ snd (test_pattern pattern_text test_input)
                  = before ++ line_html (S k) l ms ++ after)
  /\ (forall p,
        re_compile (strip pattern_text) = inr p ->
        first_exception (strip pattern_text) test_input = None ->
        exists mss all_matches,
          Forall2 (fun l ms => finditer p l = inr ms)
            (split_newline (strip test_input)) mss
          /\ findall p test_input = inr all_matches).
Proof.
  split; [reflexivity|].
  split; [apply strip_split|].
  split; [intros c; apply lstrip_first|].
  split; [intros c H; apply lstrip_last in H; now apply rstrip_last in H|].
  split; [apply join_split_newline|].
  split; [apply split_newline_lines|].
  split; [intros mss k l ms Hl Hms; exact (lines_html_nth _ mss 1 k l ms Hl Hms)|].
  split.
  - intros p mss all_matches Hc Hscan Hall.
    pose proof (proj2 (scan_all_forall2 p _ mss) Hscan) as Hs.
    assert (Hbody : try_body (strip pattern_text) test_input EmptyString
                    = (inr tt,
                       lines_html 1 (split_newline (strip test_input)) mss
                       ++ findall_html all_matches)).
    { unfold try_body, bind, call, emit, test_lines. rewrite Hc.
      rewrite (scan_lines_ok p _ mss 1 EmptyString Hs), Hall. reflexivity. }
    assert (Hreport : snd (test_pattern pattern_text test_input)
                      = lines_html 1 (split_newline (strip test_input)) mss
                        ++ findall_html all_matches).
    { cbn [test_pattern snd]. unfold results_html. now rewrite Hbody. }
    split; [exact Hbody|]. split; [exact Hreport|].
    intros k l Hl.
    destruct (nth_error mss k) as [ms|] eqn:Hms.
    + exists ms.
      destruct (lines_html_nth _ mss 1 k l ms Hl Hms) as (before & after & Heq).
      exists before, (after ++ findall_html all_matches).
      split; [|split; [reflexivity|]].
      * clear - Hscan Hl Hms. revert k Hl Hms.
        induction Hscan as [|l' ms' ls mss' Hfirst Hrest IH]; intros k Hl Hms.
        -- destruct k; discriminate Hl.
        -- destruct k as [|k]; cbn in Hl, Hms.
           ++ injection Hl as <-. injection Hms as <-. exact Hfirst.
           ++ now apply (IH k).
      * rewrite Hreport, Heq. cbn [Nat.add]. now rewrite !append_assoc.
    + exfalso. apply nth_error_None in Hms.
      apply Forall2_length in Hscan.
      assert (Hlt : k < List.length (split_newline (strip test_input)))
        by (apply nth_error_Some; congruence).
      lia.
  - intros p Hc Hnone. unfold first_exception in Hnone. rewrite Hc in Hnone.
    unfold test_lines in Hnone.
    destruct (scan_all p (split_newline (strip test_input))) as [|mss] eqn:Hs;
      [discriminate|].
    destruct (findall p test_input) as [|all_matches]; [discriminate|].
    exists mss, all_matches. split; [now apply scan_all_forall2 | reflexivity].
Qed.

Lemma test_lines_strip_both_ends_witness :
  test_lines (" a" ++ String newline (String newline " b "))
  = ["a"; EmptyString; " b"]
  /\ exists ms before after,
       finditer (E := MiniRe.engine)
         (MiniRe.mkPattern (MiniRe.Seq (MiniRe.Chr "b") MiniRe.Eps) 0 []) EmptyString
       = inr ms
       /\ nth_error [[]; []; [mkMatch 1 2 [] []]] 1 = Some ms
       /\ snd (test_pattern (E := MiniRe.engine) " b "
                 (" a" ++ String newline (String newline " b ")))
          = before ++ line_html 2 EmptyString ms ++ after.
Proof.
  split; [reflexivity|].
  apply (proj2 (proj2 (proj1 (proj2 (proj2 (proj2 (proj2 (proj2 (proj2 (proj2
           (test_lines_strip_both_ends MiniRe.engine " b "
              (" a" ++ String newline (String newline " b "))))))))))
           (MiniRe.mkPattern (MiniRe.Seq (MiniRe.Chr "b") MiniRe.Eps) 0 [])
           [[]; []; [mkMatch 1 2 [] []]] [FStr "b"]
           ltac:(vm_compute; reflexivity)
           ltac:(repeat constructor)
           ltac:(vm_compute; reflexivity))) 1 EmptyString).
  reflexivity.
Defined.

(** ** C5 *)

(** C5, counterexample.  With the pattern [( )] and the text ["a "], the
    only line scanned is ["a"] and has no match, yet the find-all block
    reports one match: [findall] ran over the raw text with its trailing
    space.  Over the trimmed text it finds nothing, and the block would
    have been omitted. *)
Lemma findall_scans_untrimmed_text :
  exists p,
    re_compile (Engine := MiniRe.engine) (strip "( )") = inr p
    /\ test_lines "a " = ["a"]
    /\ findall p "a " = inr [FStr " "]
    /\ findall p (strip "a ") = inr []
    /\ snd (test_pattern (E := MiniRe.engine) "( )" "a ")
       = line_html 1 "a" [] ++ findall_html [FStr " "]
    /\ snd (test_pattern (E := MiniRe.engine) "( )" "a ")
       <> line_html 1 "a" [] ++ findall_html [].
Proof.
  eexists. split; [vm_compute; reflexivity|].
  split; [reflexivity|].
  split; [vm_compute; reflexivity|].
  split; [vm_compute; reflexivity|].
  split; [vm_compute; reflexivity|].
  intros H. vm_compute in H. discriminate H.
Qed.

(** C5, amended.  The find-all block is computed by a single [findall] pass
    over the raw test text, not over the trimmed text whose lines were
    scanned; the count it shows is the number of results of that pass; and
    when there is no result the block is omitted. *)
Theorem findall_block_over_raw_text (E : Engine)
    (pattern_text test_input : string) (p : Pattern)
    (mss : list (list Match)) (all_matches : list FindallItem) :
  re_compile (strip pattern_text) = inr p ->
  scan_all p (test_lines test_input) = inr mss ->
  findall p test_input = inr all_matches ->
  snd (test_pattern pattern_text test_input)
  = lines_html 1 (test_lines test_input) mss ++ findall_html all_matches
  /\ (all_matches = [] ->
      snd (test_pattern pattern_text test_input)
      = lines_html 1 (test_lines test_input) mss)
  /\ (all_matches <> [] ->
      exists rest,
        findall_html all_matches
        = findall_marker ++ "<strong>All matches found:</strong> "
          ++ str_of_nat (List.length all_matches) ++ "<br>" ++ rest).
Proof.
  intros Hc Hs Hf. cbn [test_pattern snd].
  rewrite results_html_eq, Hc, Hs, Hf.
  split; [reflexivity|].
  split.
  - intros ->. cbn [findall_html]. now rewrite append_nil_r.
  - intros Hne. destruct all_matches as [|x xs]; [contradiction|].
    eexists. unfold findall_html, findall_marker.
    rewrite !append_assoc. reflexivity.
Qed.

Lemma findall_block_over_raw_text_witness :
  snd (test_pattern (E := MiniRe.engine) "( )" "a ")
  = lines_html 1 (test_lines "a ") [[]] ++ findall_html [FStr " "]
  /\ ([FStr " "] = [] ->
      snd (test_pattern (E := MiniRe.engine) "( )" "a ")
      = lines_html 1 (test_lines "a ") [[]])
  /\ ([FStr " "] <> [] ->
      exists rest,
        findall_html [FStr " "]
        = findall_marker ++ "<strong>All matches found:</strong> "
          ++ str_of_nat (List.length [FStr " "]) ++ "<br>" ++ rest).
Proof.
  apply (findall_block_over_raw_text MiniRe.engine "( )" "a "
           (MiniRe.mkPattern
              (MiniRe.Seq (MiniRe.Grp 1 (MiniRe.Seq (MiniRe.Chr " ") MiniRe.Eps)) MiniRe.Eps)
              1 [])
           [[]] [FStr " "]);
    vm_compute; reflexivity.
Defined.

(** ** C6 *)

(** C6, counterexample.  The pattern [(a)] has exactly one capturing group,
    and the find-all result on ["a"] is the plain string ['a'], not a
    one-element tuple. *)
Lemma findall_one_group_gives_strings :
  exists p,
    re_compile (Engine := MiniRe.engine) "(a)" = inr p
    /\ pattern_groups p = 1
    /\ findall p "a" = inr [FStr "a"]
    /\ forallb is_tuple [FStr "a"] = false.
Proof.
  eexists. split; [vm_compute; reflexivity|].
  repeat split; vm_compute; reflexivity.
Qed.

(** C6, amended.  The find-all result that feeds the find-all block is made
    of one item per match of the scan of the whole text, and has two
    shapes: a sequence of plain strings when the pattern has no capturing
    group (the matched substrings) or exactly one (the value of that group,
    the empty string if it did not participate), and a sequence of tuples
    of group values when the pattern has two or more capturing groups. *)
Theorem findall_result_shapes (E : Engine) (p : Pattern) (text : string)
    (items : list FindallItem) :
  findall p text = inr items ->
  exists matches,
    finditer p text = inr matches
    /\ List.length items = List.length matches
    /\ (pattern_groups p = 0 ->
        items = map (fun m => FStr (group0 text m)) matches
        /\ forallb is_str items = true)
    /\ (pattern_groups p = 1 ->
        items = map (fun m => FStr (group_or_empty (nth 0 (m_groups m) None))) matches
        /\ forallb is_str items = true)
    /\ (2 <= pattern_groups p ->
        items = map (fun m => FTuple (map group_or_empty (m_groups m))) matches
        /\ forallb is_tuple items = true).
Proof.
  intros H. apply findall_shape in H as (ms & Hfi & ->).
  exists ms. split; [exact Hfi|].
  split; [now rewrite length_map|].
  split; [|split].
  - intros ->. split; [reflexivity|].
    rewrite forallb_forall. intros x Hx.
    apply in_map_iff in Hx as (m & <- & _). reflexivity.
  - intros ->. split; [reflexivity|].
    rewrite forallb_forall. intros x Hx.
    apply in_map_iff in Hx as (m & <- & _). reflexivity.
  - intros Hn.
    destruct (pattern_groups p) as [|[|n]]; [lia | lia |].
    split; [reflexivity|].
    rewrite forallb_forall. intros x Hx.
    apply in_map_iff in Hx as (m & <- & _). reflexivity.
Qed.

Lemma findall_result_shapes_witness :
  exists matches,
    finditer (E := MiniRe.engine)
      (MiniRe.mkPattern
         (MiniRe.Seq (MiniRe.Grp 1 (MiniRe.Seq (MiniRe.Chr "a") MiniRe.Eps))
            (MiniRe.Seq (MiniRe.Opt (MiniRe.Grp 2 (MiniRe.Seq (MiniRe.Chr "b") MiniRe.Eps)))
               MiniRe.Eps))
         2 [])
      "a ab" = inr matches
    /\ List.length [FTuple ["a"; EmptyString]; FTuple ["a"; "b"]] = List.length matches.
Proof.
  destruct (findall_result_shapes MiniRe.engine
           (MiniRe.mkPattern
              (MiniRe.Seq (MiniRe.Grp 1 (MiniRe.Seq (MiniRe.Chr "a") MiniRe.Eps))
                 (MiniRe.Seq (MiniRe.Opt (MiniRe.Grp 2 (MiniRe.Seq (MiniRe.Chr "b") MiniRe.Eps)))
                    MiniRe.Eps))
              2 [])
           "a ab" [FTuple ["a"; EmptyString]; FTuple ["a"; "b"]])
    as (matches & H1 & H2 & _).
  - vm_compute; reflexivity.
  - exists matches. split; assumption.
Defined.

(** ** C7 *)

(** C7.  For every non-empty find-all result the block shows the number of
    results and, as preview, the escaped form of the first 200 characters
    of [str(all_matches)] (the whole of it when it is no longer than that),
    followed by the ellipsis [...] exactly when [str(all_matches)] is
    longer than 200 characters.  For the pattern [a] and a line of 150
    letters [a], the count is 150, the rendering has 750 characters, and
    the preview is truncated and followed by the ellipsis. *)
Theorem findall_preview_truncated :
  (forall (x : FindallItem) (xs : list FindallItem),
      exists preview ellipsis,
        findall_html (x :: xs)
        = findall_marker ++ "<strong>All matches found:</strong> "
          ++ str_of_nat (List.length (x :: xs)) ++ "<br>Matches: "
          ++ escape preview ++ ellipsis ++ "</div>"
        /\ preview = take 200 (str_of_list (x :: xs))
        /\ String.length preview <= 200
        /\ (String.length (str_of_list (x :: xs)) <= 200 ->
            preview = str_of_list (x :: xs) /\ ellipsis = EmptyString)
        /\ (200 < String.length (str_of_list (x :: xs)) ->
            String.length preview = 200 /\ ellipsis = "..."))
  /\ (exists p matches all_matches,
        re_compile (Engine := MiniRe.engine) (strip "a") = inr p
        /\ test_lines (repeat_string "a" 150) = [repeat_string "a" 150]
        /\ finditer p (repeat_string "a" 150) = inr matches
        /\ findall p (repeat_string "a" 150) = inr all_matches
        /\ List.length all_matches = 150
        /\ String.length (str_of_list all_matches) = 750
        /\ snd (test_pattern (E := MiniRe.engine) "a" (repeat_string "a" 150))
           = line_html 1 (repeat_string "a" 150) matches
             ++ findall_marker ++ "<strong>All matches found:</strong> 150<br>Matches: "
             ++ escape ("[" ++ repeat_string "'a', " 39 ++ "'a',") ++ "..." ++ "</div>").
Proof.
  split.
  - intros x xs.
    exists (take 200 (str_of_list (x :: xs))),
           (if 200 <? String.length (str_of_list (x :: xs)) then "..." else EmptyString).
    split; [|split; [reflexivity|split; [|split]]].
    + unfold findall_html, findall_marker. rewrite !append_assoc. reflexivity.
    + rewrite length_take. apply Nat.le_min_l.
    + intros Hle. split; [now apply take_all|].
      destruct (Nat.ltb_spec 200 (String.length (str_of_list (x :: xs))));
        [lia | reflexivity].
    + intros Hlt. split; [rewrite length_take; lia|].
      destruct (Nat.ltb_spec 200 (String.length (str_of_list (x :: xs))));
        [reflexivity | lia].
  - exists (MiniRe.mkPattern (MiniRe.Seq (MiniRe.Chr "a") MiniRe.Eps) 0 []),
           (map (fun i => mkMatch i (S i) [] []) (seq 0 150)),
           (repeat (FStr "a") 150).
    split; [vm_compute; reflexivity|].
    split; [vm_compute; reflexivity|].
    split; [vm_compute; reflexivity|].
    split; [vm_compute; reflexivity|].
    split; [vm_compute; reflexivity|].
    split; [vm_compute; reflexivity|].
    apply String.eqb_eq. vm_compute. reflexivity.
Qed.

Lemma findall_preview_truncated_witness :
  exists preview ellipsis,
    findall_html [FStr "a"; FStr "<"]
    = findall_marker ++ "<strong>All matches found:</strong> "
      ++ str_of_nat 2 ++ "<br>Matches: " ++ escape preview ++ ellipsis ++ "</div>"
    /\ preview = "['a', '<']" /\ ellipsis = EmptyString.
Proof.
  destruct (proj1 findall_preview_truncated (FStr "a") [FStr "<"])
    as (preview & ellipsis & Hhtml & _ & _ & Hshort & _).
  destruct Hshort as [Hp He]; [vm_compute; lia|].
  exists preview, ellipsis. repeat split; assumption.
Defined.

(** ** C8 *)

(** C8.  In the group list and in the named-group list of a match, a group
    that did not participate renders with the value [None] and never with
    the empty value, and a group that captured the empty string renders
    with the empty value between the quotes and never with [None].  The
    two cases are always distinguishable: two group lists of one length,
    two named-group lists with the same names, and the detail blocks of two
    matches of the same span never render alike when some group is absent
    in one and an empty capture in the other. *)
Theorem absent_group_vs_empty_capture :
  (forall j, group_item j None = str_of_nat j ++ ": " ++ dq ++ "None" ++ dq)
  /\ (forall j, group_item j (Some EmptyString) = str_of_nat j ++ ": " ++ dq ++ dq)
  /\ (forall name, named_item (name, None) = name ++ ": " ++ dq ++ "None" ++ dq)
  /\ (forall name, named_item (name, Some EmptyString) = name ++ ": " ++ dq ++ dq)
  /\ (forall j, group_item j None <> group_item j (Some EmptyString))
  /\ (forall name, named_item (name, None) <> named_item (name, Some EmptyString))
  /\ (forall gs1 gs2 i,
        List.length gs1 = List.length gs2 ->
        nth_error gs1 i = Some None ->
        nth_error gs2 i = Some (Some EmptyString) ->
        groups_html gs1 <> groups_html gs2)
  /\ (forall d1 d2 i name,
        map fst d1 = map fst d2 ->
        nth_error d1 i = Some (name, None) ->
        nth_error d2 i = Some (name, Some EmptyString) ->
        named_html d1 <> named_html d2)
  /\ (forall line k s e gs1 gs2 d1 d2 i,
        List.length gs1 = List.length gs2 ->
        nth_error gs1 i = Some None ->
        nth_error gs2 i = Some (Some EmptyString) ->
        match_html line k (mkMatch s e gs1 d1)
        <> match_html line k (mkMatch s e gs2 d2))
  /\ (forall line k s e gs1 gs2 d1 d2 i name,
        List.length gs1 = List.length gs2 ->
        map fst d1 = map fst d2 ->
        nth_error d1 i = Some (name, None) ->
        nth_error d2 i = Some (name, Some EmptyString) ->
        match_html line k (mkMatch s e gs1 d1)
        <> match_html line k (mkMatch s e gs2 d2)).
Proof.
  repeat match goal with |- _ /\ _ => split end.
  - reflexivity.
  - reflexivity.
  - reflexivity.
  - reflexivity.
  - intros j H. unfold group_item in H.
    do 3 apply append_inv_head in H. discriminate H.
  - intros name H. unfold named_item in H.
    do 3 apply append_inv_head in H. discriminate H.
  - intros gs1 gs2 i Hlen H1 H2 H.
    destruct (groups_html_inj gs1 gs2 EmptyString EmptyString Hlen) as [Hm _];
      [now rewrite H|].
    discriminate (map_nth_error_eq displayed gs1 gs2 i _ _ Hm H1 H2).
  - intros d1 d2 i name Hn H1 H2 H.
    destruct (named_html_inj d1 d2 EmptyString EmptyString Hn) as [Hm _];
      [now rewrite H|].
    discriminate (map_nth_error_eq _ d1 d2 i _ _ Hm H1 H2).
  - intros line k s e gs1 gs2 d1 d2 i Hlen H1 H2 H.
    unfold match_html, group0 in H. cbn [m_start m_end m_groups m_groupdict] in H.
    do 11 apply append_inv_head in H.
    apply groups_html_inj in H as [Hm _]; [|exact Hlen].
    discriminate (map_nth_error_eq displayed gs1 gs2 i _ _ Hm H1 H2).
  - intros line k s e gs1 gs2 d1 d2 i name Hlen Hn H1 H2 H.
    unfold match_html, group0 in H. cbn [m_start m_end m_groups m_groupdict] in H.
    do 11 apply append_inv_head in H.
    apply groups_html_inj in H as [_ H]; [|exact Hlen].
    apply named_html_inj in H as [Hm _]; [|exact Hn].
    discriminate (map_nth_error_eq _ d1 d2 i _ _ Hm H1 H2).
Qed.

Lemma absent_group_vs_empty_capture_witness :
  groups_html [Some "x"; None] <> groups_html [Some "y"; Some EmptyString]
  /\ named_html [("a", Some "x"); ("b", None)]
     <> named_html [("a", Some "y"); ("b", Some EmptyString)].
Proof.
  split.
  - apply (proj1 (proj2 (proj2 (proj2 (proj2 (proj2 (proj2
             absent_group_vs_empty_capture))))))
             [Some "x"; None] [Some "y"; Some EmptyString] 1); reflexivity.
  - apply (proj1 (proj2 (proj2 (proj2 (proj2 (proj2 (proj2 (proj2
             absent_group_vs_empty_capture)))))))
             [("a", Some "x"); ("b", None)] [("a", Some "y"); ("b", Some EmptyString)]
             1 "b"); reflexivity.
Defined.

(** ** C9 *)

(** C9, counterexample.  Applying [html.escape] to the report of the
    pattern [x] on the text [abc] changes it, and escaping an escaped value
    a second time changes it too. *)
Lemma re_escaping_changes_report :
  escape (snd (test_pattern (E := MiniRe.engine) "x" "abc"))
  <> snd (test_pattern (E := MiniRe.engine) "x" "abc")
  /\ escape (escape "a&b") <> escape "a&b".
Proof.
  split; intros H; vm_compute in H; discriminate H.
Qed.

(** C9, amended.  Escaping is applied exactly once to each text value the
    report embeds.  The embedded values are: the text before, inside and
    after the highlighted matches of a line; a line without match; the
    matched text [group(0)] of each match; the value of each group and of
    each named group, [None] for a group that did not participate; the
    first 200 characters of the rendering of the find-all result; and the
    message of an exception.  In each place the embedded text is
    [html.escape] of the value; the report of [test_pattern] is made of
    these blocks and of nothing else.  One unescaping gives a value back,
    and an escaped value holds none of [<], [>], double quote and
    apostrophe.  The numbers and the names of named groups are embedded as
    they are.  Escaping is not idempotent: it leaves a text unchanged
    exactly when the text holds none of the five characters it rewrites, so
    a value that holds one of them is embedded neither as it is nor escaped
    twice, and escaping the complete report always changes it, since every
    report opens with markup. *)
Theorem escaping_applied_once :
  (forall s, unescape (escape s) = s)
  /\ (forall c s, is_special c = true -> c <> "&"%char -> mem_char c (escape s) = false)
  /\ (forall i line,
        line_html i line []
        = "<div class=" ++ dq ++ "no-match" ++ dq ++ "><strong>Line " ++ str_of_nat i
          ++ ":</strong> " ++ dq ++ escape line ++ dq ++ " - No match</div>")
  /\ (forall s, escape s = s <-> has_special s = false)
  /\ (forall s, escape (escape s) = escape s <-> has_special s = false)
  /\ (forall (E : Engine) pattern_text test_input,
        escape (snd (test_pattern pattern_text test_input))
        <> snd (test_pattern pattern_text test_input))
  /\ (forall line last_idx,
        highlight line [] = escape line
        /\ highlight_from line [] last_idx = escape (slice_from line last_idx))
  /\ (forall line m rest last_idx,
        highlight line (m :: rest)
        = escape (slice line 0 (m_start m))
          ++ mark_open ++ escape (slice line (m_start m) (m_end m)) ++ mark_close
          ++ highlight_from line rest (m_end m)
        /\ highlight_from line (m :: rest) last_idx
           = escape (slice line last_idx (m_start m))
             ++ mark_open ++ escape (slice line (m_start m) (m_end m)) ++ mark_close
             ++ highlight_from line rest (m_end m))
  /\ (forall line matches,
        ordered_spans (map span matches) ->
        unescape (remove_markers (highlight line matches)) = line)
  /\ (forall i line m rest,
        line_html i line (m :: rest)
        = "<div class=" ++ dq ++ "match-result" ++ dq ++ "><strong>Line "
          ++ str_of_nat i ++ ":</strong> " ++ dq ++ highlight line (m :: rest) ++ dq
          ++ "<br>" ++ matches_html line 1 (m :: rest) ++ "</div>")
  /\ (forall line k m rest,
        matches_html line k (m :: rest)
        = ("<div style=" ++ dq
           ++ "margin-top: 4px; margin-left: 10px; font-size: 0.9em; border-left: 2px solid #888; padding-left: 8px;"
           ++ dq ++ "><strong>Match " ++ str_of_nat k ++ ":</strong> " ++ dq
           ++ escape (slice line (m_start m) (m_end m)) ++ dq
           ++ groups_html (m_groups m) ++ named_html (m_groupdict m) ++ "</div>")
          ++ matches_html line (S k) rest)
  /\ (forall g rest,
        groups_html (g :: rest)
        = "<br><strong>Groups:</strong> " ++ join ", " (group_items 1 (g :: rest)))
  /\ (forall j g rest,
        group_items j (g :: rest)
        = (str_of_nat j ++ ": " ++ dq ++ escape (displayed g) ++ dq)
          :: group_items (S j) rest)
  /\ (forall name g rest,
        named_html ((name, g) :: rest)
        = "<br><strong>Named:</strong> "
          ++ join ", "
               ((name ++ ": " ++ dq ++ escape (displayed g) ++ dq)
                :: map named_item rest))
  /\ (forall x rest,
        findall_html (x :: rest)
        = "<div class=" ++ dq ++ "group-info" ++ dq
          ++ "><strong>All matches found:</strong> "
          ++ str_of_nat (List.length (x :: rest)) ++ "<br>Matches: "
          ++ escape (take 200 (str_of_list (x :: rest)))
          ++ (if 200 <? String.length (str_of_list (x :: rest))
              then "..." else EmptyString)
          ++ "</div>")
  /\ (forall msg,
        handler (ReError msg)
        = "<div class=" ++ dq ++ "no-match" ++ dq ++ "><strong>Regex Error:</strong> "
          ++ escape msg ++ "</div>"
        /\ handler (OtherException msg)
           = "<div class=" ++ dq ++ "no-match" ++ dq ++ "><strong>Error:</strong> "
             ++ escape msg ++ "</div>")
  /\ (forall (E : Engine) pattern_text test_input,
        match first_exception (strip pattern_text) test_input with
        | Some e => snd (test_pattern pattern_text test_input) = handler e
        | None =>
            exists p mss all_matches,
              re_compile (strip pattern_text) = inr p
              /\ Forall2 (fun l ms => finditer p l = inr ms)
                   (test_lines test_input) mss
              /\ findall p test_input = inr all_matches
              /\ snd (test_pattern pattern_text test_input)
                 = lines_html 1 (test_lines test_input) mss
                   ++ findall_html all_matches
        end)
  /\ (forall i line ms lines mss,
        lines_html i (line :: lines) (ms :: mss)
        = line_html i line ms ++ lines_html (S i) lines mss)
  /\ (forall s,
        has_special s = true -> escape s <> s /\ escape s <> escape (escape s)).
Proof.
  split; [exact unescape_escape|].
  split; [intros c s; apply escape_no_markup|].
  split; [intros i line; reflexivity|].
  split; [exact escape_fixed_iff|].
  split; [exact escape_twice_iff|].
  split.
  { intros E pattern_text test_input H.
    apply escape_fixed_iff in H.
    cbn [test_pattern snd] in H.
    destruct (results_html_head (strip pattern_text) test_input) as [t Ht].
    rewrite Ht in H. discriminate H. }
  split.
  { intros line last_idx. split; [|reflexivity].
    rewrite highlight_eq. cbn [highlight_from]. now rewrite slice_from_0. }
  split.
  { intros line m rest last_idx. split; [|reflexivity].
    rewrite highlight_eq. reflexivity. }
  split.
  { intros line matches [Hspans Hord].
    rewrite highlight_eq, remove_markers_highlight_from.
    - now rewrite slice_from_0, unescape_escape.
    - exact Hspans.
    - exact Hord.
    - apply Forall_forall. intros m _. apply Nat.le_0_l. }
  split.
  { intros i line m rest. unfold line_html. rewrite ?append_assoc; reflexivity. }
  split.
  { intros line k m rest. cbn [matches_html]. unfold match_html, group0.
    rewrite ?append_assoc; reflexivity. }
  split; [reflexivity|].
  split.
  { intros j g rest. cbn [group_items]. unfold group_item, displayed.
    now destruct g. }
  split.
  { intros name g rest. unfold named_html. cbn [map named_item]. unfold displayed.
    now destruct g. }
  split.
  { intros x rest. unfold findall_html. rewrite ?append_assoc; reflexivity. }
  split.
  { intros msg. split; reflexivity. }
  split.
  { intros E pattern_text test_input. cbn [test_pattern snd].
    destruct (first_exception (strip pattern_text) test_input) as [e|] eqn:Hfirst;
      [now apply results_html_first_exception|].
    unfold first_exception in Hfirst. rewrite results_html_eq.
    destruct (re_compile (strip pattern_text)) as [|p]; [discriminate|].
    destruct (scan_all p (test_lines test_input)) as [|mss] eqn:Hscan; [discriminate|].
    destruct (findall p test_input) as [|all_matches] eqn:Hall; [discriminate|].
    exists p, mss, all_matches.
    split; [reflexivity|]. split; [now apply scan_all_forall2|].
    split; [exact Hall | reflexivity]. }
  split; [reflexivity|].
  intros s Hs. split.
  - intros H. apply escape_fixed_iff in H. congruence.
  - intros H. symmetry in H. apply escape_twice_iff in H. congruence.
Qed.

Lemma escaping_applied_once_witness :
  mem_char "<" (escape "a<b") = false
  /\ (escape "abc" = "abc" <-> has_special "abc" = false)
  /\ unescape
       (remove_markers (highlight "a<b>&c d" [mkMatch 1 3 [] []; mkMatch 4 6 [] []]))
     = "a<b>&c d"
  /\ (escape "a<b" <> "a<b" /\ escape "a<b" <> escape (escape "a<b")).
Proof.
  split; [|split; [|split]].
  - apply (proj1 (proj2 escaping_applied_once)); [reflexivity | discriminate].
  - apply (proj1 (proj2 (proj2 (proj2 escaping_applied_once)))).
  - apply (proj1 (proj2 (proj2 (proj2 (proj2 (proj2 (proj2 (proj2 (proj2
      escaping_applied_once))))))))).
    split; repeat constructor; cbn; lia.
  - apply (proj2 (proj2 (proj2 (proj2 (proj2 (proj2 (proj2 (proj2 (proj2 (proj2
      (proj2 (proj2 (proj2 (proj2 (proj2 (proj2 (proj2 (proj2
      escaping_applied_once)))))))))))))))))).
    reflexivity.
Defined.

(** ** C10 *)




(** * The site generator *)

Import Site SiteProps.

(** ** Sorting the directory listings *)

Lemma ascii_compare_lt_trans (x y z : ascii) :
  Ascii.compare x y = Lt -> Ascii.compare y z = Lt -> Ascii.compare x z = Lt.
Proof.
  unfold Ascii.compare. rewrite !N.compare_lt_iff. apply N.lt_trans.
Qed.

Lemma string_compare_not_gt_trans (a : string) :
  forall b c,
    String.compare a b <> Gt -> String.compare b c <> Gt -> String.compare a c <> Gt.
Proof.
  induction a as [|x a IH]; intros [|y b] [|z c] Hab Hbc; cbn in *;
    try congruence.
  destruct (Ascii.compare x y) eqn:Hxy; [| |congruence].
  - apply Ascii.compare_eq_iff in Hxy. subst y.
    destruct (Ascii.compare x z) eqn:Hxz; [|congruence|congruence].
    now apply (IH b c).
  - destruct (Ascii.compare y z) eqn:Hyz; [| |congruence].
    + apply Ascii.compare_eq_iff in Hyz. subst z. now rewrite Hxy.
    + now rewrite (ascii_compare_lt_trans x y z Hxy Hyz).
Qed.

Lemma name_le_trans (a b c : string) : name_le a b -> name_le b c -> name_le a c.
Proof.
  unfold name_le, String.leb. intros Hab Hbc.
  pose proof (string_compare_not_gt_trans a b c) as Ht.
  destruct (String.compare a b); destruct (String.compare b c);
    destruct (String.compare a c); try reflexivity; try discriminate;
    exfalso; apply Ht; congruence.
Qed.

Lemma name_le_total (a b : string) : name_le a b \/ name_le b a.
Proof. apply String.leb_total. Qed.

Section Sorting.
Context {A : Type} (key : A -> string).

Lemma in_insert_by (x y : A) (l : list A) :
  In y (insert_by key x l) <-> y = x \/ In y l.
Proof.
  induction l as [|z l IH]; cbn.
  - intuition.
  - destruct (String.leb (key x) (key z)); cbn; rewrite ?IH; intuition.
Qed.

Lemma in_sorted_by (y : A) (l : list A) : In y (sorted_by key l) <-> In y l.
Proof.
  induction l as [|x l IH]; cbn; [reflexivity|].
  rewrite in_insert_by, IH. intuition.
Qed.

Lemma insert_by_sorted (x : A) (l : list A) :
  StronglySorted (fun a b => name_le (key a) (key b)) l ->
  StronglySorted (fun a b => name_le (key a) (key b)) (insert_by key x l).
Proof.
  induction l as [|z l IH]; intros Hs; cbn.
  - repeat constructor.
  - inversion Hs as [|? ? Hl Hz]; subst.
    destruct (String.leb (key x) (key z)) eqn:Hxz.
    + constructor; [exact Hs|].
      constructor; [exact Hxz|].
      eapply Forall_impl; [|exact Hz].
      intros a Ha. eapply name_le_trans; [exact Hxz | exact Ha].
    + constructor; [now apply IH|].
      apply Forall_forall. intros a Ha. apply in_insert_by in Ha as [->|Ha].
      * destruct (name_le_total (key x) (key z)) as [Hle|Hle]; [|exact Hle].
        unfold name_le in Hle. congruence.
      * rewrite Forall_forall in Hz. now apply Hz.
Qed.

Lemma sorted_by_sorted (l : list A) :
  StronglySorted (fun a b => name_le (key a) (key b)) (sorted_by key l).
Proof.
  induction l as [|x l IH]; cbn; [constructor | now apply insert_by_sorted].
Qed.

End Sorting.

Lemma strongly_sorted_filter {A : Type} (R : A -> A -> Prop) (f : A -> bool) (l : list A) :
  StronglySorted R l -> StronglySorted R (filter f l).
Proof.
  induction 1 as [|x l Hl IH Hx]; cbn; [constructor|].
  destruct (f x); [|exact IH].
  constructor; [exact IH|].
  apply Forall_forall. intros y Hy. apply filter_In in Hy as [Hy _].
  rewrite Forall_forall in Hx. now apply Hx.
Qed.

(** ** Discovering the topics *)

Section DiscoverFacts.
Context {E : Engine} {Hs : Host}.

Lemma load_examples_spec (topic_name : string) :
  forall (entries : list (string * node)) (examples : list Example),
    load_examples topic_name entries = inr examples ->
    Forall2 (example_of topic_name) (filter has_pattern entries) examples.
Proof.
  induction entries as [|[name n] rest IH]; intros examples Hload.
  - injection Hload as <-. constructor.
  - cbn [load_examples] in Hload. cbn [filter].
    destruct n as [text|files]; [now apply IH|].
    unfold has_pattern at 1. cbn [snd].
    destruct (entry "pattern.txt" files) as [pf|] eqn:Hp; [|now apply IH].
    unfold read_description, test_pattern_file in Hload.
    rewrite Hp in Hload.
    destruct (entry "description.html" files) as [d|] eqn:Hd.
    + destruct d as [dtext|dfiles]; cbn [read_text] in Hload; [|discriminate].
      destruct pf as [ptext|pfiles]; cbn [read_text] in Hload; [|discriminate].
      destruct (entry "test_input.txt" files) as [[ttext|tfiles]|] eqn:Ht;
        cbn [read_text] in Hload; try discriminate.
      destruct (test_pattern ptext ttext) as [[pattern test_input] results] eqn:Htp.
      destruct (load_examples topic_name rest) as [|exs] eqn:Hrest; [discriminate|].
      injection Hload as <-.
      constructor; [|now apply IH].
      exists files, ptext, ttext. cbn. rewrite Hp, Ht, Hd, Htp. auto 10.
    + destruct pf as [ptext|pfiles]; cbn [read_text] in Hload; [|discriminate].
      destruct (entry "test_input.txt" files) as [[ttext|tfiles]|] eqn:Ht;
        cbn [read_text] in Hload; try discriminate.
      destruct (test_pattern ptext ttext) as [[pattern test_input] results] eqn:Htp.
      destruct (load_examples topic_name rest) as [|exs] eqn:Hrest; [discriminate|].
      injection Hload as <-.
      constructor; [|now apply IH].
      exists files, ptext, ttext. cbn. rewrite Hp, Ht, Hd, Htp. auto 10.
Qed.

Lemma load_topics_spec :
  forall (entries : list (string * node)) (topics : list Topic),
    load_topics entries = inr topics ->
    Forall2 topic_of (filter yields_examples entries) topics.
Proof.
  induction entries as [|[name n] rest IH]; intros topics Hload.
  - injection Hload as <-. constructor.
  - cbn [load_topics] in Hload. cbn [filter].
    destruct n as [text|files]; [now apply IH|].
    unfold yields_examples at 1. cbn [snd fst].
    destruct (load_metadata name files) as [|m] eqn:Hm; [discriminate|].
    destruct (load_examples name (sorted_by fst files)) as [|[|ex exs]] eqn:Hex;
      [discriminate | now apply IH |].
    unfold make_topic in Hload.
    destruct (subscript m "title") as [|title] eqn:Htitle; [discriminate|].
    destruct (subscript m "description") as [|description] eqn:Hdesc; [discriminate|].
    destruct (load_topics rest) as [|ts] eqn:Hrest; [discriminate|].
    injection Hload as <-.
    constructor; [|now apply IH].
    exists files, m. cbn. auto.
Qed.

(** When the topics load, the metadata and the examples of every directory
    of [examples] have loaded. *)
Lemma load_topics_all (entries : list (string * node)) (topics : list Topic) :
  load_topics entries = inr topics ->
  forall name files,
    In (name, Dir files) entries ->
    exists m examples,
      load_metadata name files = inr m
      /\ load_examples name (sorted_by fst files) = inr examples.
Proof.
  revert topics.
  induction entries as [|[name' n] rest IH]; intros topics Hload name files Hin.
  - contradiction.
  - cbn [load_topics] in Hload.
    destruct n as [text|files'].
    + destruct Hin as [Heq|Hin]; [discriminate Heq | now apply (IH topics)].
    + destruct (load_metadata name' files') as [|m] eqn:Hm; [discriminate|].
      destruct (load_examples name' (sorted_by fst files')) as [|exs] eqn:Hex;
        [discriminate|].
      assert (Hrest : exists ts, load_topics rest = inr ts).
      { destruct exs as [|ex exs]; [now exists topics|].
        destruct (make_topic name' m (ex :: exs)); [discriminate|].
        destruct (load_topics rest) as [|ts]; [discriminate | now exists ts]. }
      destruct Hrest as [ts Hts].
      destruct Hin as [Heq|Hin]; [|now apply (IH ts)].
      injection Heq as <- <-. now exists m, exs.
Qed.

Lemma discover_topics_entries (base : list (string * node)) (topics : list Topic) :
  discover_topics base = inr topics ->
  exists entries,
    entry "examples" base = Some (Dir entries)
    /\ load_topics (sorted_by fst entries) = inr topics.
Proof.
  unfold discover_topics, iterdir.
  destruct (entry "examples" base) as [[text|entries]|]; try discriminate.
  intros Hload. now exists entries.
Qed.

End DiscoverFacts.

Lemma Forall2_filter_l {A B : Type} (R : A -> B -> Prop) (f : A -> bool)
    (l : list A) (l2 : list B) :
  Forall2 R (filter f l) l2 ->
  Forall2 (fun a b => In a l /\ f a = true /\ R a b) (filter f l) l2.
Proof.
  intros HF.
  assert (Hin : forall a, In a (filter f l) -> In a l /\ f a = true)
    by (intros a; apply filter_In).
  induction HF as [|a b l1 l2' Hab HF IH]; constructor.
  - destruct (Hin a (or_introl eq_refl)). auto.
  - apply IH. intros a' Ha'. apply Hin. now right.
Qed.

Lemma Forall2_in_r {A B : Type} (R : A -> B -> Prop) (l1 : list A) (l2 : list B) (b : B) :
  Forall2 R l1 l2 -> In b l2 -> exists a, In a l1 /\ R a b.
Proof.
  induction 1 as [|a b' l1 l2 Hab HF IH]; intros Hin; [contradiction|].
  destruct Hin as [->|Hin].
  - exists a. split; [now left | assumption].
  - destruct (IH Hin) as (a' & Ha' & HR). exists a'. split; [now right | assumption].
Qed.

Lemma Forall2_in_l {A B : Type} (R : A -> B -> Prop) (l1 : list A) (l2 : list B) (a : A) :
  Forall2 R l1 l2 -> In a l1 -> exists b, In b l2 /\ R a b.
Proof.
  induction 1 as [|a' b l1 l2 Hab HF IH]; intros Hin; [contradiction|].
  destruct Hin as [->|Hin].
  - exists b. split; [now left | assumption].
  - destruct (IH Hin) as (b' & Hb' & HR). exists b'. split; [now right | assumption].
Qed.

Section DiscoverTheorems.
Context {E : Engine} {Hs : Host}.

(** Every topic comes from a directory of [examples] whose examples loaded
    and are not none. *)
Lemma discovered_topic_origin (base : list (string * node)) (topics : list Topic)
    (t : Topic) :
  discover_topics base = inr topics ->
  In t topics ->
  exists entries files m,
    entry "examples" base = Some (Dir entries)
    /\ In (t_name t, Dir files) entries
    /\ load_metadata (t_name t) files = inr m
    /\ load_examples (t_name t) (sorted_by fst files) = inr (t_examples t)
    /\ t_examples t <> []
    /\ subscript m "title" = inr (t_title t)
    /\ subscript m "description" = inr (t_description t).
Proof.
  intros Hd Hin.
  apply discover_topics_entries in Hd as (entries & Hex & Hload).
  apply load_topics_spec, Forall2_filter_l in Hload.
  destruct (Forall2_in_r _ _ _ t Hload Hin) as (e & _ & He & Hy & files & m & -> & Hm & Hl & Ht & Hdesc).
  exists entries, files, m.
  apply in_sorted_by in He.
  unfold yields_examples in Hy. cbn [snd fst] in Hy. rewrite Hl in Hy.
  repeat split; try assumption.
  destruct (t_examples t); [discriminate Hy | discriminate].
Qed.

End DiscoverTheorems.

(** ** Writing the pages *)

Lemma file_content_last (name content : string) (w : writes) :
  file_content name (w ++ [(name, content)])%list = Some content.
Proof.
  induction w as [|[n c] w IH]; cbn.
  - now rewrite String.eqb_refl.
  - now rewrite IH.
Qed.

Lemma write_file_cases (base : list (string * node)) (name content : string)
    (w : writes) :
  (write_file base name content w = (inr tt, (w ++ [(name, content)])%list)
   /\ exists files, entry "html_output" base = Some (Dir files))
  \/ exists e, write_file base name content w = (inl e, w).
Proof.
  unfold write_file.
  destruct (entry "html_output" base) as [[text|files]|]; try (right; eexists; reflexivity).
  destruct (entry name files) as [[text|files']|];
    try (right; eexists; reflexivity); left; split; try reflexivity; now exists files.
Qed.

Lemma write_file_ok (base files : list (string * node)) (name content : string)
    (w : writes) :
  entry "html_output" base = Some (Dir files) ->
  only_files files ->
  write_file base name content w = (inr tt, (w ++ [(name, content)])%list).
Proof.
  intros Hout Honly. unfold write_file. rewrite Hout.
  destruct (entry name files) as [[text|files']|] eqn:He; try reflexivity.
  now apply Honly in He.
Qed.

Section GenerateFacts.
Context {E : Engine} {Hs : Host}.

(** The pages written are those of the first topics, in order; all of
    them when the loop ends without an exception. *)
Lemma write_topic_pages_spec (base : list (string * node))
    (header footer example nav : string) :
  forall (topics : list Topic) (w w' : writes) (r : outcome unit),
    write_topic_pages base header footer example nav topics w = (r, w') ->
    exists done rest pages,
      topics = (done ++ rest)%list
      /\ w' = (w ++ pages)%list
      /\ Forall2 (page_of header footer example nav) done pages
      /\ (r = inr tt -> rest = [])
      /\ (pages <> [] -> exists files, entry "html_output" base = Some (Dir files)).
Proof.
  induction topics as [|t topics IH]; intros w w' r Hw.
  - injection Hw as <- <-. exists [], [], [].
    split; [reflexivity|]. split; [now rewrite app_nil_r|]. split; [constructor|].
    split; [reflexivity|]. intros Hne. now contradiction Hne.
  - cbn [write_topic_pages] in Hw.
    destruct (topic_page header footer example nav t) as [e|content] eqn:Hp.
    + injection Hw as <- <-. exists [], (t :: topics), [].
      split; [reflexivity|]. split; [now rewrite app_nil_r|]. split; [constructor|].
      split; [discriminate|]. intros Hne. now contradiction Hne.
    + destruct (write_file_cases base (t_name t ++ ".html") content w)
        as [[Hok Hout]|[e He]]; rewrite ?Hok, ?He in Hw.
      * apply IH in Hw as (done & rest & pages & -> & -> & HF & Hr & _).
        exists (t :: done), rest, ((t_name t ++ ".html", content) :: pages).
        rewrite <- app_assoc.
        split; [reflexivity|]. split; [reflexivity|].
        split; [constructor; [split; [reflexivity | exact Hp] | exact HF]|].
        split; [exact Hr|]. intros _. exact Hout.
      * injection Hw as <- <-. exists [], (t :: topics), [].
        split; [reflexivity|]. split; [now rewrite app_nil_r|]. split; [constructor|].
        split; [discriminate|]. intros Hne. now contradiction Hne.
Qed.

(** The loop stops at the first topic whose title is not a string, after
    it has written the pages of the topics before it. *)
Lemma write_topic_pages_type_error (base files : list (string * node))
    (header footer example nav : string) (t : Topic) (post : list Topic) :
  entry "html_output" base = Some (Dir files) ->
  only_files files ->
  is_str_value (t_title t) = false ->
  forall (pre : list Topic) (w : writes),
    forallb (fun t' => is_str_value (t_title t')) pre = true ->
    exists pages,
      write_topic_pages base header footer example nav (pre ++ t :: post) w
      = (inl (TypeError "replace() argument 2 must be str"), (w ++ pages)%list)
      /\ Forall2 (page_of header footer example nav) pre pages.
Proof.
  intros Hout Honly Ht.
  induction pre as [|t' pre IH]; intros w Hpre.
  - exists []. rewrite app_nil_r. split; [|constructor].
    cbn [List.app write_topic_pages]. unfold topic_page, replace_value.
    destruct (t_title t); [discriminate Ht | reflexivity].
  - cbn [forallb] in Hpre. apply andb_true_iff in Hpre as [Ht' Hpre].
    cbn [List.app write_topic_pages].
    destruct (topic_page header footer example nav t') as [e|content] eqn:Hp.
    { unfold topic_page, replace_value in Hp.
      destruct (t_title t'); [discriminate Hp | discriminate Ht']. }
    rewrite (write_file_ok base files _ content w Hout Honly).
    destruct (IH (w ++ [((t_name t' ++ ".html")%string, content)])%list Hpre) as (pages & Hw & HF).
    exists ((t_name t' ++ ".html", content) :: pages).
    rewrite Hw, <- app_assoc. split; [reflexivity|].
    constructor; [split; [reflexivity | exact Hp] | exact HF].
Qed.

Lemma load_examples_none (topic_name : string) (entries : list (string * node)) :
  (forall e, In e entries -> has_pattern e = false) ->
  load_examples topic_name entries = inr [].
Proof.
  induction entries as [|[name n] rest IH]; intros Hnone; [reflexivity|].
  cbn [load_examples].
  pose proof (Hnone (name, n) (or_introl eq_refl)) as Hp.
  assert (Hrest : load_examples topic_name rest = inr [])
    by (apply IH; intros e He; apply Hnone; now right).
  destruct n as [text|files]; [exact Hrest|].
  unfold has_pattern in Hp. cbn [snd] in Hp.
  destruct (entry "pattern.txt" files); [discriminate Hp | exact Hrest].
Qed.

Lemma load_topics_none (entries : list (string * node)) :
  (forall name files,
      In (name, Dir files) entries ->
      (exists m, load_metadata name files = inr m)
      /\ forall e, In e files -> has_pattern e = false) ->
  load_topics entries = inr [].
Proof.
  induction entries as [|[name n] rest IH]; intros Hnone; [reflexivity|].
  cbn [load_topics].
  assert (Hrest : load_topics rest = inr [])
    by (apply IH; intros name' files' Hin; apply Hnone; now right).
  destruct n as [text|files]; [exact Hrest|].
  destruct (Hnone name files (or_introl eq_refl)) as [[m Hm] Hfiles].
  rewrite Hm, load_examples_none; [exact Hrest|].
  intros e He. apply in_sorted_by in He. now apply Hfiles.
Qed.

End GenerateFacts.

(** ** Replacing the placeholders *)

Lemma replace_from_skip (old new q r : string) :
  replace_from (String.length q) old new (q ++ r) = replace_from 0 old new r.
Proof. induction q as [|c q IH]; [reflexivity | exact IH]. Qed.

Lemma replace_hit (c : ascii) (o new r : string) :
  replace (String c o) new (String c o ++ r) = new ++ replace (String c o) new r.
Proof.
  unfold replace.
  change (String c o ++ r) with (String c (o ++ r)).
  cbn [replace_from].
  change (String c (o ++ r)) with (String c o ++ r).
  rewrite starts_with_append.
  replace (String.length (String c o) - 1) with (String.length o) by (cbn; lia).
  now rewrite replace_from_skip.
Qed.

Lemma brace_safe_cons (c : ascii) (s : string) :
  brace_safe (String c s)
  = (if Ascii.eqb c "{" then head_not_upper s else true) && brace_safe s.
Proof. reflexivity. Qed.

(** A text without the beginning of a placeholder is left alone by the
    replacement of a placeholder, whatever follows it. *)
Lemma replace_safe_prefix (u : ascii) (o new v r : string) :
  MiniHost.is_upper u = true ->
  brace_safe v = true ->
  replace (String "{" (String u o)) new (v ++ r)
  = v ++ replace (String "{" (String u o)) new r.
Proof.
  intros Hu. unfold replace.
  induction v as [|x v IH]; intros Hv; [reflexivity|].
  rewrite brace_safe_cons in Hv. apply andb_true_iff in Hv as [Hx Hv].
  change (String x v ++ r) with (String x (v ++ r)).
  cbn [replace_from].
  assert (Hs : starts_with (String "{" (String u o)) (String x (v ++ r)) = false).
  { cbn [starts_with].
    destruct (Ascii.eqb_spec "{"%char x) as [<-|Hne]; [|reflexivity].
    rewrite Ascii.eqb_refl in Hx.
    destruct v as [|y v]; [discriminate Hx|].
    cbn [head_not_upper] in Hx. cbn [append].
    destruct (Ascii.eqb_spec u y) as [<-|]; [|reflexivity].
    rewrite Hu in Hx. discriminate Hx. }
  rewrite Hs. cbn [append]. f_equal. now apply IH.
Qed.

Lemma replace_safe (u : ascii) (o new v : string) :
  MiniHost.is_upper u = true ->
  brace_safe v = true ->
  replace (String "{" (String u o)) new v = v.
Proof.
  intros Hu Hv.
  rewrite <- (append_nil_r v) at 1.
  rewrite replace_safe_prefix by assumption.
  cbn. apply append_nil_r.
Qed.

Lemma head_not_upper_escape (s : string) :
  head_not_upper (escape s) = head_not_upper s.
Proof.
  destruct s as [|c s]; [reflexivity|].
  rewrite escape_cons. unfold escape_char, head_not_upper.
  destruct (Ascii.eqb_spec c "&") as [->|]; [reflexivity|].
  destruct (Ascii.eqb_spec c "<") as [->|]; [reflexivity|].
  destruct (Ascii.eqb_spec c ">") as [->|]; [reflexivity|].
  destruct (Ascii.eqb_spec c "034") as [->|]; [reflexivity|].
  destruct (Ascii.eqb_spec c "039") as [->|]; reflexivity.
Qed.

Lemma brace_safe_plain_prefix (t r : string) :
  mem_char "{" t = false -> brace_safe (t ++ r) = brace_safe r.
Proof.
  induction t as [|c t IH]; intros Ht; [reflexivity|].
  cbn [mem_char] in Ht. apply orb_false_iff in Ht as [Hc Ht].
  change (String c t ++ r) with (String c (t ++ r)).
  rewrite brace_safe_cons, Hc. cbn. now apply IH.
Qed.

Lemma brace_safe_escape (s : string) : brace_safe (escape s) = brace_safe s.
Proof.
  induction s as [|c s IH]; [reflexivity|].
  rewrite escape_cons. unfold escape_char.
  destruct (Ascii.eqb_spec c "&") as [->|];
    [rewrite brace_safe_plain_prefix by reflexivity; rewrite IH; reflexivity|].
  destruct (Ascii.eqb_spec c "<") as [->|];
    [rewrite brace_safe_plain_prefix by reflexivity; rewrite IH; reflexivity|].
  destruct (Ascii.eqb_spec c ">") as [->|];
    [rewrite brace_safe_plain_prefix by reflexivity; rewrite IH; reflexivity|].
  destruct (Ascii.eqb_spec c "034") as [->|];
    [rewrite brace_safe_plain_prefix by reflexivity; rewrite IH; reflexivity|].
  destruct (Ascii.eqb_spec c "039") as [->|];
    [rewrite brace_safe_plain_prefix by reflexivity; rewrite IH; reflexivity|].
  cbn [append]. rewrite !brace_safe_cons, IH, head_not_upper_escape. reflexivity.
Qed.

(** ** Angle brackets in the report *)

Lemma count_char_append (c : ascii) (a b : string) :
  count_char c (a ++ b) = count_char c a + count_char c b.
Proof. induction a as [|x a IH]; cbn; [reflexivity | rewrite IH; lia]. Qed.

Lemma count_char_none (c : ascii) (s : string) :
  mem_char c s = false -> count_char c s = 0.
Proof.
  induction s as [|x s IH]; cbn; [reflexivity|].
  intros H. apply orb_false_iff in H as [-> Hs]. now rewrite IH.
Qed.

Lemma balanced_plain (s : string) :
  mem_char "<" s = false -> mem_char ">" s = false -> balanced s.
Proof. intros H1 H2. unfold balanced. now rewrite !count_char_none. Qed.

Lemma balanced_append (a b : string) : balanced a -> balanced b -> balanced (a ++ b).
Proof. unfold balanced. intros Ha Hb. rewrite !count_char_append. lia. Qed.

Lemma count_escape (c : ascii) (s : string) :
  is_special c = true -> c <> "&"%char -> count_char c (escape s) = 0.
Proof. intros H1 H2. now apply count_char_none, escape_no_markup. Qed.

Lemma digits_plain (c : ascii) (d : Decimal.uint) :
  MiniRe.is_digit c = false -> mem_char c (NilEmpty.string_of_uint d) = false.
Proof.
  intros Hc.
  induction d as [|d IH|d IH|d IH|d IH|d IH|d IH|d IH|d IH|d IH|d IH];
    cbn [NilEmpty.string_of_uint mem_char]; [reflexivity|..];
    rewrite IH, orb_false_r;
    match goal with
    | |- Ascii.eqb ?x c = false =>
        destruct (Ascii.eqb_spec x c) as [<-|]; [discriminate Hc | reflexivity]
    end.
Qed.

Lemma count_str_of_nat (c : ascii) (n : nat) :
  MiniRe.is_digit c = false -> count_char c (str_of_nat n) = 0.
Proof. intros Hc. now apply count_char_none, digits_plain. Qed.

(** Counting the angle brackets of a concatenation: escaped text and
    numbers hold none, the literals are counted, and the blocks already
    known to be balanced cancel. *)
Ltac count_brackets :=
  unfold balanced in *;
  repeat rewrite count_char_append;
  repeat rewrite (count_escape "<") by (reflexivity || discriminate);
  repeat rewrite (count_escape ">") by (reflexivity || discriminate);
  repeat rewrite (count_str_of_nat "<") by reflexivity;
  repeat rewrite (count_str_of_nat ">") by reflexivity;
  cbn [count_char Ascii.eqb Bool.eqb dq mark_open mark_close append Nat.add];
  lia.

Lemma balanced_join (sep : string) (items : list string) :
  balanced sep -> Forall balanced items -> balanced (join sep items).
Proof.
  intros Hsep. induction 1 as [|x items Hx Hitems IH]; [reflexivity|].
  destruct items as [|y items]; [exact Hx|].
  rewrite join_cons by discriminate.
  repeat apply balanced_append; assumption.
Qed.

Lemma balanced_highlight (line : string) (matches : list Match) :
  balanced (highlight line matches).
Proof.
  rewrite highlight_eq. generalize 0.
  induction matches as [|m rest IH]; intros last_idx; cbn [highlight_from].
  - count_brackets.
  - specialize (IH (m_end m)). remember (highlight_from line rest (m_end m)) as tail.
    count_brackets.
Qed.

Lemma balanced_group_items (groups : list (option string)) :
  forall j, Forall balanced (group_items j groups).
Proof.
  induction groups as [|g rest IH]; intros j; cbn [group_items]; constructor;
    [unfold group_item; count_brackets | apply IH].
Qed.

Lemma balanced_groups_html (groups : list (option string)) :
  balanced (groups_html groups).
Proof.
  destruct groups as [|g rest]; [reflexivity|].
  unfold groups_html. apply balanced_append; [reflexivity|].
  apply balanced_join; [reflexivity | apply balanced_group_items].
Qed.

Lemma balanced_named_html (groupdict : list (string * option string)) :
  Forall (fun e => mem_char "<" (fst e) = false /\ mem_char ">" (fst e) = false)
    groupdict ->
  balanced (named_html groupdict).
Proof.
  intros Hnames.
  destruct groupdict as [|e rest]; [reflexivity|].
  unfold named_html. apply balanced_append; [reflexivity|].
  apply balanced_join; [reflexivity|].
  rewrite Forall_map. eapply Forall_impl; [|exact Hnames].
  intros [name v] [H1 H2]. unfold named_item.
  apply balanced_append; [now apply balanced_plain | count_brackets].
Qed.

Lemma balanced_matches_html (line : string) (matches : list Match) :
  Forall plain_names matches ->
  forall k, balanced (matches_html line k matches).
Proof.
  induction 1 as [|m rest Hm Hrest IH]; intros k; cbn [matches_html];
    [reflexivity|].
  apply balanced_append; [|apply IH].
  unfold match_html.
  pose proof (balanced_groups_html (m_groups m)) as Hg.
  pose proof (balanced_named_html (m_groupdict m) Hm) as Hn.
  remember (groups_html (m_groups m)) as G.
  remember (named_html (m_groupdict m)) as N.
  count_brackets.
Qed.

Lemma balanced_line_html (i : nat) (line : string) (matches : list Match) :
  Forall plain_names matches -> balanced (line_html i line matches).
Proof.
  intros Hm. pose proof (balanced_matches_html line matches Hm 1) as Hd.
  pose proof (balanced_highlight line matches) as Hh.
  destruct matches as [|m rest]; unfold line_html; [count_brackets|].
  remember (matches_html line 1 (m :: rest)) as D.
  remember (highlight line (m :: rest)) as L.
  count_brackets.
Qed.

Lemma balanced_lines_html (lines : list string) :
  forall (mss : list (list Match)) (i : nat),
    Forall (Forall plain_names) mss -> balanced (lines_html i lines mss).
Proof.
  induction lines as [|line rest IH]; intros mss i Hm; [reflexivity|].
  destruct mss as [|ms mss]; [reflexivity|].
  inversion Hm; subst. cbn [lines_html].
  apply balanced_append; [now apply balanced_line_html | now apply IH].
Qed.

Lemma balanced_findall_html (all_matches : list FindallItem) :
  balanced (findall_html all_matches).
Proof.
  destruct all_matches as [|x xs]; [reflexivity|].
  unfold findall_html.
  destruct (200 <? String.length (str_of_list (x :: xs))); count_brackets.
Qed.

Lemma balanced_handler (e : exn) : balanced (handler e).
Proof.
  destruct e; cbn [handler]; unfold regex_error_html, error_html; count_brackets.
Qed.

(** ** The first line *)

Lemma all_space_inv (c : ascii) (s : string) :
  all_space (String c s) -> is_space c = true /\ all_space s.
Proof.
  intros Hall. split.
  - apply Hall. cbn [mem_char]. now rewrite Ascii.eqb_refl.
  - intros x Hx. apply Hall. cbn [mem_char]. rewrite Hx. apply orb_true_r.
Qed.

Lemma rstrip_all_space (s : string) : all_space s -> rstrip s = EmptyString.
Proof.
  induction s as [|c s IH]; intros Hall; [reflexivity|].
  apply all_space_inv in Hall as [Hc Hs].
  cbn [rstrip]. now rewrite (IH Hs), Hc.
Qed.

Lemma strip_all_space (s : string) : all_space s -> strip s = EmptyString.
Proof. intros Hall. unfold strip. now rewrite rstrip_all_space. Qed.

Lemma replace_other_placeholder (u q : ascii) (o tail new r : string) :
  u <> q ->
  MiniHost.is_upper u = true ->
  brace_safe (String q tail) = true ->
  replace (String "{" (String u o)) new (String "{" (String q tail) ++ r)
  = String "{" (String q tail) ++ replace (String "{" (String u o)) new r.
Proof.
  intros Hne Hu Hq.
  change (String "{" (String q tail) ++ r) with (String "{" (String q tail ++ r)).
  unfold replace at 1. cbn [replace_from starts_with append].
  destruct (Ascii.eqb_spec u q) as [|_]; [contradiction|].
  rewrite Ascii.eqb_refl. cbn [andb]. cbn [append]. f_equal.
  change (String q (tail ++ r)) with (String q tail ++ r).
  exact (replace_safe_prefix u o new (String q tail) r Hu Hq).
Qed.

(** One step of a replacement that walks over a template: a placeholder
    that is replaced, another placeholder, or text without placeholder. *)
Ltac walk :=
  first
    [ rewrite replace_hit
    | rewrite replace_other_placeholder by (discriminate || reflexivity)
    | rewrite replace_safe_prefix by (reflexivity || assumption) ].

Lemma Forall2_map_eq {A B C : Type} (f : A -> C) (g : B -> C) (R : A -> B -> Prop)
    (l1 : list A) (l2 : list B) :
  (forall a b, R a b -> f a = g b) ->
  Forall2 R l1 l2 -> map f l1 = map g l2.
Proof.
  intros HR. induction 1 as [|a b l1 l2 Hab HF IH]; cbn; [reflexivity|].
  now rewrite (HR a b Hab), IH.
Qed.

Lemma strongly_sorted_map {A B : Type} (f : A -> B) (R : B -> B -> Prop) (l : list A) :
  StronglySorted (fun a b => R (f a) (f b)) l -> StronglySorted R (map f l).
Proof.
  induction 1 as [|x l Hl IH Hx]; cbn; constructor; [exact IH|].
  rewrite Forall_map. exact Hx.
Qed.

Lemma name_le_antisym (a b : string) : name_le a b -> name_le b a -> a = b.
Proof.
  unfold name_le, String.leb. intros Hab Hba.
  apply String.compare_eq_iff.
  rewrite String.compare_antisym in Hba.
  destruct (String.compare a b); [reflexivity | discriminate Hba | discriminate Hab].
Qed.

Section SortingPermutations.
Context {A : Type} (key : A -> string).

Lemma insert_by_permutation (x : A) (l : list A) :
  Permutation (insert_by key x l) (x :: l).
Proof.
  induction l as [|y l IH]; cbn; [reflexivity|].
  destruct (String.leb (key x) (key y)); [reflexivity|].
  rewrite IH. apply perm_swap.
Qed.

Lemma sorted_by_permutation (l : list A) : Permutation (sorted_by key l) l.
Proof.
  induction l as [|x l IH]; cbn; [reflexivity|].
  rewrite insert_by_permutation. now constructor.
Qed.

(** Two sorted lists with the same elements and no repeated key are
    equal. *)
Lemma sorted_permutation_unique (l1 : list A) :
  forall l2,
    StronglySorted (fun a b => name_le (key a) (key b)) l1 ->
    StronglySorted (fun a b => name_le (key a) (key b)) l2 ->
    Permutation l1 l2 ->
    NoDup (map key l1) ->
    l1 = l2.
Proof.
  induction l1 as [|x l1 IH]; intros l2 Hs1 Hs2 Hperm Hnodup.
  - apply Permutation_nil in Hperm. now subst.
  - destruct l2 as [|y l2];
      [apply Permutation_sym, Permutation_nil in Hperm; discriminate|].
    inversion Hs1 as [|? ? Hs1' Hx]; subst.
    inversion Hs2 as [|? ? Hs2' Hy]; subst.
    cbn [map] in Hnodup. inversion Hnodup as [|? ? Hnotin Hnodup']; subst.
    assert (Hxy : x = y).
    { pose proof (Permutation_in x Hperm (or_introl eq_refl)) as Hin1.
      pose proof (Permutation_in y (Permutation_sym Hperm) (or_introl eq_refl)) as Hin2.
      destruct Hin1 as [Heq|Hin1]; [now symmetry|].
      destruct Hin2 as [Heq|Hin2]; [exact Heq|].
      exfalso. apply Hnotin.
      rewrite Forall_forall in Hx, Hy.
      rewrite (name_le_antisym (key x) (key y) (Hx y Hin2) (Hy x Hin1)).
      now apply in_map. }
    subst y. f_equal.
    apply IH; try assumption. now apply Permutation_cons_inv in Hperm.
Qed.

Lemma sorted_by_permutation_eq (l1 l2 : list A) :
  Permutation l1 l2 -> NoDup (map key l1) -> sorted_by key l1 = sorted_by key l2.
Proof.
  intros Hperm Hnodup.
  apply sorted_permutation_unique; try apply sorted_by_sorted.
  - now rewrite !sorted_by_permutation.
  - apply (Permutation_NoDup (l := map key l1)); [|exact Hnodup].
    apply Permutation_map, Permutation_sym, sorted_by_permutation.
Qed.

End SortingPermutations.

(** * Further properties *)

(** X1.  Every topic [discover_topics] returns has at least one example,
    and is a directory of [examples] that holds at least one directory
    with a [pattern.txt]: directories without example are left out. *)
Theorem discovered_topics_have_examples (E : Engine) (Hs : Host)
    (base : list (string * node)) (topics : list Topic) :
  discover_topics base = inr topics ->
  Forall (fun t =>
            t_examples t <> []
            /\ exists entries files e,
                 entry "examples" base = Some (Dir entries)
                 /\ In (t_name t, Dir files) entries
                 /\ In e files /\ has_pattern e = true) topics.
Proof.
  intros Hd. apply Forall_forall. intros t Hin.
  destruct (discovered_topic_origin base topics t Hd Hin)
    as (entries & files & m & Hex & Hdir & _ & Hload & Hne & _).
  split; [exact Hne|].
  apply load_examples_spec, Forall2_filter_l in Hload.
  destruct (t_examples t) as [|ex exs]; [contradiction|].
  destruct (Forall2_in_r _ _ _ ex Hload (or_introl eq_refl)) as (e & _ & He & Hp & _).
  exists entries, files, e. apply in_sorted_by in He. auto.
Qed.

Lemma discovered_topics_have_examples_witness :
  Forall (fun t =>
            t_examples t <> []
            /\ exists entries files e,
                 entry "examples" Sample.site = Some (Dir entries)
                 /\ In (t_name t, Dir files) entries
                 /\ In e files /\ has_pattern e = true) Sample.topics.
Proof.
  apply (discovered_topics_have_examples MiniRe.engine MiniHost.host Sample.site).
  vm_compute. reflexivity.
Defined.

(** X2.  The topics are returned in the order of their directory names:
    every name is at or before every later one. *)
Theorem discovered_topics_sorted (E : Engine) (Hs : Host)
    (base : list (string * node)) (topics : list Topic) :
  discover_topics base = inr topics ->
  StronglySorted name_le (map t_name topics).
Proof.
  intros Hd.
  apply discover_topics_entries in Hd as (entries & _ & Hload).
  apply load_topics_spec in Hload.
  rewrite <- (Forall2_map_eq fst t_name _ _ _
                (fun e t (Ht : topic_of e t) =>
                   match Ht with
                   | ex_intro _ files (ex_intro _ m (conj Heq _)) => f_equal fst Heq
                   end) Hload).
  apply strongly_sorted_map, strongly_sorted_filter, sorted_by_sorted.
Qed.

Lemma discovered_topics_sorted_witness :
  StronglySorted name_le (map t_name Sample.topics)
  /\ map t_name Sample.topics = ["a_topic"; "b_topic"].
Proof.
  split; [|vm_compute; reflexivity].
  apply (discovered_topics_sorted MiniRe.engine MiniHost.host Sample.site).
  vm_compute. reflexivity.
Defined.

(** X3.  The examples of a topic are the directories of the topic
    directory that hold a [pattern.txt], in the order of their names; plain
    files and directories without [pattern.txt] give no example.  The name
    of an example is the title form of the directory name with its
    underscores turned into spaces. *)
Theorem examples_follow_pattern_directories (E : Engine) (Hs : Host)
    (base : list (string * node)) (topics : list Topic) (t : Topic) :
  discover_topics base = inr topics ->
  In t topics ->
  exists entries files,
    entry "examples" base = Some (Dir entries)
    /\ In (t_name t, Dir files) entries
    /\ map ex_name (t_examples t)
       = map (fun e => str_title (replace "_" " " (fst e)))
           (filter has_pattern (sorted_by fst files))
    /\ StronglySorted name_le (map fst (filter has_pattern (sorted_by fst files))).
Proof.
  intros Hd Hin.
  destruct (discovered_topic_origin base topics t Hd Hin)
    as (entries & files & m & Hex & Hdir & _ & Hload & _).
  exists entries, files. repeat split; try assumption.
  - apply load_examples_spec in Hload. symmetry.
    apply (Forall2_map_eq _ _ _ _ _
             (fun e ex (Hx : example_of (t_name t) e ex) =>
                match Hx with
                | ex_intro _ _ (ex_intro _ _ (ex_intro _ _
                    (conj _ (conj _ (conj _ (conj _ (conj Hn _))))))) => eq_sym Hn
                end) Hload).
  - apply strongly_sorted_map, strongly_sorted_filter, sorted_by_sorted.
Qed.

Lemma examples_follow_pattern_directories_witness :
  exists entries files,
    entry "examples" Sample.site = Some (Dir entries)
    /\ In ("b_topic", Dir files) entries
    /\ ["Ex One"]
       = map (fun e => MiniHost.title (replace "_" " " (fst e)))
           (filter has_pattern (sorted_by fst files))
    /\ StronglySorted name_le (map fst (filter has_pattern (sorted_by fst files))).
Proof.
  apply (examples_follow_pattern_directories MiniRe.engine MiniHost.host Sample.site
           Sample.topics (nth 1 Sample.topics (mkTopic "" (VStr "") (VStr "") []))).
  - vm_compute. reflexivity.
  - vm_compute. auto.
Defined.

(** X4.  Discovery reads the files of every example directory outside
    any handler: when [discover_topics] returns, every directory of a topic
    directory that holds a [pattern.txt] holds it as a file, and holds a
    file [test_input.txt] beside it.  An example without test input makes
    the whole discovery fail. *)
Theorem discovery_reads_every_example (E : Engine) (Hs : Host)
    (base entries : list (string * node)) (topics : list Topic)
    (topic_name example_name : string) (topic_files example_files : list (string * node)) :
  discover_topics base = inr topics ->
  entry "examples" base = Some (Dir entries) ->
  In (topic_name, Dir topic_files) entries ->
  In (example_name, Dir example_files) topic_files ->
  entry "pattern.txt" example_files <> None ->
  exists pattern_text test_input,
    entry "pattern.txt" example_files = Some (File pattern_text)
    /\ entry "test_input.txt" example_files = Some (File test_input).
Proof.
  intros Hd Hex Htopic Hexample Hpattern.
  apply discover_topics_entries in Hd as (entries' & Hex' & Hload).
  rewrite Hex in Hex'. injection Hex' as <-.
  destruct (load_topics_all _ _ Hload topic_name topic_files)
    as (m & examples & _ & Hexs); [now apply in_sorted_by|].
  apply load_examples_spec in Hexs.
  assert (Hin : In (example_name, Dir example_files)
                  (filter has_pattern (sorted_by fst topic_files))).
  { apply filter_In. split; [now apply in_sorted_by|].
    unfold has_pattern. cbn [snd].
    destruct (entry "pattern.txt" example_files); [reflexivity | contradiction]. }
  destruct (Forall2_in_l _ _ _ _ Hexs Hin)
    as (ex & _ & files & pattern_text & test_input & Heq & Hp & Ht & _).
  cbn [fst] in Heq. injection Heq as ->.
  now exists pattern_text, test_input.
Qed.

Lemma discovery_reads_every_example_witness :
  exists pattern_text test_input,
    entry "pattern.txt" [("pattern.txt", File "(b)"); ("test_input.txt", File "abc")]
    = Some (File pattern_text)
    /\ entry "test_input.txt" [("pattern.txt", File "(b)"); ("test_input.txt", File "abc")]
       = Some (File test_input).
Proof.
  apply (discovery_reads_every_example MiniRe.engine MiniHost.host
           [("examples",
             Dir [("t", Dir [("e", Dir [("pattern.txt", File "(b)");
                                        ("test_input.txt", File "abc")])])])]
           [("t", Dir [("e", Dir [("pattern.txt", File "(b)");
                                  ("test_input.txt", File "abc")])])]
           [mkTopic "t" (VStr "T") (VStr "Examples for t")
              [mkExample "E" "(b)" "abc"
                 (results_html (E := MiniRe.engine) "(b)" "abc")
                 "<p>No description provided.</p>" "t"]]
           "t" "e"
           [("e", Dir [("pattern.txt", File "(b)"); ("test_input.txt", File "abc")])]
           [("pattern.txt", File "(b)"); ("test_input.txt", File "abc")]).
  - vm_compute. reflexivity.
  - reflexivity.
  - simpl. auto.
  - simpl. auto.
  - simpl. discriminate.
Defined.

(** X5.  Every example of a discovered topic comes from one directory of
    the topic directory: its pattern is the stripped text of [pattern.txt],
    its test input the text of [test_input.txt] as read, its results the
    report of [test_pattern] on the two, its description the text of
    [description.html] or the default paragraph when there is no such file,
    and its topic the name of the topic directory. *)
Theorem example_fields_from_files (E : Engine) (Hs : Host)
    (base : list (string * node)) (topics : list Topic) (t : Topic) (ex : Example) :
  discover_topics base = inr topics ->
  In t topics ->
  In ex (t_examples t) ->
  exists entries topic_files example_name example_files pattern_text test_input,
    entry "examples" base = Some (Dir entries)
    /\ In (t_name t, Dir topic_files) entries
    /\ In (example_name, Dir example_files) topic_files
    /\ entry "pattern.txt" example_files = Some (File pattern_text)
    /\ entry "test_input.txt" example_files = Some (File test_input)
    /\ ex_name ex = str_title (replace "_" " " example_name)
    /\ ex_pattern ex = strip pattern_text
    /\ ex_test_input ex = test_input
    /\ ex_results ex = results_html (strip pattern_text) test_input
    /\ ex_description ex
       = match entry "description.html" example_files with
         | Some (File text) => text
         | _ => "<p>No description provided.</p>"
         end
    /\ ex_topic ex = t_name t.
Proof.
  intros Hd Hin Hex.
  destruct (discovered_topic_origin base topics t Hd Hin)
    as (entries & topic_files & m & Hentries & Hdir & _ & Hload & _).
  apply load_examples_spec, Forall2_filter_l in Hload.
  destruct (Forall2_in_r _ _ _ ex Hload Hex)
    as ([example_name n] & _ & He & _ & files & pattern_text & test_input
        & Heq & Hp & Ht & Htest & Hname & Hdesc & Htopic).
  cbn [fst] in Heq, Hname. injection Heq as ->.
  unfold test_pattern in Htest. injection Htest as Hpat Htext Hres.
  apply in_sorted_by in He.
  exists entries, topic_files, example_name, files, pattern_text, test_input.
  repeat split; assumption.
Qed.

Lemma example_fields_from_files_witness :
  exists entries topic_files example_name example_files pattern_text test_input,
    entry "examples" Sample.site = Some (Dir entries)
    /\ In ("a_topic", Dir topic_files) entries
    /\ In (example_name, Dir example_files) topic_files
    /\ entry "pattern.txt" example_files = Some (File pattern_text)
    /\ entry "test_input.txt" example_files = Some (File test_input)
    /\ "Z" = MiniHost.title (replace "_" " " example_name)
    /\ "a{2}" = strip pattern_text
    /\ "xaay" = test_input
    /\ results_html (E := MiniRe.engine) "a{2}" "xaay"
       = results_html (E := MiniRe.engine) (strip pattern_text) test_input
    /\ "<p>d</p>"
       = match entry "description.html" example_files with
         | Some (File text) => text
         | _ => "<p>No description provided.</p>"
         end
    /\ "a_topic" = "a_topic".
Proof.
  apply (example_fields_from_files MiniRe.engine MiniHost.host Sample.site
           Sample.topics
           (mkTopic "a_topic" (VStr "A & T") (VStr "D")
              [mkExample "Z" "a{2}" "xaay"
                 (results_html (E := MiniRe.engine) "a{2}" "xaay") "<p>d</p>" "a_topic"])
           (mkExample "Z" "a{2}" "xaay"
              (results_html (E := MiniRe.engine) "a{2}" "xaay") "<p>d</p>" "a_topic")).
  - vm_compute. reflexivity.
  - left. vm_compute. reflexivity.
  - left. reflexivity.
Defined.

(** X6.  The title and the description of a discovered topic: without a
    [topic.json] in the topic directory, the title is the title form of the
    directory name with underscores turned into spaces and the description
    is [Examples for] followed by the directory name; with one, both are the values the loaded metadata has under
    the keys [title] and [description], whatever their type, and no default
    applies. *)
Theorem topic_metadata_or_defaults (E : Engine) (Hs : Host)
    (base : list (string * node)) (topics : list Topic) (t : Topic) :
  discover_topics base = inr topics ->
  In t topics ->
  exists entries files,
    entry "examples" base = Some (Dir entries)
    /\ In (t_name t, Dir files) entries
    /\ match entry "topic.json" files with
       | None =>
           t_title t = VStr (str_title (replace "_" " " (t_name t)))
           /\ t_description t = VStr ("Examples for " ++ t_name t)
       | Some n =>
           exists text m,
             n = File text
             /\ json_load text = inr m
             /\ subscript m "title" = inr (t_title t)
             /\ subscript m "description" = inr (t_description t)
       end.
Proof.
  intros Hd Hin.
  destruct (discovered_topic_origin base topics t Hd Hin)
    as (entries & files & m & Hentries & Hdir & Hm & _ & _ & Htitle & Hdesc).
  exists entries, files. split; [exact Hentries|]. split; [exact Hdir|].
  unfold load_metadata, read_text in Hm.
  destruct (entry "topic.json" files) as [[text|files']|].
  - exists text, m. auto.
  - discriminate Hm.
  - injection Hm as <-. cbn in Htitle, Hdesc.
    injection Htitle as <-. injection Hdesc as <-. split; reflexivity.
Qed.

Lemma topic_metadata_or_defaults_witness :
  exists entries files,
    entry "examples" Sample.site = Some (Dir entries)
    /\ In ("b_topic", Dir files) entries
    /\ match entry "topic.json" files with
       | None =>
           t_title (nth 1 Sample.topics (mkTopic "" (VStr "") (VStr "") []))
           = VStr (MiniHost.title (replace "_" " " "b_topic"))
           /\ t_description (nth 1 Sample.topics (mkTopic "" (VStr "") (VStr "") []))
              = VStr "Examples for b_topic"
       | Some n =>
           exists text m,
             n = File text
             /\ MiniHost.load text = inr m
             /\ subscript m "title"
                = inr (t_title (nth 1 Sample.topics (mkTopic "" (VStr "") (VStr "") [])))
             /\ subscript m "description"
                = inr (t_description (nth 1 Sample.topics (mkTopic "" (VStr "") (VStr "") [])))
       end.
Proof.
  apply (topic_metadata_or_defaults MiniRe.engine MiniHost.host Sample.site
           Sample.topics (nth 1 Sample.topics (mkTopic "" (VStr "") (VStr "") []))).
  - vm_compute. reflexivity.
  - vm_compute. auto.
Defined.

(** X7.  The metadata of every topic directory is loaded before its
    examples are looked for: when [discover_topics] returns, every
    [topic.json] of a directory of [examples] is a file that the JSON loader
    accepted, also in a directory without any example. *)
Theorem metadata_loaded_for_every_directory (E : Engine) (Hs : Host)
    (base entries : list (string * node)) (topics : list Topic)
    (topic_name : string) (files : list (string * node)) (n : node) :
  discover_topics base = inr topics ->
  entry "examples" base = Some (Dir entries) ->
  In (topic_name, Dir files) entries ->
  entry "topic.json" files = Some n ->
  exists text m, n = File text /\ json_load text = inr m.
Proof.
  intros Hd Hex Hin Hjson.
  apply discover_topics_entries in Hd as (entries' & Hex' & Hload).
  rewrite Hex in Hex'. injection Hex' as <-.
  destruct (load_topics_all _ _ Hload topic_name files)
    as (m & _ & Hm & _); [now apply in_sorted_by|].
  unfold load_metadata, read_text in Hm. rewrite Hjson in Hm.
  destruct n as [text|files']; [|discriminate Hm].
  now exists text, m.
Qed.

Lemma metadata_loaded_for_every_directory_witness :
  exists text m, File "{}" = File text /\ MiniHost.load text = inr m.
Proof.
  apply (metadata_loaded_for_every_directory MiniRe.engine MiniHost.host Sample.site
           [("b_topic",
             Dir [("ex_one", Dir [("pattern.txt", File ("(b)" ++ String newline EmptyString));
                                  ("test_input.txt", File ("abc" ++ String newline EmptyString))]);
                  ("notes.txt", File "x");
                  ("empty", Dir [])]);
            ("a_topic",
             Dir [("topic.json",
                   File ("{" ++ dq ++ "title" ++ dq ++ ": " ++ dq ++ "A & T" ++ dq ++ ", "
                         ++ dq ++ "description" ++ dq ++ ": " ++ dq ++ "D" ++ dq ++ "}"));
                  ("z", Dir [("pattern.txt", File "a{2}");
                             ("test_input.txt", File "xaay");
                             ("description.html", File "<p>d</p>")])]);
            ("c_empty", Dir [("topic.json", File "{}")]);
            ("readme", File "r")]
           Sample.topics "c_empty" [("topic.json", File "{}")] (File "{}")).
  - vm_compute. reflexivity.
  - reflexivity.
  - simpl. auto.
  - reflexivity.
Defined.

(** X8.  When no directory of [examples] holds an example, and the
    metadata of each loads, [generate_html] returns without an exception and
    writes nothing; it does not read the templates and does not need the
    output directory. *)
Theorem nothing_to_generate (E : Engine) (Hs : Host)
    (base entries : list (string * node)) :
  entry "examples" base = Some (Dir entries) ->
  (forall name files,
      In (name, Dir files) entries ->
      (exists m, load_metadata name files = inr m)
      /\ forall e, In e files -> has_pattern e = false) ->
  generate_html base = (inr tt, []).
Proof.
  intros Hex Hnone. unfold generate_html, discover_topics, iterdir.
  rewrite Hex, load_topics_none; [reflexivity|].
  intros name files Hin. apply Hnone. now apply in_sorted_by in Hin.
Qed.

Lemma nothing_to_generate_witness :
  generate_html (E := MiniRe.engine) (Hs := MiniHost.host) Sample.bare = (inr tt, [])
  /\ entry "templates" Sample.bare = None
  /\ entry "html_output" Sample.bare = None.
Proof.
  split; [|split; reflexivity].
  apply (nothing_to_generate MiniRe.engine MiniHost.host Sample.bare
           [("c_empty", Dir [("topic.json", File "{}")]); ("readme", File "r")]).
  - reflexivity.
  - intros name files Hin. simpl in Hin.
    destruct Hin as [Heq|[Heq|[]]]; [|discriminate Heq].
    injection Heq as <- <-. split.
    + eexists. vm_compute. reflexivity.
    + intros e He. simpl in He. destruct He as [<-|[]]. reflexivity.
Defined.

(** X9.  A run of [generate_html] that ends without an exception on at
    least one topic has read the three templates and written the page of
    every topic, in the order of the topics, and the index page last, under
    the name [index.html].  After the run [index.html] holds the index page,
    also when a topic is named [index]. *)
Theorem generated_files (E : Engine) (Hs : Host)
    (base : list (string * node)) (topics : list Topic) (w : writes) :
  discover_topics base = inr topics ->
  topics <> [] ->
  generate_html base = (inr tt, w) ->
  exists header footer example pages,
    read_template base "header.html" = inr header
    /\ read_template base "footer.html" = inr footer
    /\ read_template base "example.html" = inr example
    /\ Forall2 (page_of header footer example (nav_links topics)) topics pages
    /\ w = (pages ++ [("index.html", index_page topics (nav_links topics) header footer)])%list
    /\ file_content "index.html" w
       = Some (index_page topics (nav_links topics) header footer).
Proof.
  intros Hd Hne Hg. unfold generate_html in Hg. rewrite Hd in Hg.
  destruct topics as [|t ts]; [contradiction|].
  destruct (read_template base "header.html") as [|header]; [discriminate|].
  destruct (read_template base "footer.html") as [|footer]; [discriminate|].
  destruct (read_template base "example.html") as [|example]; [discriminate|].
  destruct (write_topic_pages base header footer example (nav_links (t :: ts)) (t :: ts) [])
    as [[e|[]] w0] eqn:Hw; [discriminate|].
  apply write_topic_pages_spec in Hw as (done & rest & pages & Htopics & -> & HF & Hr & _).
  rewrite (Hr eq_refl), app_nil_r in Htopics. subst done.
  destruct (write_file_cases base "index.html"
              (index_page (t :: ts) (nav_links (t :: ts)) header footer) ([] ++ pages)%list)
    as [[Hok _]|[e He]]; rewrite ?Hok, ?He in Hg; [|discriminate].
  injection Hg as <-. cbn [List.app].
  exists header, footer, example, pages.
  repeat split; try reflexivity; try assumption.
  apply file_content_last.
Qed.

Lemma generated_files_witness :
  exists header footer example pages,
    read_template Sample.site "header.html" = inr header
    /\ read_template Sample.site "footer.html" = inr footer
    /\ read_template Sample.site "example.html" = inr example
    /\ Forall2 (page_of header footer example (nav_links Sample.topics))
         Sample.topics pages
    /\ snd (generate_html (E := MiniRe.engine) (Hs := MiniHost.host) Sample.site)
       = (pages ++ [("index.html",
                     index_page (Hs := MiniHost.host) Sample.topics
                       (nav_links Sample.topics) header footer)])%list
    /\ file_content "index.html"
         (snd (generate_html (E := MiniRe.engine) (Hs := MiniHost.host) Sample.site))
       = Some (index_page (Hs := MiniHost.host) Sample.topics
                 (nav_links Sample.topics) header footer).
Proof.
  apply (generated_files MiniRe.engine MiniHost.host Sample.site Sample.topics
           (snd (generate_html (E := MiniRe.engine) (Hs := MiniHost.host) Sample.site))).
  - vm_compute. reflexivity.
  - vm_compute. discriminate.
  - vm_compute. reflexivity.
Defined.

(** X10.  [generate_html] writes a file only after discovery returned at
    least one topic, the three templates were read, and the output
    directory was found: in every other case nothing is written. *)
Theorem nothing_written_without_templates (E : Engine) (Hs : Host)
    (base : list (string * node)) :
  snd (generate_html base) <> [] ->
  exists topics header footer example files,
    discover_topics base = inr topics
    /\ topics <> []
    /\ read_template base "header.html" = inr header
    /\ read_template base "footer.html" = inr footer
    /\ read_template base "example.html" = inr example
    /\ entry "html_output" base = Some (Dir files).
Proof.
  unfold generate_html. intros Hw.
  destruct (discover_topics base) as [e|[|t ts]]; [now contradiction Hw ..|].
  destruct (read_template base "header.html") as [|header]; [now contradiction Hw|].
  destruct (read_template base "footer.html") as [|footer]; [now contradiction Hw|].
  destruct (read_template base "example.html") as [|example]; [now contradiction Hw|].
  assert (Hout : exists files, entry "html_output" base = Some (Dir files)).
  { destruct (write_topic_pages base header footer example (nav_links (t :: ts)) (t :: ts) [])
      as [r w0] eqn:Hp.
    apply write_topic_pages_spec in Hp as (done & rest & pages & _ & -> & _ & _ & Hpages).
    cbn [List.app] in Hw.
    destruct pages as [|page pages]; [|apply Hpages; discriminate].
    destruct r as [e|u]; [now contradiction Hw|].
    destruct (write_file_cases base "index.html"
                (index_page (t :: ts) (nav_links (t :: ts)) header footer) [])
      as [[_ Hfiles]|[e He]]; [exact Hfiles|].
    rewrite He in Hw. now contradiction Hw. }
  destruct Hout as [files Hfiles].
  exists (t :: ts), header, footer, example, files.
  repeat split; try reflexivity; try assumption. discriminate.
Qed.

Lemma nothing_written_without_templates_witness :
  exists topics header footer example files,
    discover_topics (E := MiniRe.engine) (Hs := MiniHost.host) Sample.site = inr topics
    /\ topics <> []
    /\ read_template Sample.site "header.html" = inr header
    /\ read_template Sample.site "footer.html" = inr footer
    /\ read_template Sample.site "example.html" = inr example
    /\ entry "html_output" Sample.site = Some (Dir files).
Proof.
  apply (nothing_written_without_templates MiniRe.engine MiniHost.host Sample.site).
  vm_compute. discriminate.
Defined.

(** X11.  A topic whose title in [topic.json] is not a string stops
    [generate_html] with a [TypeError], raised by the replacement of the
    title in the header: the pages of the topics before it have been
    written, its own page, the pages of the later topics and the index page
    have not.  The descriptions may be of any type. *)
Theorem non_string_title_stops_generation (E : Engine) (Hs : Host)
    (base files : list (string * node)) (header footer example : string)
    (pre post : list Topic) (t : Topic) :
  discover_topics base = inr (pre ++ t :: post)%list ->
  read_template base "header.html" = inr header ->
  read_template base "footer.html" = inr footer ->
  read_template base "example.html" = inr example ->
  entry "html_output" base = Some (Dir files) ->
  only_files files ->
  forallb (fun t' => is_str_value (t_title t')) pre = true ->
  is_str_value (t_title t) = false ->
  exists msg pages,
    generate_html base = (inl (TypeError msg), pages)
    /\ Forall2 (page_of header footer example (nav_links (pre ++ t :: post))) pre pages.
Proof.
  intros Hd Hh Hf He Hout Honly Hpre Ht.
  destruct (write_topic_pages_type_error base files header footer example
              (nav_links (pre ++ t :: post)) t post Hout Honly Ht pre [] Hpre)
    as (pages & Hw & HF).
  exists "replace() argument 2 must be str", pages. split; [|exact HF].
  unfold generate_html. rewrite Hd.
  destruct (pre ++ t :: post)%list as [|t0 ts] eqn:Htopics.
  - now destruct pre.
  - now rewrite Hh, Hf, He, Hw.
Qed.

Lemma non_string_title_stops_generation_witness :
  exists msg pages,
    generate_html (E := MiniRe.engine) (Hs := MiniHost.host) Sample.numbered
    = (inl (TypeError msg), pages)
    /\ Forall2 (page_of "<h1>{TITLE}</h1>" "<end>" "[{EXAMPLE_NAME}]"
                  (nav_links (firstn 1 Sample.numbered_topics
                              ++ nth 1 Sample.numbered_topics (mkTopic "" (VStr "") (VStr "") [])
                              :: skipn 2 Sample.numbered_topics)))
         (firstn 1 Sample.numbered_topics) pages.
Proof.
  apply (non_string_title_stops_generation MiniRe.engine MiniHost.host Sample.numbered []).
  - vm_compute. reflexivity.
  - reflexivity.
  - reflexivity.
  - reflexivity.
  - reflexivity.
  - intros name files'. simpl. discriminate.
  - vm_compute. reflexivity.
  - vm_compute. reflexivity.
Defined.

(** X12.  On an example template that holds each of the five placeholders
    once, in the order of the replacements, every placeholder is replaced by
    its value: the name and the description as they are, the pattern and the
    test input escaped, the results as they are.  This holds when the text
    between the placeholders and the four values replaced first hold no
    opening brace followed by a capital letter. *)
Theorem placeholders_substituted
    (t0 t1 t2 t3 t4 t5 name pattern test_input results description topic : string) :
  brace_safe t0 = true -> brace_safe t1 = true -> brace_safe t2 = true ->
  brace_safe t3 = true -> brace_safe t4 = true -> brace_safe t5 = true ->
  brace_safe name = true -> brace_safe description = true ->
  brace_safe pattern = true -> brace_safe test_input = true ->
  example_html
    (t0 ++ "{EXAMPLE_NAME}" ++ t1 ++ "{DESCRIPTION}" ++ t2 ++ "{PATTERN}" ++ t3
     ++ "{TEST_INPUT}" ++ t4 ++ "{RESULTS}" ++ t5)
    (mkExample name pattern test_input results description topic)
  = t0 ++ name ++ t1 ++ description ++ t2 ++ escape pattern ++ t3
    ++ escape test_input ++ t4 ++ results ++ t5.
Proof.
  intros H0 H1 H2 H3 H4 H5 Hn Hd Hp Ht.
  rewrite <- brace_safe_escape in Hp, Ht.
  unfold example_html. cbn [ex_name ex_description ex_pattern ex_test_input ex_results].
  repeat walk.
  rewrite !(replace_safe _ _ _ t5) by (reflexivity || assumption).
  reflexivity.
Qed.

Lemma placeholders_substituted_witness :
  example_html "[{EXAMPLE_NAME}|{DESCRIPTION}|{PATTERN}|{TEST_INPUT}|{RESULTS}]"
    (mkExample "Z" "a{2}" "x<y" "<r>" "<p>d</p>" "t")
  = "[Z|<p>d</p>|a{2}|x&lt;y|<r>]".
Proof.
  apply (placeholders_substituted "[" "|" "|" "|" "|" "]" "Z" "a{2}" "x<y" "<r>"
           "<p>d</p>" "t"); reflexivity.
Defined.

(** X13.  The replacements are applied one after the other to the whole
    text, so a value inserted by one is searched by the next: a test input
    that holds the text of the results placeholder is shown with the whole
    results block in its place. *)
Theorem results_placeholder_in_test_input_expands
    (t0 t1 t2 t3 t4 t5 name pattern a b results description topic : string) :
  brace_safe t0 = true -> brace_safe t1 = true -> brace_safe t2 = true ->
  brace_safe t3 = true -> brace_safe t4 = true -> brace_safe t5 = true ->
  brace_safe name = true -> brace_safe description = true ->
  brace_safe pattern = true -> brace_safe a = true -> brace_safe b = true ->
  example_html
    (t0 ++ "{EXAMPLE_NAME}" ++ t1 ++ "{DESCRIPTION}" ++ t2 ++ "{PATTERN}" ++ t3
     ++ "{TEST_INPUT}" ++ t4 ++ "{RESULTS}" ++ t5)
    (mkExample name pattern (a ++ "{RESULTS}" ++ b) results description topic)
  = t0 ++ name ++ t1 ++ description ++ t2 ++ escape pattern ++ t3
    ++ (escape a ++ results ++ escape b) ++ t4 ++ results ++ t5.
Proof.
  intros H0 H1 H2 H3 H4 H5 Hn Hd Hp Ha Hb.
  rewrite <- brace_safe_escape in Hp, Ha, Hb.
  unfold example_html. cbn [ex_name ex_description ex_pattern ex_test_input ex_results].
  rewrite !escape_append. change (escape "{RESULTS}") with "{RESULTS}".
  repeat walk. rewrite !append_assoc. repeat walk.
  rewrite !(replace_safe _ _ _ t5) by (reflexivity || assumption).
  reflexivity.
Qed.

Lemma results_placeholder_in_test_input_expands_witness :
  example_html "[{EXAMPLE_NAME}|{DESCRIPTION}|{PATTERN}|{TEST_INPUT}|{RESULTS}]"
    (mkExample "Z" "x" "a{RESULTS}b" "<r>" "<p>d</p>" "t")
  = "[Z|<p>d</p>|x|a<r>b|<r>]".
Proof.
  apply (results_placeholder_in_test_input_expands "[" "|" "|" "|" "|" "]" "Z" "x"
           "a" "b" "<r>" "<p>d</p>" "t"); reflexivity.
Defined.

(** X14.  Every report of [test_pattern], error reports included, holds
    as many [<] as [>]: the pattern, the lines, the matched texts, the
    group values, the rendering of the find-all result and the message of an
    exception are all escaped before they are embedded.  Only the names of
    named groups are embedded as they are, so the property is stated for
    matches whose group names hold no angle bracket. *)
Theorem report_brackets_balanced (E : Engine) (pattern test_input : string) :
  (forall p mss,
      re_compile pattern = inr p ->
      scan_all p (test_lines test_input) = inr mss ->
      Forall (Forall plain_names) mss) ->
  balanced (results_html pattern test_input).
Proof.
  intros Hnames. rewrite results_html_eq.
  destruct (re_compile pattern) as [e|p]; [apply balanced_handler|].
  destruct (scan_all p (test_lines test_input)) as [e|mss] eqn:Hscan;
    [apply balanced_handler|].
  destruct (findall p test_input) as [e|all_matches]; [apply balanced_handler|].
  apply balanced_append.
  - apply balanced_lines_html. now apply (Hnames p).
  - apply balanced_findall_html.
Qed.

Lemma report_brackets_balanced_witness :
  balanced (results_html (E := MiniRe.engine) "(?P<w>a)|<" "<a>")
  /\ count_char "<" (results_html (E := MiniRe.engine) "(?P<w>a)|<" "<a>") = 34.
Proof.
  split; [|vm_compute; reflexivity].
  apply (report_brackets_balanced MiniRe.engine "(?P<w>a)|<" "<a>").
  intros p mss Hc Hscan.
  vm_compute in Hc. injection Hc as <-.
  vm_compute in Hscan. injection Hscan as <-.
  repeat constructor.
Defined.

(** X15.  A test text of white space only is reported as one empty line:
    the report is the block of line 1, for the matches of the pattern in the
    empty string, followed by the find-all block, which is computed on the
    text as it was read. *)
Theorem blank_input_reports_one_line (E : Engine) (pattern test_input : string)
    (p : Pattern) (ms : list Match) (all_matches : list FindallItem) :
  all_space test_input ->
  re_compile pattern = inr p ->
  finditer p EmptyString = inr ms ->
  findall p test_input = inr all_matches ->
  results_html pattern test_input
  = line_html 1 EmptyString ms ++ findall_html all_matches.
Proof.
  intros Hblank Hc Hline Hall.
  rewrite results_html_eq, Hc. unfold test_lines.
  rewrite (strip_all_space _ Hblank).
  cbn [split_newline scan_all]. rewrite Hline, Hall.
  cbn [lines_html]. now rewrite append_nil_r.
Qed.

Lemma blank_input_reports_one_line_witness :
  results_html (E := MiniRe.engine) "( )" "  "
  = line_html 1 EmptyString [] ++ findall_html [FStr " "; FStr " "].
Proof.
  eapply (blank_input_reports_one_line MiniRe.engine "( )" "  ").
  - repeat (apply all_space_cons; [reflexivity|]). apply all_space_nil.
  - vm_compute. reflexivity.
  - vm_compute. reflexivity.
  - vm_compute. reflexivity.
Defined.

(** X16.  The topics do not depend on the order in which the directory
    [examples] lists its entries: two listings of the same entries, with
    every name once, give the same topics, or the same exception. *)
Theorem discovery_independent_of_listing_order (E : Engine) (Hs : Host)
    (base base' entries entries' : list (string * node)) :
  entry "examples" base = Some (Dir entries) ->
  entry "examples" base' = Some (Dir entries') ->
  Permutation entries entries' ->
  NoDup (map fst entries) ->
  discover_topics base = discover_topics base'.
Proof.
  intros Hex Hex' Hperm Hnodup. unfold discover_topics, iterdir.
  rewrite Hex, Hex'. f_equal. now apply sorted_by_permutation_eq.
Qed.

Lemma discovery_independent_of_listing_order_witness :
  discover_topics (E := MiniRe.engine) (Hs := MiniHost.host)
    [("examples", Dir [("b", Dir []); ("a", Dir [("topic.json", File "x")])])]
  = discover_topics (E := MiniRe.engine) (Hs := MiniHost.host)
      [("examples", Dir [("a", Dir [("topic.json", File "x")]); ("b", Dir [])])].
Proof.
  apply (discovery_independent_of_listing_order MiniRe.engine MiniHost.host
           [("examples", Dir [("b", Dir []); ("a", Dir [("topic.json", File "x")])])]
           [("examples", Dir [("a", Dir [("topic.json", File "x")]); ("b", Dir [])])]
           [("b", Dir []); ("a", Dir [("topic.json", File "x")])]
           [("a", Dir [("topic.json", File "x")]); ("b", Dir [])]).
  - reflexivity.
  - reflexivity.
  - apply perm_swap.
  - simpl. repeat constructor; simpl; intuition discriminate.
Defined.
